(** * XMLExporter.cpp: the SketchUp-to-XML sample exporter

    A shallow embedding of [CXmlExporter] (samples/C++/skp_to_xml/common/
    XMLExporter.cpp).  The exporter only walks the object graph that the
    SketchUp SDK hands out and forwards records to an XML writer, so the
    embedding has three layers:

    - the SDK object graph as plain data, every query carrying the status
      code the SDK would return for it;
    - the exporter's member functions in a small monad that threads the
      object's fields, collects the calls made on the collaborators (the
      XML file, the progress callback, the SDK life-cycle functions) and
      propagates C++ exceptions;
    - theorems about those functions. *)

From Stdlib Require Import List String Ascii Bool Arith NArith ZArith Lia.
From Stdlib Require Import Sorted.
From Stdlib Require Import Floats.PrimFloat.
Import ListNotations.
Local Open Scope list_scope.

Set Implicit Arguments.
Set Warnings "-register-all".

(* ================================================================== *)
(** ** The SDK: status codes, references and queries *)
(* ================================================================== *)

(** [enum SUResult] of slapi/common.h (the header is not part of the sample;
    only [SU_ERROR_NONE] is ever distinguished by the exporter). *)
Inductive SUResult : Type :=
| SU_ERROR_NONE
| SU_ERROR_NULL_POINTER_INPUT
| SU_ERROR_INVALID_INPUT
| SU_ERROR_NULL_POINTER_OUTPUT
| SU_ERROR_INVALID_OUTPUT
| SU_ERROR_OVERWRITE_VALID
| SU_ERROR_GENERIC
| SU_ERROR_SERIALIZATION
| SU_ERROR_OUT_OF_RANGE
| SU_ERROR_NO_DATA
| SU_ERROR_INSUFFICIENT_SIZE
| SU_ERROR_UNKNOWN_EXCEPTION
| SU_ERROR_MODEL_INVALID
| SU_ERROR_MODEL_VERSION.

Definition is_SU_ERROR_NONE (r : SUResult) : bool :=
  match r with SU_ERROR_NONE => true | _ => false end.

(** A single-valued SDK getter on some object: the status it returns and the
    value it stores through its out-parameter when the status is
    [SU_ERROR_NONE]. *)
Record Query (A : Type) : Type := mkQuery {
  q_status : SUResult;
  q_value : A
}.

(** An array-valued SDK getter pair ([...GetNumXs] / [...GetXs]): the status of
    each of the two calls and the objects held. *)
Record SUArray (A : Type) : Type := mkSUArray {
  arr_num_status : SUResult;
  arr_get_status : SUResult;
  arr_items : list A
}.

(** Calling a getter with out-parameter [out]: the out-parameter is written
    only on success. *)
Definition answer {A} (q : Query A) (out : A) : SUResult * A :=
  if is_SU_ERROR_NONE (q_status q) then (SU_ERROR_NONE, q_value q)
  else (q_status q, out).

(** A getter applied to a reference: [SU_INVALID] references are refused with
    [SU_ERROR_INVALID_INPUT]. *)
Definition on_ref {O A} (ref : option O) (get : O -> Query A) (out : A)
  : SUResult * A :=
  match ref with
  | None => (SU_ERROR_INVALID_INPUT, out)
  | Some o => answer (get o) out
  end.

(** [...GetNumXs(ref, &count)]. *)
Definition get_num {O A} (ref : option O) (arr : O -> SUArray A) (out : nat)
  : SUResult * nat :=
  match ref with
  | None => (SU_ERROR_INVALID_INPUT, out)
  | Some o =>
      if is_SU_ERROR_NONE (arr_num_status (arr o))
      then (SU_ERROR_NONE, List.length (arr_items (arr o)))
      else (arr_num_status (arr o), out)
  end.

(** [...GetXs(ref, len, &xs[0], &count)]: at most [len] objects are copied to
    the caller's vector and [count] tells how many.  The vector is the prefix
    of [arr_items]; the returned value is the new [count]. *)
Definition get_items {O A} (ref : option O) (arr : O -> SUArray A)
  (len : nat) (out : nat) : SUResult * nat :=
  match ref with
  | None => (SU_ERROR_INVALID_INPUT, out)
  | Some o =>
      if is_SU_ERROR_NONE (arr_get_status (arr o))
      then (SU_ERROR_NONE, Nat.min len (List.length (arr_items (arr o))))
      else (arr_get_status (arr o), out)
  end.

(** The objects behind a reference's array (what [&xs[0]] points at after a
    successful [get_items]). *)
Definition items_of {O A} (ref : option O) (arr : O -> SUArray A) : list A :=
  match ref with
  | None => []
  | Some o => arr_items (arr o)
  end.

(** [SUIsInvalid]. *)
Definition SUIsInvalid {O} (ref : option O) : bool :=
  match ref with None => true | Some _ => false end.

(* ------------------------------------------------------------------ *)
(** *** Plain SDK values *)

Record SUColor : Type := mkSUColor {
  red : N; green : N; blue : N; alpha : N
}.

Record SUPoint3D : Type := mkSUPoint3D {
  x : float; y : float; z : float
}.

(** [struct SUTransformation { double values[16]; }]. *)
Definition SUTransformation : Type := list float.

Inductive SUMaterialType : Type :=
| SUMaterialType_Colored
| SUMaterialType_Textured
| SUMaterialType_ColorizedTexture.

(* ------------------------------------------------------------------ *)
(** *** The object graph *)

Record Texture : Type := mkTexture {
  SUTextureGetFileName_ : Query string;
  (* width, height, s_scale, t_scale *)
  SUTextureGetDimensions_ : Query (nat * nat * float * float)
}.
Definition SUTextureRef : Type := option Texture.

Record Material : Type := mkMaterial {
  SUMaterialGetName_ : Query string;
  SUMaterialGetType_ : Query SUMaterialType;
  SUMaterialGetColor_ : Query SUColor;
  SUMaterialGetUseOpacity_ : Query bool;
  SUMaterialGetOpacity_ : Query float;
  SUMaterialGetTexture_ : Query SUTextureRef
}.
Definition SUMaterialRef : Type := option Material.

Record Layer : Type := mkLayer {
  SULayerGetName_ : Query string;
  SULayerGetMaterial_ : Query SUMaterialRef;
  SULayerGetVisibility_ : Query bool
}.
Definition SULayerRef : Type := option Layer.

Record Vertex : Type := mkVertex {
  SUVertexGetPosition_ : Query SUPoint3D
}.
Definition SUVertexRef : Type := option Vertex.

Record Loop : Type := mkLoop {
  loop_vertices : SUArray SUVertexRef
}.
Definition SULoopRef : Type := option Loop.

(** What every drawing element answers to [SUDrawingElementGetLayer] and
    [SUDrawingElementGetMaterial]. *)
Record DrawingElement : Type := mkDrawingElement {
  SUDrawingElementGetLayer_ : Query SULayerRef;
  SUDrawingElementGetMaterial_ : Query SUMaterialRef
}.

Record Face : Type := mkFace {
  SUFaceToDrawingElement_ : DrawingElement;
  SUFaceGetOuterLoop_ : Query SULoopRef;
  face_inner_loops : SUArray SULoopRef
}.
Definition SUFaceRef : Type := option Face.

Record Edge : Type := mkEdge {
  SUEdgeToDrawingElement_ : DrawingElement;
  SUEdgeGetStartVertex_ : Query SUVertexRef;
  SUEdgeGetEndVertex_ : Query SUVertexRef
}.
Definition SUEdgeRef : Type := option Edge.

Record Curve : Type := mkCurve {
  curve_edges : SUArray SUEdgeRef
}.
Definition SUCurveRef : Type := option Curve.

(** Component definitions, component instances and groups hold entities and
    entities hold them: the records are parametric in the entities type and
    the knot is tied in [Entities]. *)
Record ComponentDefinition (E : Type) : Type := mkComponentDefinition {
  SUComponentDefinitionGetName_ : Query string;
  SUComponentDefinitionGetEntities_ : Query (option E)
}.

Record ComponentInstance (E : Type) : Type := mkComponentInstance {
  SUComponentInstanceToDrawingElement_ : DrawingElement;
  SUComponentInstanceGetDefinition_ : Query (option (ComponentDefinition E));
  SUComponentInstanceGetTransform_ : Query SUTransformation
}.

Record Group (E : Type) : Type := mkGroup {
  SUGroupToDrawingElement_ : DrawingElement;
  SUGroupGetEntities_ : Query (option E);
  SUGroupGetTransform_ : Query SUTransformation
}.

Inductive Entities : Type := mkEntities {
  ents_instances : SUArray (option (ComponentInstance Entities));
  ents_groups : SUArray (option (Group Entities));
  ents_faces : SUArray SUFaceRef;
  (* indexed by the [standAloneOnly] flag of SUEntitiesGetEdges *)
  ents_edges : bool -> SUArray SUEdgeRef;
  ents_curves : SUArray SUCurveRef
}.
Definition SUEntitiesRef : Type := option Entities.
Definition SUComponentDefinitionRef : Type := option (ComponentDefinition Entities).
Definition SUComponentInstanceRef : Type := option (ComponentInstance Entities).
Definition SUGroupRef : Type := option (Group Entities).

Record Model : Type := mkModel {
  (* major, minor, build *)
  SUModelGetVersion_ : Query (Z * Z * Z);
  model_layers : SUArray SULayerRef;
  model_materials : SUArray SUMaterialRef;
  model_component_definitions : SUArray SUComponentDefinitionRef;
  SUModelGetEntities_ : Query SUEntitiesRef;
  (* CXmlTextureHelper::LoadAllTextures(model, writer, by_layer) *)
  LoadAllTextures_ : bool -> nat
}.
Definition SUModelRef : Type := option Model.

Record TextureWriter : Type := mkTextureWriter {
  SUTextureWriterWriteAllTextures_ : string -> SUResult
}.
Definition SUTextureWriterRef : Type := option TextureWriter.

(* ================================================================== *)
(** ** Output records and the exporter's collaborators *)
(* ================================================================== *)

(** [CPoint3d] of xmlgeomutils.h (not part of the sample), built from an
    [SUPoint3D] or from three coordinates: the three coordinates. *)
Record CPoint3d : Type := mkCPoint3d {
  pt_x : float; pt_y : float; pt_z : float
}.
Definition CPoint3d_of (p : SUPoint3D) : CPoint3d :=
  mkCPoint3d (x p) (y p) (z p).

(** The output-record shapes.  Their declarations (xmlfile.h) are not part
    of the sample: the fields are those XMLExporter.cpp assigns, and the
    spec has them as "plain value structs assembled from SDK queries and
    handed to the writer".  A field the exporter leaves alone keeps the
    value of the default-constructed struct ([default_...] below). *)
Record XmlMaterialInfo : Type := mkXmlMaterialInfo {
  mi_name_ : string;
  mi_has_color_ : bool;
  mi_color_ : SUColor;
  mi_has_alpha_ : bool;
  mi_alpha_ : float;
  mi_has_texture_ : bool;
  mi_texture_path_ : string;
  mi_texture_sscale_ : float;
  mi_texture_tscale_ : float
}.

Record XmlLayerInfo : Type := mkXmlLayerInfo {
  li_name_ : string;
  li_has_material_info_ : bool;
  li_material_info_ : XmlMaterialInfo;
  li_is_visible_ : bool
}.

Record XmlFaceVertex : Type := mkXmlFaceVertex {
  vertex_ : CPoint3d
}.

Record XmlFaceInfo : Type := mkXmlFaceInfo {
  has_single_loop_ : bool;
  vertices_ : list XmlFaceVertex
}.

Record XmlEdgeInfo : Type := mkXmlEdgeInfo {
  ei_has_layer_ : bool;
  ei_layer_name_ : string;
  ei_has_color_ : bool;
  ei_color_ : SUColor;
  ei_start_ : CPoint3d;
  ei_end_ : CPoint3d
}.

Record XmlCurveInfo : Type := mkXmlCurveInfo {
  edges_ : list XmlEdgeInfo
}.

Record XmlComponentInstanceInfo : Type := mkXmlComponentInstanceInfo {
  ci_layer_name_ : string;
  ci_material_name_ : string;
  ci_definition_name_ : string;
  ci_transform_ : SUTransformation
}.

(** Modelled from the spec: what a default-constructed output record holds
    in the fields the exporter does not assign (the constructors are in
    xmlfile.h, which is not part of the sample): "plain value structs",
    taken to start out with empty strings, [false] and zeros. *)
Definition default_SUColor : SUColor := mkSUColor 0 0 0 0.
Definition default_CPoint3d : CPoint3d := mkCPoint3d 0 0 0.
Definition default_XmlMaterialInfo : XmlMaterialInfo :=
  mkXmlMaterialInfo EmptyString false default_SUColor false 0 false
    EmptyString 0 0.

(** Every call the exporter makes on a collaborator that has an effect
    outside the exporter object, in the order of the calls: the SDK
    life-cycle functions, the XML file [file_], the texture helper and the
    progress callback. *)
Inductive Call : Type :=
(* slapi *)
| SUInitialize
| SUTerminate
| SUModelCreateFromFile (src_file : string)
| SUModelRelease
| SUTextureWriterCreate
| SUTextureWriterRelease
| SUTextureWriterWriteAllTextures (directory : string)
(* CXmlTextureHelper *)
| LoadAllTextures (by_layer : bool)
(* CXmlFile file_ *)
| Open (dst_file : string)
| Close (cancelled : bool)
| WriteHeader (major_ver minor_ver build_no : Z)
| StartLayers
| StartMaterials
| StartGeometry
| StartComponentDefinitions
| StartComponentDefinition (name : string)
| StartGroup
| PopParentNode
| WriteLayerInfo (info : XmlLayerInfo)
| WriteMaterialInfo (info : XmlMaterialInfo)
| WriteComponentInstanceInfo (info : XmlComponentInstanceInfo)
| WriteTransformation (transform : SUTransformation)
| WriteFaceInfo (info : XmlFaceInfo)
| WriteEdgeInfo (info : XmlEdgeInfo)
| WriteCurveInfo (info : XmlCurveInfo)
(* SketchUpPluginProgressCallback *)
| HasBeenCancelled (flag : bool)
| SetPercentDone (percent : float)
| SetProgressMessage (message : string).

(** [CXmlOptions options_]. *)
Record CXmlOptions : Type := mkCXmlOptions {
  export_materials : bool;
  export_layers : bool;
  export_faces : bool;
  export_edges : bool;
  export_materials_by_layer : bool
}.

(** [CXmlStats stats_] (xmlstats.h, not part of the sample), as the exporter
    uses it: the value last given to [set_textures] and the number of
    [AddLayer], [AddFace] and [AddEdge] calls. *)
Record CXmlStats : Type := mkCXmlStats {
  n_textures : nat;
  n_layers : nat;
  n_faces : nat;
  n_edges : nat
}.
Definition set_textures (n : nat) (st : CXmlStats) : CXmlStats :=
  mkCXmlStats n (n_layers st) (n_faces st) (n_edges st).
Definition AddLayer (st : CXmlStats) : CXmlStats :=
  mkCXmlStats (n_textures st) (S (n_layers st)) (n_faces st) (n_edges st).
Definition AddFace (st : CXmlStats) : CXmlStats :=
  mkCXmlStats (n_textures st) (n_layers st) (S (n_faces st)) (n_edges st).
Definition AddEdge (st : CXmlStats) : CXmlStats :=
  mkCXmlStats (n_textures st) (n_layers st) (n_faces st) (S (n_edges st)).

(** The element handed to [CInheritanceManager::PushElement] (one overload
    per kind of reference). *)
Inductive Element : Type :=
| ComponentInstanceElement (instance : SUComponentInstanceRef)
| GroupElement (group : SUGroupRef)
| FaceElement (face : SUFaceRef)
| EdgeElement (edge : SUEdgeRef).

(** [CInheritanceManager] (xmlinheritancemanager.h) is used through four
    member functions only; its implementation is not part of the sample, so
    the exporter is parametric in it. *)
Class CInheritanceManager (IM : Type) : Type := {
  PushElement : Element -> IM -> IM;
  PopElement : IM -> IM;
  GetCurrentLayer : IM -> SULayerRef;
  GetCurrentEdgeColor : IM -> SUColor
}.

(** The scope-stack law: leaving an element restores the context that was
    current when it was entered. *)
Definition StackLike (IM : Type) `{CInheritanceManager IM} : Prop :=
  forall (e : Element) (im : IM), PopElement (PushElement e im) = im.
Arguments StackLike IM {_}.

(** The progress callback the caller passes to [Convert]: a null pointer, or
    an object whose cancellation flag the caller may raise at any time.
    [cancel_flag k] is the flag as read by the [k]-th [HasBeenCancelled] call
    of the run (counting from 0). *)
Record SketchUpPluginProgressCallback : Type := mkCallback {
  cancel_flag : nat -> bool
}.

(** What lies outside the exporter and the model: the files behind
    [SUModelCreateFromFile], the texture writer the SDK creates, and the
    answers of the XML file object. *)
Record Host : Type := mkHost {
  SUModelCreateFromFile_ : string -> Query SUModelRef;
  SUTextureWriterCreate_ : Query SUTextureWriterRef;
  file_Open_ : string -> bool;
  file_GetTextureDirectory_ : string
}.

(* ================================================================== *)
(** ** Exceptions, state and calls: the two monads *)
(* ================================================================== *)

(** A C++ computation either returns or throws ([std::exception] from
    [SU_CALL]; the only handler is [catch(...)], so the exception carries
    nothing). *)
Inductive Outcome (A : Type) : Type :=
| Returned (a : A)
| Thrown.
Arguments Thrown {A}.

(** The static helper functions: no state, may throw. *)
Definition obind {A B} (m : Outcome A) (f : A -> Outcome B) : Outcome B :=
  match m with
  | Returned a => f a
  | Thrown => Thrown
  end.

(** Modelled from the spec: the macro [SU_CALL] of ../../common/utils.h, which
    is not part of the sample: "a macro that raises on any non-success status
    code".  The value is what the call stored through its out-parameter. *)
Definition SU_CALL {A} (call : SUResult * A) : Outcome A :=
  match fst call with
  | SU_ERROR_NONE => Returned (snd call)
  | _ => Thrown
  end.

Declare Scope outcome_scope.
Delimit Scope outcome_scope with outcome.
Notation "x <- m ;; k" := (obind m (fun x => k))
  (at level 61, m at next level, right associativity) : outcome_scope.
Notation "m ;; k" := (obind m (fun _ => k))
  (at level 61, right associativity) : outcome_scope.

(** [for (size_t i = 0; i < count; i++) body(xs[i])] over a vector whose first
    [count] cells were filled from [xs], accumulating in [acc]. *)
Fixpoint ofold_upto {A B} (body : B -> A -> Outcome B) (count : nat)
  (xs : list A) (acc : B) : Outcome B :=
  match count, xs with
  | S count', x :: xs' => obind (body acc x) (ofold_upto body count' xs')
  | _, _ => Returned acc
  end.

(* ================================================================== *)
(** ** The static helpers *)
(* ================================================================== *)

Section StaticHelpers.
Local Open Scope outcome_scope.

(** [CSUString::utf8]: the std::string is resized to [length + 1] characters
    and the [length] bytes of the SDK string are copied to its front, so the
    result ends with one NUL character. *)
Definition utf8 (su_str_ : string) : string :=
  String.append su_str_ (String Ascii.zero EmptyString).

Definition SUMaterialGetName (material : SUMaterialRef) := on_ref material SUMaterialGetName_.
Definition SUMaterialGetType (material : SUMaterialRef) := on_ref material SUMaterialGetType_.
Definition SUMaterialGetColor (material : SUMaterialRef) := on_ref material SUMaterialGetColor_.
Definition SUMaterialGetUseOpacity (material : SUMaterialRef) := on_ref material SUMaterialGetUseOpacity_.
Definition SUMaterialGetOpacity (material : SUMaterialRef) := on_ref material SUMaterialGetOpacity_.
Definition SUMaterialGetTexture (material : SUMaterialRef) := on_ref material SUMaterialGetTexture_.
Definition SUTextureGetFileName (texture : SUTextureRef) := on_ref texture SUTextureGetFileName_.
Definition SUTextureGetDimensions (texture : SUTextureRef) := on_ref texture SUTextureGetDimensions_.
Definition SULayerGetName (layer : SULayerRef) := on_ref layer SULayerGetName_.
Definition SULayerGetMaterial (layer : SULayerRef) := on_ref layer SULayerGetMaterial_.
Definition SULayerGetVisibility (layer : SULayerRef) := on_ref layer SULayerGetVisibility_.
Definition SUComponentDefinitionGetName (comp_def : SUComponentDefinitionRef) :=
  on_ref comp_def (@SUComponentDefinitionGetName_ Entities).
Definition SUVertexGetPosition (vertex : SUVertexRef) := on_ref vertex SUVertexGetPosition_.
Definition SUEdgeGetStartVertex (edge : SUEdgeRef) := on_ref edge SUEdgeGetStartVertex_.
Definition SUEdgeGetEndVertex (edge : SUEdgeRef) := on_ref edge SUEdgeGetEndVertex_.
Definition SUFaceGetOuterLoop (face : SUFaceRef) := on_ref face SUFaceGetOuterLoop_.
Definition SUModelGetVersion (model : SUModelRef) := on_ref model SUModelGetVersion_.
Definition SUModelGetEntities (model : SUModelRef) := on_ref model SUModelGetEntities_.
Definition SUComponentInstanceGetDefinition (instance : SUComponentInstanceRef) :=
  on_ref instance (@SUComponentInstanceGetDefinition_ Entities).
Definition SUComponentInstanceGetTransform (instance : SUComponentInstanceRef) :=
  on_ref instance (@SUComponentInstanceGetTransform_ Entities).
Definition SUGroupGetEntities (group : SUGroupRef) :=
  on_ref group (@SUGroupGetEntities_ Entities).
Definition SUGroupGetTransform (group : SUGroupRef) :=
  on_ref group (@SUGroupGetTransform_ Entities).

(** [SUDrawingElementGetLayer(SU...ToDrawingElement(ref), &layer)] and its
    material twin, on a reference converted to a drawing element. *)
Definition SUDrawingElementGetLayer {O} (to_de : O -> DrawingElement)
  (ref : option O) :=
  on_ref ref (fun o => SUDrawingElementGetLayer_ (to_de o)).
Definition SUDrawingElementGetMaterial {O} (to_de : O -> DrawingElement)
  (ref : option O) :=
  on_ref ref (fun o => SUDrawingElementGetMaterial_ (to_de o)).

(** Utility function to get a material's name *)
Definition GetMaterialName (material : SUMaterialRef) : Outcome string :=
  name <- SU_CALL (SUMaterialGetName material EmptyString) ;;
  Returned (utf8 name).

(** Utility function to get a layer's name *)
Definition GetLayerName (layer : SULayerRef) : Outcome string :=
  name <- SU_CALL (SULayerGetName layer EmptyString) ;;
  Returned (utf8 name).

(** Utility function to get a component definition's name *)
Definition GetComponentDefinitionName (comp_def : SUComponentDefinitionRef)
  : Outcome string :=
  name <- SU_CALL (SUComponentDefinitionGetName comp_def EmptyString) ;;
  Returned (utf8 name).

Definition is_colored (type : SUMaterialType) : bool :=
  match type with
  | SUMaterialType_Colored | SUMaterialType_ColorizedTexture => true
  | SUMaterialType_Textured => false
  end.

Definition is_textured (type : SUMaterialType) : bool :=
  match type with
  | SUMaterialType_Textured | SUMaterialType_ColorizedTexture => true
  | SUMaterialType_Colored => false
  end.

(** [GetMaterialInfo].  The leading [assert(!SUIsInvalid(material))] is
    compiled out under NDEBUG, which is the build followed here; an invalid
    material then makes the first [SU_CALL] throw.  Locals that the source
    leaves uninitialised before an [SU_CALL] get a placeholder: the call
    either overwrites it or throws. *)
Definition GetMaterialInfo (material : SUMaterialRef) : Outcome XmlMaterialInfo :=
  let info := default_XmlMaterialInfo in
  (* Name *)
  name <- GetMaterialName material ;;
  (* Color *)
  type <- SU_CALL (SUMaterialGetType material SUMaterialType_Colored) ;;
  let '(has_color, color) :=
    if is_colored type then
      match SUMaterialGetColor material default_SUColor with
      | (SU_ERROR_NONE, color) => (true, color)
      | _ => (false, mi_color_ info)
      end
    else (false, mi_color_ info) in
  (* Alpha *)
  has_alpha <- SU_CALL (SUMaterialGetUseOpacity material false) ;;
  alpha <- (if has_alpha : bool
            then SU_CALL (SUMaterialGetOpacity material 0%float)
            else Returned (mi_alpha_ info)) ;;
  (* Texture *)
  tex <- (if is_textured type then
            match SUMaterialGetTexture material None with
            | (SU_ERROR_NONE, texture) =>
                (* Texture path *)
                texture_path <- SU_CALL (SUTextureGetFileName texture EmptyString) ;;
                (* Texture scale *)
                dims <- SU_CALL (SUTextureGetDimensions texture
                                   (0, 0, 0%float, 0%float)) ;;
                let '(_, _, s_scale, t_scale) := dims in
                Returned (true, utf8 texture_path, s_scale, t_scale)
            | _ =>
                Returned (false, mi_texture_path_ info,
                          mi_texture_sscale_ info, mi_texture_tscale_ info)
            end
          else
            Returned (false, mi_texture_path_ info,
                      mi_texture_sscale_ info, mi_texture_tscale_ info)) ;;
  let '(has_texture, texture_path, s_scale, t_scale) := tex in
  Returned (mkXmlMaterialInfo name has_color color has_alpha alpha
              has_texture texture_path s_scale t_scale).

(** The block of [WriteFace] that fills an [XmlFaceInfo] from one loop; the
    source has it twice, word for word, once for the outer loop and once in
    the body of the loop over the inner loops. *)
Definition loop_face_info (loop : SULoopRef) : Outcome XmlFaceInfo :=
  num_vertices <- SU_CALL (get_num loop loop_vertices 0) ;;
  vertices <-
    (if 0 <? num_vertices then
       num_vertices <- SU_CALL (get_items loop loop_vertices
                                  num_vertices num_vertices) ;;
       ofold_upto
         (fun vertices vertex_ref =>
            (* vertex position *)
            su_point <- SU_CALL (SUVertexGetPosition vertex_ref
                                   (mkSUPoint3D 0 0 0)) ;;
            Returned (vertices ++ [mkXmlFaceVertex (CPoint3d_of su_point)]))
         num_vertices (items_of loop loop_vertices) []
     else Returned []) ;;
  Returned (mkXmlFaceInfo true vertices).

End StaticHelpers.

(* ================================================================== *)
(** ** The exporter object *)
(* ================================================================== *)

(** Modelled from the spec: what [HandleProgress] of ../../common/utils.h
    (not part of the sample) does when it finds the cancellation flag
    raised.  The spec only says that the flag is checked between phases, so
    the three readings are kept: the check throws to the top-level handler,
    or the report is skipped, or the flag is ignored there. *)
Inductive CancelPolicy : Type :=
| CancelThrows
| CancelSkipsReport
| CancelIgnored.

(** How [Convert] leaves its [try] block when nothing is thrown: by the
    [return exported;] inside it, or through its end with the current value
    of the local [exported]. *)
Inductive Flow : Type :=
| ReturnStatement (exported : bool)
| EndOfTry (exported : bool).

Section Exporter.

Context {IM : Type} `{CInheritanceManager IM}.
Variable on_cancel : CancelPolicy.
Variable host : Host.

(** The data members of [CXmlExporter] ([file_] is write-only and appears as
    the calls made on it). *)
Record CXmlExporter : Type := mkCXmlExporter {
  options_ : CXmlOptions;
  model_ : SUModelRef;
  texture_writer_ : SUTextureWriterRef;
  stats_ : CXmlStats;
  inheritance_manager_ : IM
}.

(** The state a member function runs in: the object, and how many times the
    progress callback's flag has been read so far. *)
Record State : Type := mkState {
  self : CXmlExporter;
  polls : nat
}.

(** A member function: from a state to an outcome, the state reached (also
    when it throws: effects are not rolled back) and the calls made. *)
Definition M (A : Type) : Type := State -> Outcome A * State * list Call.

Definition ret {A} (a : A) : M A := fun s => (Returned a, s, []).

(** The calls [calls1] made so far, put in front of the rest of a run. *)
Definition after {B} (calls1 : list Call) (run : Outcome B * State * list Call)
  : Outcome B * State * list Call :=
  let '(r, s2, calls2) := run in (r, s2, calls1 ++ calls2).

Definition bind {A B} (m : M A) (f : A -> M B) : M B := fun s =>
  match m s with
  | (Returned a, s1, calls1) => after calls1 (f a s1)
  | (Thrown, s1, calls1) => (Thrown, s1, calls1)
  end.

Definition lift {A} (o : Outcome A) : M A := fun s => (o, s, []).

Definition call (c : Call) : M unit := fun s => (Returned tt, s, [c]).

Definition this : M CXmlExporter := fun s => (Returned (self s), s, []).

Definition update (f : CXmlExporter -> CXmlExporter) : M unit := fun s =>
  (Returned tt, mkState (f (self s)) (polls s), []).

(** [try { body } catch(...) { handler }]. *)
Definition try_catch {A} (body handler : M A) : M A := fun s =>
  match body s with
  | (Returned a, s1, calls1) => (Returned a, s1, calls1)
  | (Thrown, s1, calls1) => after calls1 (handler s1)
  end.

Notation "x <- m ;; k" := (bind m (fun x => k))
  (at level 61, m at next level, right associativity).
Notation "m ;; k" := (bind m (fun _ => k))
  (at level 61, right associativity).

(** [for (size_t i = 0; i < count; i++) body(xs[i])] over a vector whose first
    [count] cells were filled from [xs]. *)
Definition for_upto {A} (body : A -> M unit) : nat -> list A -> M unit :=
  fix loop (count : nat) (xs : list A) {struct xs} : M unit :=
    match count, xs with
    | S count', x :: xs' => body x ;; loop count' xs'
    | _, _ => ret tt
    end.

Definition set_model_ (m : SUModelRef) (e : CXmlExporter) : CXmlExporter :=
  mkCXmlExporter (options_ e) m (texture_writer_ e) (stats_ e)
    (inheritance_manager_ e).
Definition set_texture_writer_ (w : SUTextureWriterRef) (e : CXmlExporter)
  : CXmlExporter :=
  mkCXmlExporter (options_ e) (model_ e) w (stats_ e) (inheritance_manager_ e).
Definition on_stats_ (f : CXmlStats -> CXmlStats) (e : CXmlExporter)
  : CXmlExporter :=
  mkCXmlExporter (options_ e) (model_ e) (texture_writer_ e) (f (stats_ e))
    (inheritance_manager_ e).
Definition on_inheritance_manager_ (f : IM -> IM) (e : CXmlExporter)
  : CXmlExporter :=
  mkCXmlExporter (options_ e) (model_ e) (texture_writer_ e) (stats_ e)
    (f (inheritance_manager_ e)).

(* ------------------------------------------------------------------ *)
(** *** The progress callback (utils.h) *)

(** [callback->HasBeenCancelled()]. *)
Definition poll (callback : SketchUpPluginProgressCallback) : M bool := fun s =>
  let flag := cancel_flag callback (polls s) in
  (Returned flag, mkState (self s) (S (polls s)), [HasBeenCancelled flag]).

(** Modelled from the spec: [IsCancelled] of ../../common/utils.h, which is
    not part of the sample: the "caller-supplied progress flag", read from
    the callback when there is one. *)
Definition IsCancelled (progress_callback : option SketchUpPluginProgressCallback)
  : M bool :=
  match progress_callback with
  | None => ret false
  | Some callback => poll callback
  end.

Definition report (percent_done : float) (message : string) : M unit :=
  call (SetPercentDone percent_done) ;;
  call (SetProgressMessage message).

(** Modelled from the spec: [HandleProgress] of ../../common/utils.h, which is
    not part of the sample: the callback "receives ... percentage values and
    phase labels", and its flag is "check[ed] between phases". *)
Definition HandleProgress (progress_callback : option SketchUpPluginProgressCallback)
  (percent_done : float) (message : string) : M unit :=
  match progress_callback with
  | None => ret tt
  | Some callback =>
      cancelled <- poll callback ;;
      if cancelled : bool then
        match on_cancel with
        | CancelThrows => lift Thrown
        | CancelSkipsReport => ret tt
        | CancelIgnored => report percent_done message
        end
      else report percent_done message
  end.

(* ------------------------------------------------------------------ *)
(** *** Member functions *)

Definition ReleaseModelObjects : M unit :=
  e <- this ;;
  (if negb (SUIsInvalid (texture_writer_ e)) then
     call SUTextureWriterRelease ;;
     update (set_texture_writer_ None)
   else ret tt) ;;
  e <- this ;;
  (if negb (SUIsInvalid (model_ e)) then
     call SUModelRelease ;;
     update (set_model_ None)
   else ret tt) ;;
  (* Terminate the SDK *)
  call SUTerminate.

Definition WriteTextureFiles : M unit :=
  e <- this ;;
  if export_materials (options_ e) then
    (* Load the textures into the texture writer *)
    call (LoadAllTextures (export_materials_by_layer (options_ e))) ;;
    let texture_count :=
      match model_ e with
      | Some m => LoadAllTextures_ m (export_materials_by_layer (options_ e))
      | None => 0
      end in
    update (on_stats_ (set_textures texture_count)) ;;
    (* Write out all the textures to the export folder *)
    if 0 <? texture_count then
      let texture_directory := file_GetTextureDirectory_ host in
      call (SUTextureWriterWriteAllTextures texture_directory) ;;
      lift (SU_CALL
              (match texture_writer_ e with
               | Some w => SUTextureWriterWriteAllTextures_ w texture_directory
               | None => SU_ERROR_INVALID_INPUT
               end, tt))
    else ret tt
  else ret tt.

Definition WriteLayer (layer : SULayerRef) : M unit :=
  if SUIsInvalid layer then ret tt
  else
    (* Name *)
    name <- lift (GetLayerName layer) ;;
    (* Color *)
    material_info <-
      match SULayerGetMaterial layer None with
      | (SU_ERROR_NONE, material) =>
          info <- lift (GetMaterialInfo material) ;;
          ret (true, info)
      | _ => ret (false, default_XmlMaterialInfo)
      end ;;
    (* Visibility *)
    is_visible <- lift (SU_CALL (SULayerGetVisibility layer true)) ;;
    update (on_stats_ AddLayer) ;;
    call (WriteLayerInfo
            (mkXmlLayerInfo name (fst material_info) (snd material_info)
               is_visible)).

Definition WriteLayers : M unit :=
  e <- this ;;
  if export_layers (options_ e) then
    call StartLayers ;;
    (* Get the number of layers *)
    num_layers <- lift (SU_CALL (get_num (model_ e) model_layers 0)) ;;
    (if 0 <? num_layers then
       (* Get the layers *)
       num_layers <- lift (SU_CALL (get_items (model_ e) model_layers
                                      num_layers num_layers)) ;;
       (* Write out each layer *)
       for_upto WriteLayer num_layers (items_of (model_ e) model_layers)
     else ret tt) ;;
    call PopParentNode
  else ret tt.

Definition WriteMaterial (material : SUMaterialRef) : M unit :=
  if SUIsInvalid material then ret tt
  else
    info <- lift (GetMaterialInfo material) ;;
    call (WriteMaterialInfo info).

Definition WriteMaterials : M unit :=
  e <- this ;;
  if export_materials (options_ e) then
    if export_materials_by_layer (options_ e) then
      num_layers <- lift (SU_CALL (get_num (model_ e) model_layers 0)) ;;
      if 0 <? num_layers then
        num_layers <- lift (SU_CALL (get_items (model_ e) model_layers
                                       num_layers num_layers)) ;;
        call StartMaterials ;;
        for_upto
          (fun layer =>
             match SULayerGetMaterial layer None with
             | (SU_ERROR_NONE, material) => WriteMaterial material
             | _ => ret tt
             end)
          num_layers (items_of (model_ e) model_layers) ;;
        call PopParentNode
      else ret tt
    else
      count <- lift (SU_CALL (get_num (model_ e) model_materials 0)) ;;
      if 0 <? count then
        call StartMaterials ;;
        count <- lift (SU_CALL (get_items (model_ e) model_materials
                                  count count)) ;;
        for_upto WriteMaterial count (items_of (model_ e) model_materials) ;;
        call PopParentNode
      else ret tt
  else ret tt.

Definition WriteFace (face : SUFaceRef) : M unit :=
  if SUIsInvalid face then ret tt
  else
    (* outer loop *)
    outer_loop <- lift (SU_CALL (SUFaceGetOuterLoop face None)) ;;
    info <- lift (loop_face_info outer_loop) ;;
    update (on_stats_ AddFace) ;;
    call (WriteFaceInfo info) ;;
    (* Inner loop *)
    num_loops <- lift (SU_CALL (get_num face face_inner_loops 0)) ;;
    if 0 <? num_loops then
      num_loops <- lift (SU_CALL (get_items face face_inner_loops
                                    num_loops num_loops)) ;;
      for_upto
        (fun inner_loop =>
           info <- lift (loop_face_info inner_loop) ;;
           update (on_stats_ AddFace) ;;
           call (WriteFaceInfo info))
        num_loops (items_of face face_inner_loops)
    else ret tt.

(** [WriteEntities], first block: component instances. *)
Definition WriteEntities_instances (entities : SUEntitiesRef) : M unit :=
  num_instances <- lift (SU_CALL (get_num entities ents_instances 0)) ;;
  if 0 <? num_instances then
    num_instances <- lift (SU_CALL (get_items entities ents_instances
                                      num_instances num_instances)) ;;
    for_upto
      (fun instance =>
         definition <- lift (SU_CALL (SUComponentInstanceGetDefinition
                                        instance None)) ;;
         (* Layer *)
         let layer :=
           snd (SUDrawingElementGetLayer
                  (@SUComponentInstanceToDrawingElement_ Entities)
                  instance None) in
         layer_name <- (if negb (SUIsInvalid layer)
                        then lift (GetLayerName layer)
                        else ret EmptyString) ;;
         (* Material *)
         let material :=
           snd (SUDrawingElementGetMaterial
                  (@SUComponentInstanceToDrawingElement_ Entities)
                  instance None) in
         material_name <- (if negb (SUIsInvalid material)
                           then lift (GetMaterialName material)
                           else ret EmptyString) ;;
         definition_name <- lift (GetComponentDefinitionName definition) ;;
         transform <- lift (SU_CALL (SUComponentInstanceGetTransform
                                       instance [])) ;;
         call (WriteComponentInstanceInfo
                 (mkXmlComponentInstanceInfo layer_name material_name
                    definition_name transform)))
      num_instances (items_of entities ents_instances)
  else ret tt.

(** [WriteEntities], third block: faces.  (The fourth and fifth blocks, edges
    and curves, are commented out in the source.) *)
Definition WriteEntities_faces (entities : SUEntitiesRef) : M unit :=
  e <- this ;;
  if export_faces (options_ e) then
    num_faces <- lift (SU_CALL (get_num entities ents_faces 0)) ;;
    if 0 <? num_faces then
      num_faces <- lift (SU_CALL (get_items entities ents_faces
                                    num_faces num_faces)) ;;
      for_upto
        (fun face =>
           update (on_inheritance_manager_ (PushElement (FaceElement face))) ;;
           WriteFace face ;;
           update (on_inheritance_manager_ PopElement))
        num_faces (items_of entities ents_faces)
    else ret tt
  else ret tt.

(** [WriteEntities], second block: groups, with the recursive call left
    open. *)
Definition WriteEntities_groups (WriteEntities : SUEntitiesRef -> M unit)
  (entities : SUEntitiesRef) : M unit :=
  num_groups <- lift (SU_CALL (get_num entities ents_groups 0)) ;;
  if 0 <? num_groups then
    num_groups <- lift (SU_CALL (get_items entities ents_groups
                                   num_groups num_groups)) ;;
    for_upto
      (fun group =>
         group_entities <- lift (SU_CALL (SUGroupGetEntities group None)) ;;
         update (on_inheritance_manager_ (PushElement (GroupElement group))) ;;
         call StartGroup ;;
         (* Write entities *)
         WriteEntities group_entities ;;
         (* Write transformation *)
         transform <- lift (SU_CALL (SUGroupGetTransform group [])) ;;
         call (WriteTransformation transform) ;;
         call PopParentNode ;;
         update (on_inheritance_manager_ PopElement))
      num_groups (items_of entities ents_groups)
  else ret tt.

(** The body of [WriteEntities] as the source has it. *)
Definition WriteEntities_body (WriteEntities : SUEntitiesRef -> M unit)
  (entities : SUEntitiesRef) : M unit :=
  (* Component instances *)
  WriteEntities_instances entities ;;
  (* Groups *)
  WriteEntities_groups WriteEntities entities ;;
  (* Faces *)
  WriteEntities_faces entities.

(** [WriteEntities] on a valid reference, by structural recursion on the
    entities behind it.  For the recursion to be visibly structural the call
    [SU_CALL(SUGroupGetEntities(group, &group_entities))] is written out:
    it throws unless the group is valid and the query succeeds, and then
    [group_entities] is the query's value.  [WriteEntities_unfold] below
    shows that this is [WriteEntities_body]. *)
Fixpoint WriteEntities_valid (ents : Entities) : M unit :=
  let entities : SUEntitiesRef := Some ents in
  (* Component instances *)
  WriteEntities_instances entities ;;
  (* Groups *)
  (num_groups <- lift (SU_CALL (get_num entities ents_groups 0)) ;;
   if 0 <? num_groups then
     num_groups <- lift (SU_CALL (get_items entities ents_groups
                                    num_groups num_groups)) ;;
     for_upto
       (fun group : SUGroupRef =>
          match group with
          | Some g =>
              if is_SU_ERROR_NONE (q_status (SUGroupGetEntities_ g)) then
                update (on_inheritance_manager_
                          (PushElement (GroupElement group))) ;;
                call StartGroup ;;
                (* Write entities *)
                match q_value (SUGroupGetEntities_ g) with
                | Some group_ents => WriteEntities_valid group_ents
                | None => lift Thrown
                end ;;
                (* Write transformation *)
                transform <- lift (SU_CALL (SUGroupGetTransform group [])) ;;
                call (WriteTransformation transform) ;;
                call PopParentNode ;;
                update (on_inheritance_manager_ PopElement)
              else lift Thrown
          | None => lift Thrown
          end)
       num_groups (arr_items (ents_groups ents))
   else ret tt) ;;
  (* Faces *)
  WriteEntities_faces entities.

(** [WriteEntities]: on [SU_INVALID] the first [SU_CALL] throws. *)
Definition WriteEntities (entities : SUEntitiesRef) : M unit :=
  match entities with
  | Some ents => WriteEntities_valid ents
  | None => lift Thrown
  end.

Definition WriteGeometry : M unit :=
  e <- this ;;
  if export_faces (options_ e) || export_edges (options_ e) then
    (* Write entities *)
    model_entities <- lift (SU_CALL (SUModelGetEntities (model_ e) None)) ;;
    call StartGeometry ;;
    WriteEntities model_entities ;;
    call PopParentNode
  else ret tt.



(** [GetEdgeInfo] is a const member function: it reads the object and may
    throw. *)
Definition GetEdgeInfo (e : CXmlExporter) (edge : SUEdgeRef)
  : Outcome XmlEdgeInfo :=
  (layer_name <-
     (if export_layers (options_ e) then
        let layer := GetCurrentLayer (inheritance_manager_ e) in
        if negb (SUIsInvalid layer) then
          layer <- SU_CALL (SUDrawingElementGetLayer SUEdgeToDrawingElement_
                              edge layer) ;;
          GetLayerName layer
        else Returned EmptyString
      else Returned EmptyString) ;;
   let has_layer := export_layers (options_ e) in
   (* Edge color *)
   let has_color := export_materials (options_ e) in
   let color :=
     if export_materials (options_ e)
     then GetCurrentEdgeColor (inheritance_manager_ e)
     else default_SUColor in
   start_vertex <- SU_CALL (SUEdgeGetStartVertex edge None) ;;
   p <- SU_CALL (SUVertexGetPosition start_vertex (mkSUPoint3D 0 0 0)) ;;
   let start := CPoint3d_of p in
   end_vertex <- SU_CALL (SUEdgeGetEndVertex edge None) ;;
   p <- SU_CALL (SUVertexGetPosition end_vertex p) ;;
   let end_ := CPoint3d_of p in
   Returned (mkXmlEdgeInfo has_layer layer_name has_color color start end_)
  )%outcome.

(** Defined by the source but never called: the edge pass of
    [WriteEntities] is commented out. *)
Definition WriteEdge (edge : SUEdgeRef) : M unit :=
  if SUIsInvalid edge then ret tt
  else
    e <- this ;;
    info <- lift (GetEdgeInfo e edge) ;;
    call (WriteEdgeInfo info) ;;
    update (on_stats_ AddEdge).

(** Defined by the source but never called: the curve pass of
    [WriteEntities] is commented out. *)
Definition WriteCurve (curve : SUCurveRef) : M unit :=
  if SUIsInvalid curve then ret tt
  else
    e <- this ;;
    num_edges <- lift (SU_CALL (get_num curve curve_edges 0)) ;;
    num_edges <- lift (SU_CALL (get_items curve curve_edges
                                  num_edges num_edges)) ;;
    edges <- lift (ofold_upto
                     (fun edges edge =>
                        obind (GetEdgeInfo e edge)
                          (fun edge_info => Returned (edges ++ [edge_info])))
                     num_edges (items_of curve curve_edges) []) ;;
    call (WriteCurveInfo (mkXmlCurveInfo edges)).

(** The [try] block of [Convert]. *)
Definition Convert_try (src_file dst_file : string)
  (progress_callback : option SketchUpPluginProgressCallback) : M Flow :=
  let exported := false in
  (* Initialize the SDK *)
  call SUInitialize ;;
  (* Create the model from the src_file *)
  update (set_model_ None) ;;
  call (SUModelCreateFromFile src_file) ;;
  e <- this ;;
  model <- lift (SU_CALL (answer (SUModelCreateFromFile_ host src_file)
                            (model_ e))) ;;
  update (set_model_ model) ;;
  (* Create a texture writer *)
  update (set_texture_writer_ None) ;;
  call SUTextureWriterCreate ;;
  e <- this ;;
  writer <- lift (SU_CALL (answer (SUTextureWriterCreate_ host)
                             (texture_writer_ e))) ;;
  update (set_texture_writer_ writer) ;;
  (* Open the xml file for creation *)
  call (Open dst_file) ;;
  if negb (file_Open_ host dst_file) then
    ReleaseModelObjects ;;
    ret (ReturnStatement exported)
  else
    (* Write textures *)
    HandleProgress progress_callback 0 "Writing Texture Files..." ;;
    WriteTextureFiles ;;
    (* Write file header *)
    e <- this ;;
    ver <- lift (SU_CALL (SUModelGetVersion (model_ e) (0, 0, 0)%Z)) ;;
    let '(major_ver, minor_ver, build_no) := ver in
    call (WriteHeader major_ver minor_ver build_no) ;;
    (* Layers *)
    HandleProgress progress_callback 10 "Writing Layers..." ;;
    WriteLayers ;;
    (* Materials *)
    HandleProgress progress_callback 20 "Writing Materials..." ;;
    WriteMaterials ;;
    (* Geometry *)
    HandleProgress progress_callback 60 "Writing Geometry..." ;;
    WriteGeometry ;;
    cancelled <- IsCancelled progress_callback ;;
    call (Close cancelled) ;;
    HandleProgress progress_callback 100 "Export Complete" ;;
    ret (EndOfTry true).

(** The [catch(...)] block of [Convert]. *)
Definition Convert_catch : M Flow :=
  call (Close true) ;;
  ret (EndOfTry false).

Definition Convert (src_file dst_file : string)
  (progress_callback : option SketchUpPluginProgressCallback) : M bool :=
  flow <- try_catch (Convert_try src_file dst_file progress_callback)
            Convert_catch ;;
  match flow with
  | ReturnStatement exported => ret exported
  | EndOfTry exported =>
      ReleaseModelObjects ;;
      ret exported
  end.

End Exporter.

(** Member functions are unfolded by name in proofs, never by [simpl]. *)
Arguments ReleaseModelObjects : simpl never.
Arguments HandleProgress : simpl never.
Arguments IsCancelled : simpl never.
Arguments WriteTextureFiles : simpl never.
Arguments WriteLayer : simpl never.
Arguments WriteLayers : simpl never.
Arguments WriteMaterial : simpl never.
Arguments WriteMaterials : simpl never.
Arguments WriteFace : simpl never.
Arguments WriteEntities_instances : simpl never.
Arguments WriteEntities_groups : simpl never.
Arguments WriteEntities_faces : simpl never.
Arguments WriteEntities_valid : simpl never.
Arguments WriteEntities : simpl never.
Arguments WriteGeometry : simpl never.
Arguments GetMaterialInfo : simpl never.
Arguments loop_face_info : simpl never.
Arguments Convert_try : simpl never.
Arguments bind : simpl never.

Declare Scope exporter_scope.
Delimit Scope exporter_scope with exporter.
Notation "x <- m ;; k" := (bind m (fun x => k))
  (at level 61, m at next level, right associativity) : exporter_scope.
Notation "m ;; k" := (bind m (fun _ => k))
  (at level 61, right associativity) : exporter_scope.

(* ================================================================== *)
(** ** A scope stack as inheritance manager *)
(* ================================================================== *)

(** Modelled from the spec: the inheritance manager, whose implementation
    (xmlinheritancemanager.cpp) is not part of the sample: "a simple push/pop
    of current-layer and current-color context as the traversal descends into
    and returns from each group, used only to default an edge's or face's
    displayed layer/color when the element itself does not override it".
    A context is the current layer and the current edge color; an element
    overrides the layer when the SDK reports a valid layer for it, and the
    color when it reports a material that has a color. *)
Definition Context : Type := (SULayerRef * SUColor)%type.
Definition ScopeStack : Type := list Context.

Definition current_context (stack : ScopeStack) : Context :=
  match stack with
  | ctx :: _ => ctx
  | [] => (None, default_SUColor)
  end.

Definition drawing_element_of (e : Element) : option DrawingElement :=
  match e with
  | ComponentInstanceElement r =>
      option_map (@SUComponentInstanceToDrawingElement_ Entities) r
  | GroupElement r => option_map (@SUGroupToDrawingElement_ Entities) r
  | FaceElement r => option_map SUFaceToDrawingElement_ r
  | EdgeElement r => option_map SUEdgeToDrawingElement_ r
  end.

(** The layer an element has of its own, if any. *)
Definition own_layer (de : option DrawingElement) : SULayerRef :=
  snd (on_ref de SUDrawingElementGetLayer_ None).

(** The color an element has of its own, if any. *)
Definition own_color (de : option DrawingElement) : option SUColor :=
  match on_ref (snd (on_ref de SUDrawingElementGetMaterial_ None))
          SUMaterialGetColor_ default_SUColor with
  | (SU_ERROR_NONE, color) => Some color
  | _ => None
  end.

Definition inherit (e : Element) (ctx : Context) : Context :=
  let de := drawing_element_of e in
  (match own_layer de with
   | Some layer => Some layer
   | None => fst ctx
   end,
   match own_color de with
   | Some color => color
   | None => snd ctx
   end).

#[export] Instance ScopeStack_manager : CInheritanceManager ScopeStack := {
  PushElement e stack := inherit e (current_context stack) :: stack;
  PopElement stack := tl stack;
  GetCurrentLayer stack := fst (current_context stack);
  GetCurrentEdgeColor stack := snd (current_context stack)
}.

(* ================================================================== *)
(** ** Sample objects *)
(* ================================================================== *)

Definition ok {A} (v : A) : Query A := mkQuery SU_ERROR_NONE v.
Definition failing {A} (status : SUResult) (v : A) : Query A := mkQuery status v.
Definition holding {A} (xs : list A) : SUArray A :=
  mkSUArray SU_ERROR_NONE SU_ERROR_NONE xs.

Definition no_layer_no_material : DrawingElement :=
  mkDrawingElement (failing SU_ERROR_NO_DATA None) (failing SU_ERROR_NO_DATA None).

Definition vertex_at (px py pz : float) : SUVertexRef :=
  Some (mkVertex (ok (mkSUPoint3D px py pz))).

Definition sample_outer_loop : SULoopRef :=
  Some (mkLoop (holding [vertex_at 0 0 0; vertex_at 4 0 0; vertex_at 0 4 0])).
Definition sample_inner_loop : SULoopRef :=
  Some (mkLoop (holding [vertex_at 1 1 0; vertex_at 2 1 0; vertex_at 1 2 0])).

(** A triangle with a triangular hole. *)
Definition sample_face : Face :=
  mkFace no_layer_no_material (ok sample_outer_loop) (holding [sample_inner_loop]).

Definition sample_edge : Edge :=
  mkEdge no_layer_no_material (ok (vertex_at 0 0 0)) (ok (vertex_at 4 0 0)).

Definition no_edges (standAloneOnly : bool) : SUArray SUEdgeRef := holding [].

Definition identity_transform : SUTransformation :=
  [1; 0; 0; 0; 0; 1; 0; 0; 0; 0; 1; 0; 0; 0; 0; 1]%float.

(** Entities with one face inside a group, and one face and one edge at top
    level. *)
Definition sample_inner_entities : Entities :=
  mkEntities (holding []) (holding []) (holding [Some sample_face]) no_edges
    (holding []).
Definition sample_group : Group Entities :=
  mkGroup no_layer_no_material (ok (Some sample_inner_entities))
    (ok identity_transform).
Definition sample_entities : Entities :=
  mkEntities (holding []) (holding [Some sample_group])
    (holding [Some sample_face])
    (fun _ => holding [Some sample_edge]) (holding []).

(** A layer without a material: [SULayerGetMaterial] answers
    [SU_ERROR_NO_DATA]. *)
Definition sample_layer : Layer :=
  mkLayer (ok "Layer0"%string) (failing SU_ERROR_NO_DATA None) (ok true).

Definition sample_model : Model :=
  mkModel (ok (13, 0, 4812)%Z) (holding [Some sample_layer]) (holding [])
    (holding []) (ok (Some sample_entities)) (fun _ => 0).

Definition sample_writer : TextureWriter :=
  mkTextureWriter (fun _ => SU_ERROR_NONE).

(** A host on which everything works, ignoring the paths. *)
Definition sample_host : Host :=
  mkHost (fun _ => ok (Some sample_model)) (ok (Some sample_writer))
    (fun _ => true) "out_textures"%string.

(** A host whose source file cannot be read. *)
Definition unreadable_host : Host :=
  mkHost (fun _ => failing SU_ERROR_SERIALIZATION None) (ok (Some sample_writer))
    (fun _ => true) "out_textures"%string.

Definition all_options : CXmlOptions := mkCXmlOptions true true true true false.

(** A freshly constructed exporter ([CXmlExporter::CXmlExporter] sets both
    references invalid), with the scope stack as inheritance manager. *)
Definition fresh_exporter (options : CXmlOptions) : @CXmlExporter ScopeStack :=
  mkCXmlExporter options None None (mkCXmlStats 0 0 0 0) [].
Definition fresh (options : CXmlOptions) : @State ScopeStack :=
  mkState (fresh_exporter options) 0.

(** An edge on a layer of its own, painted red. *)
Definition walls_layer : Layer :=
  mkLayer (ok "Walls"%string) (failing SU_ERROR_NO_DATA None) (ok true).
Definition pure_red : SUColor := mkSUColor 255 0 0 255.
Definition red_paint : Material :=
  mkMaterial (ok "Red"%string) (ok SUMaterialType_Colored) (ok pure_red) (ok false)
    (ok 1%float) (failing SU_ERROR_NO_DATA None).
Definition red_edge_on_walls : Edge :=
  mkEdge (mkDrawingElement (ok (Some walls_layer)) (ok (Some red_paint)))
    (ok (vertex_at 0 0 0)) (ok (vertex_at 4 0 0)).

(** What [GetEdgeInfo] records for that edge in a fresh exporter, whose
    scope stack is empty. *)
Definition red_edge_info : XmlEdgeInfo :=
  mkXmlEdgeInfo true EmptyString true default_SUColor
    (mkCPoint3d 0 0 0) (mkCPoint3d 4 0 0).

(** A component instance without layer or material, of a definition named
    Chair. *)
Definition chair_definition : ComponentDefinition Entities :=
  mkComponentDefinition (ok "Chair"%string) (failing SU_ERROR_NO_DATA None).
Definition chair_instance : ComponentInstance Entities :=
  mkComponentInstance no_layer_no_material (ok (Some chair_definition))
    (ok identity_transform).

(** A callback that is never cancelled. *)
Definition patient_callback : SketchUpPluginProgressCallback :=
  mkCallback (fun _ => false).

(** The sample model exported with every option on. *)
Definition sample_run : Outcome bool * @State ScopeStack * list Call :=
  Convert CancelThrows sample_host "a.skp" "a.xml" (Some patient_callback)
    (fresh all_options).

(** The sample entities written by a fresh exporter. *)
Definition sample_traversal : Outcome unit * @State ScopeStack * list Call :=
  WriteEntities (Some sample_entities) (fresh all_options).

(** A brick texture, and a colorized, half-transparent material that uses
    it. *)
Definition brick_texture : Texture :=
  mkTexture (ok "brick.png"%string) (ok (64, 32, 0.5%float, 0.25%float)).
Definition brick : Material :=
  mkMaterial (ok "Brick"%string) (ok SUMaterialType_ColorizedTexture) (ok pure_red)
    (ok true) (ok 0.5%float) (ok (Some brick_texture)).
Definition brick_info : XmlMaterialInfo :=
  mkXmlMaterialInfo (utf8 "Brick") true pure_red true 0.5 true (utf8 "brick.png")
    0.5 0.25.
Definition red_paint_info : XmlMaterialInfo :=
  mkXmlMaterialInfo (utf8 "Red") true pure_red false 0 false EmptyString 0 0.

(** Layers with a material: two painted red, one in brick. *)
Definition red_layer : Layer :=
  mkLayer (ok "Red walls"%string) (ok (Some red_paint)) (ok true).
Definition hidden_red_layer : Layer :=
  mkLayer (ok "Red roof"%string) (ok (Some red_paint)) (ok false).
Definition brick_layer : Layer :=
  mkLayer (ok "Chimney"%string) (ok (Some brick)) (ok true).

(** A face whose second inner loop holds a vertex the SDK cannot read. *)
Definition broken_loop : SULoopRef :=
  Some (mkLoop (holding [vertex_at 1 1 0;
                         Some (mkVertex (failing SU_ERROR_GENERIC (mkSUPoint3D 0 0 0)))])).
Definition torn_face : Face :=
  mkFace no_layer_no_material (ok sample_outer_loop)
    (holding [sample_inner_loop; broken_loop; sample_inner_loop]).

(** A curve of two edges. *)
Definition sample_edge_info : XmlEdgeInfo :=
  mkXmlEdgeInfo true EmptyString true default_SUColor
    (mkCPoint3d 0 0 0) (mkCPoint3d 4 0 0).
Definition sample_curve : Curve :=
  mkCurve (holding [Some sample_edge; Some red_edge_on_walls]).

(** A component definition with entities of its own, and entities that hold
    an instance of the chair, the sample group, the sample face and an
    invalid face reference. *)
Definition table_definition : ComponentDefinition Entities :=
  mkComponentDefinition (ok "Table"%string) (ok (Some sample_inner_entities)).
Definition furnished_entities : Entities :=
  mkEntities (holding [Some chair_instance]) (holding [Some sample_group])
    (holding [Some sample_face; None]) no_edges (holding []).
Definition chair_info : XmlComponentInstanceInfo :=
  mkXmlComponentInstanceInfo EmptyString EmptyString (utf8 "Chair")
    identity_transform.

(** A model with layers, one of them an invalid reference, with materials,
    a component definition and one texture. *)
Definition painted_model : Model :=
  mkModel (ok (13, 0, 4812)%Z)
    (holding [Some walls_layer; None; Some red_layer; Some hidden_red_layer;
              Some brick_layer])
    (holding [Some red_paint; None; Some brick])
    (holding [Some table_definition])
    (ok (Some furnished_entities)) (fun _ => 1).

Definition by_layer_options : CXmlOptions := mkCXmlOptions true true true true true.

(** An exporter in the middle of a run: it holds the painted model and a
    texture writer. *)
Definition painted (options : CXmlOptions) : @State ScopeStack :=
  mkState (mkCXmlExporter options (Some painted_model) (Some sample_writer)
             (mkCXmlStats 0 0 0 0) []) 0.

(** A host whose destination cannot be written. *)
Definition read_only_host : Host :=
  mkHost (fun _ => ok (Some sample_model)) (ok (Some sample_writer))
    (fun _ => false) "out_textures"%string.

(** Runs on the sample objects. *)
Definition painted_layers_run : Outcome unit * @State ScopeStack * list Call :=
  WriteLayers (painted all_options).
Definition painted_materials_run : Outcome unit * @State ScopeStack * list Call :=
  WriteMaterials (painted by_layer_options).
Definition painted_textures_run : Outcome unit * @State ScopeStack * list Call :=
  WriteTextureFiles sample_host (painted all_options).
Definition furnished_traversal : Outcome unit * @State ScopeStack * list Call :=
  WriteEntities (Some furnished_entities) (fresh all_options).
Definition torn_face_run : Outcome unit * @State ScopeStack * list Call :=
  WriteFace (Some torn_face) (fresh all_options).
Definition painted_geometry_run : Outcome unit * @State ScopeStack * list Call :=
  WriteGeometry (painted all_options).

(* ================================================================== *)
(** ** Vocabulary of the properties *)
(* ================================================================== *)

(** From a state in [I], [m] ends in a state in [I] and only makes calls in
    [P], whether it returns or throws. *)
Definition keeps {IM A} (I : @State IM -> Prop) (P : Call -> Prop) (m : M A)
  : Prop :=
  forall s r s' cs, I s -> m s = (r, s', cs) -> I s' /\ Forall P cs.

(** What [ReleaseModelObjects] does to an exporter: the calls it makes, and
    the exporter it leaves. *)
Definition release_calls {IM} (e : @CXmlExporter IM) : list Call :=
  (if SUIsInvalid (texture_writer_ e) then [] else [SUTextureWriterRelease]) ++
  (if SUIsInvalid (model_ e) then [] else [SUModelRelease]) ++
  [SUTerminate].

Definition released {IM} (s : @State IM) : State :=
  mkState (set_model_ None (set_texture_writer_ None (self s))) (polls s).

(** How many times the SDK session is terminated. *)
Definition terminations (cs : list Call) : nat :=
  List.length
    (filter (fun c => match c with SUTerminate => true | _ => false end) cs).

(** The calls that give resources back to the SDK. *)
Definition is_release (c : Call) : bool :=
  match c with
  | SUTerminate | SUModelRelease | SUTextureWriterRelease => true
  | _ => false
  end.

(** The members that the writing phases never assign, and the number of
    reads of the cancellation flag: [frame o m w k] holds of the states in
    which they have the given values. *)
Definition frame {IM} (o : CXmlOptions) (m : SUModelRef) (w : SUTextureWriterRef)
  (k : nat) (s : @State IM) : Prop :=
  options_ (self s) = o /\ model_ (self s) = m /\
  texture_writer_ (self s) = w /\ polls s = k.

(** Calls sorted by the phase that makes them. *)
Definition only (f : Call -> bool) : Call -> Prop := fun c => f c = true.

Definition is_texture_call (c : Call) : bool :=
  match c with
  | LoadAllTextures _ | SUTextureWriterWriteAllTextures _ => true
  | _ => false
  end.

Definition is_WriteLayerInfo (c : Call) : bool :=
  match c with WriteLayerInfo _ => true | _ => false end.

Definition is_WriteMaterialInfo (c : Call) : bool :=
  match c with WriteMaterialInfo _ => true | _ => false end.

Definition is_WriteFaceInfo (c : Call) : bool :=
  match c with WriteFaceInfo _ => true | _ => false end.

Definition is_WriteComponentInstanceInfo (c : Call) : bool :=
  match c with WriteComponentInstanceInfo _ => true | _ => false end.

Definition is_layers_call (c : Call) : bool :=
  match c with
  | StartLayers | WriteLayerInfo _ | PopParentNode => true
  | _ => false
  end.

Definition is_materials_call (c : Call) : bool :=
  match c with
  | StartMaterials | WriteMaterialInfo _ | PopParentNode => true
  | _ => false
  end.

(** The calls [WriteEntities] can make; face records only when [faces]. *)
Definition is_entities_call (faces : bool) (c : Call) : bool :=
  match c with
  | WriteComponentInstanceInfo _ | StartGroup | WriteTransformation _
  | PopParentNode => true
  | WriteFaceInfo _ => faces
  | _ => false
  end.

Definition is_geometry_call (faces : bool) (c : Call) : bool :=
  match c with
  | StartGeometry => true
  | _ => is_entities_call faces c
  end.

Definition is_callback_call (c : Call) : bool :=
  match c with
  | HasBeenCancelled _ | SetPercentDone _ | SetProgressMessage _ => true
  | _ => false
  end.

(** The calls of the writing phases: what goes to the XML file between
    [Open] and [Close], and to the texture writer. *)
Definition is_writing_call (c : Call) : bool :=
  match c with
  | LoadAllTextures _ | SUTextureWriterWriteAllTextures _
  | WriteHeader _ _ _
  | StartLayers | StartMaterials | StartGeometry | StartGroup | PopParentNode
  | WriteLayerInfo _ | WriteMaterialInfo _ | WriteComponentInstanceInfo _
  | WriteTransformation _ | WriteFaceInfo _ => true
  | _ => false
  end.

(** What one [HandleProgress] call may send to the callback when the flag
    has been read [k] times before: nothing without a callback; else the
    read of the flag, followed or not by the report. *)
Definition progress_calls (cb : option SketchUpPluginProgressCallback)
  (k : nat) (percent : float) (message : string) (cs : list Call) : Prop :=
  match cb with
  | None => cs = []
  | Some c =>
      cs = [HasBeenCancelled (cancel_flag c k)] \/
      cs = [HasBeenCancelled (cancel_flag c k); SetPercentDone percent;
            SetProgressMessage message]
  end.

(** The number of reads of the flag after [n] more calls on the callback. *)
Definition polled (cb : option SketchUpPluginProgressCallback) (k n : nat) : nat :=
  match cb with
  | None => k
  | Some _ => n + k
  end.

(** The entities a group reference holds, as far as [WriteEntities] can
    reach them. *)
Definition entities_of_group (group : SUGroupRef) : SUEntitiesRef :=
  match group with
  | Some g => q_value (SUGroupGetEntities_ g)
  | None => None
  end.

(** How deep groups nest below some entities. *)
Fixpoint nesting (ents : Entities) : nat :=
  S (fold_right Nat.max 0
       (map (fun group : SUGroupRef =>
               match group with
               | Some g =>
                   match q_value (SUGroupGetEntities_ g) with
                   | Some group_ents => nesting group_ents
                   | None => 0
                   end
               | None => 0
               end)
          (arr_items (ents_groups ents)))).

(** The parts of a run of [Convert] that reaches the end of its [try]
    block: the objects created, the calls made by each phase, and the state
    each writing phase started from. *)
Record Export (IM : Type) : Type := mkExport {
  ex_model : SUModelRef;
  ex_writer : SUTextureWriterRef;
  ex_version : Z * Z * Z;
  ex_cancelled : bool;
  ex_progress_0 : list Call;
  ex_textures : list Call;
  ex_progress_10 : list Call;
  ex_layers : list Call;
  ex_progress_20 : list Call;
  ex_materials : list Call;
  ex_progress_60 : list Call;
  ex_geometry : list Call;
  ex_is_cancelled : list Call;
  ex_progress_100 : list Call;
  at_textures : @State IM;
  at_layers : @State IM;
  at_materials : @State IM;
  at_geometry : @State IM;
  at_close : @State IM
}.

Definition header_call (version : Z * Z * Z) : Call :=
  let '(major_ver, minor_ver, build_no) := version in
  WriteHeader major_ver minor_ver build_no.

(** The calls of such a run, in order. *)
Definition export_calls {IM} (src_file dst_file : string) (x : Export IM)
  : list Call :=
  [SUInitialize; SUModelCreateFromFile src_file; SUTextureWriterCreate;
   Open dst_file] ++
  ex_progress_0 x ++ ex_textures x ++ [header_call (ex_version x)] ++
  ex_progress_10 x ++ ex_layers x ++
  ex_progress_20 x ++ ex_materials x ++
  ex_progress_60 x ++ ex_geometry x ++
  ex_is_cancelled x ++ [Close (ex_cancelled x)] ++
  ex_progress_100 x.

(** What ties the parts to the host, the callback and the exporter's member
    functions, for a run started in [s]. *)
Definition exports {IM} `{CInheritanceManager IM} (host : Host)
  (src_file dst_file : string)
  (cb : option SketchUpPluginProgressCallback) (s : @State IM) (x : Export IM)
  : Prop :=
  let o := options_ (self s) in
  let k := polls s in
  let in_phase := frame o (ex_model x) (ex_writer x) in
  SUModelCreateFromFile_ host src_file = mkQuery SU_ERROR_NONE (ex_model x) /\
  SUTextureWriterCreate_ host = mkQuery SU_ERROR_NONE (ex_writer x) /\
  file_Open_ host dst_file = true /\
  SUModelGetVersion (ex_model x) (0, 0, 0)%Z = (SU_ERROR_NONE, ex_version x) /\
  progress_calls cb (polled cb k 0) 0 "Writing Texture Files..." (ex_progress_0 x) /\
  progress_calls cb (polled cb k 1) 10 "Writing Layers..." (ex_progress_10 x) /\
  progress_calls cb (polled cb k 2) 20 "Writing Materials..." (ex_progress_20 x) /\
  progress_calls cb (polled cb k 3) 60 "Writing Geometry..." (ex_progress_60 x) /\
  progress_calls cb (polled cb k 5) 100 "Export Complete" (ex_progress_100 x) /\
  match cb with
  | None => ex_is_cancelled x = [] /\ ex_cancelled x = false
  | Some c =>
      ex_is_cancelled x = [HasBeenCancelled (ex_cancelled x)] /\
      ex_cancelled x = cancel_flag c (4 + k)
  end /\
  in_phase (polled cb k 1) (at_textures x) /\
  in_phase (polled cb k 2) (at_layers x) /\
  in_phase (polled cb k 3) (at_materials x) /\
  in_phase (polled cb k 4) (at_geometry x) /\
  in_phase (polled cb k 4) (at_close x) /\
  (exists s', WriteTextureFiles host (at_textures x)
              = (Returned tt, s', ex_textures x)) /\
  (exists s', WriteLayers (at_layers x) = (Returned tt, s', ex_layers x)) /\
  (exists s', WriteMaterials (at_materials x)
              = (Returned tt, s', ex_materials x)) /\
  WriteGeometry (at_geometry x) = (Returned tt, at_close x, ex_geometry x).

(** The members the writing phases never assign have the given values. *)
Definition in_export {IM} (o : CXmlOptions) (m : SUModelRef)
  (w : SUTextureWriterRef) (s : @State IM) : Prop :=
  options_ (self s) = o /\ model_ (self s) = m /\ texture_writer_ (self s) = w.

(** The calls made inside the [try] block once the file is open. *)
Definition is_export_call (c : Call) : bool :=
  match c with
  | Close _ => true
  | _ => is_writing_call c || is_callback_call c
  end.

(** The SDK answers every question [WriteFace] asks about a vertex, an
    array, a loop, a face. *)
Definition vertex_ok (vertex : SUVertexRef) : bool :=
  match vertex with
  | Some v => is_SU_ERROR_NONE (q_status (SUVertexGetPosition_ v))
  | None => false
  end.

(** [...GetXs] is only called on an array that is not empty. *)
Definition array_ok {A} (arr : SUArray A) : bool :=
  is_SU_ERROR_NONE (arr_num_status arr) &&
  match arr_items arr with
  | [] => true
  | _ :: _ => is_SU_ERROR_NONE (arr_get_status arr)
  end.

Definition loop_ok (loop : SULoopRef) : bool :=
  match loop with
  | Some l =>
      array_ok (loop_vertices l) && forallb vertex_ok (arr_items (loop_vertices l))
  | None => false
  end.

Definition face_ok (face : Face) : bool :=
  is_SU_ERROR_NONE (q_status (SUFaceGetOuterLoop_ face)) &&
  loop_ok (q_value (SUFaceGetOuterLoop_ face)) &&
  array_ok (face_inner_loops face) &&
  forallb loop_ok (arr_items (face_inner_loops face)).

(** The loops of a face: the outer loop first, then the inner loops. *)
Definition face_loops (face : Face) : list SULoopRef :=
  q_value (SUFaceGetOuterLoop_ face) :: arr_items (face_inner_loops face).

Definition vertex_position (vertex : SUVertexRef) : CPoint3d :=
  match vertex with
  | Some v => CPoint3d_of (q_value (SUVertexGetPosition_ v))
  | None => default_CPoint3d
  end.

(** The face record of one loop: marked as a single loop, with the positions
    of the loop's vertices in order. *)
Definition loop_record (loop : SULoopRef) : XmlFaceInfo :=
  mkXmlFaceInfo true
    (map (fun vertex => mkXmlFaceVertex (vertex_position vertex))
       (items_of loop loop_vertices)).

(** The state after [n] calls of [stats_.AddFace()]. *)
Definition with_faces_added {IM} (n : nat) (s : @State IM) : State :=
  mkState (on_stats_ (Nat.iter n AddFace) (self s)) (polls s).

(** When [m] returns, the inheritance manager is as it was. *)
Definition restores_manager {IM A} (m : @M IM A) : Prop :=
  forall s a s' cs,
    m s = (Returned a, s', cs) ->
    inheritance_manager_ (self s') = inheritance_manager_ (self s).

(** The order of the records of one entities collection, as the spec words
    it: "component-instance records first, then each group (with its nested
    entities recursively, followed by its transformation), then face
    records".  A group is given by the records of its nested entities and
    its transformation. *)
Definition group_block (group : list Call * SUTransformation) : list Call :=
  StartGroup :: fst group ++ [WriteTransformation (snd group); PopParentNode].

Inductive entities_records : list Call -> Prop :=
| entities_records_intro (instances : list Call)
    (groups : list (list Call * SUTransformation)) (faces : list Call) :
    Forall (only is_WriteComponentInstanceInfo) instances ->
    Forall (fun group => entities_records (fst group)) groups ->
    Forall (only is_WriteFaceInfo) faces ->
    entities_records (instances ++ flat_map group_block groups ++ faces).

(** A section of the document: absent, or its start, its records and the
    return to the parent node. *)
Definition section_of (start : Call) (records : list Call -> Prop)
  (cs : list Call) : Prop :=
  cs = [] \/
  exists inside, cs = start :: inside ++ [PopParentNode] /\ records inside.

(** The materials [WriteMaterials] draws its records from: the materials of
    the layers when materials are exported by layer, the materials of the
    model otherwise. *)
Definition material_sources (o : CXmlOptions) (m : SUModelRef)
  : list SUMaterialRef :=
  if export_materials_by_layer o then
    flat_map (fun layer =>
                match SULayerGetMaterial layer None with
                | (SU_ERROR_NONE, material) => [material]
                | _ => []
                end)
      (items_of m model_layers)
  else items_of m model_materials.

(** The objects whose number decides whether the materials section is there
    at all. *)
Definition materials_section_present (o : CXmlOptions) (m : SUModelRef) : bool :=
  if export_materials_by_layer o
  then 0 <? List.length (items_of m model_layers)
  else 0 <? List.length (items_of m model_materials).

Definition is_material_of (o : CXmlOptions) (m : SUModelRef) (c : Call) : Prop :=
  exists material info,
    c = WriteMaterialInfo info /\ In material (material_sources o m) /\
    GetMaterialInfo material = Returned info.

(** The percentages sent to the callback, in order. *)
Definition percents (cs : list Call) : list float :=
  flat_map (fun c => match c with SetPercentDone p => [p] | _ => [] end) cs.

(** Every percentage sent is immediately followed by a phase label. *)
Fixpoint labelled (cs : list Call) : bool :=
  match cs with
  | [] => true
  | SetPercentDone _ :: rest =>
      match rest with
      | SetProgressMessage _ :: _ => labelled rest
      | _ => false
      end
  | _ :: rest => labelled rest
  end.

(** The three sections of the document, as a run that returns writes them
    under options [o] for model [m]. *)
Definition layers_shape (o : CXmlOptions) (cs : list Call) : Prop :=
  if export_layers o then
    exists records,
      cs = StartLayers :: records ++ [PopParentNode] /\
      Forall (only is_WriteLayerInfo) records
  else cs = [].

Definition materials_shape (o : CXmlOptions) (m : SUModelRef) (cs : list Call)
  : Prop :=
  if export_materials o && materials_section_present o m then
    exists records,
      cs = StartMaterials :: records ++ [PopParentNode] /\
      Forall (is_material_of o m) records
  else cs = [].

Definition geometry_shape (o : CXmlOptions) (cs : list Call) : Prop :=
  if export_faces o || export_edges o then
    exists inside,
      cs = StartGeometry :: inside ++ [PopParentNode] /\
      entities_records inside /\
      Forall (only (is_entities_call (export_faces o))) inside
  else cs = [].

(** [part] starts by reading the cancellation flag of [callback], as its
    [k]-th read. *)
Definition checks_flag (callback : SketchUpPluginProgressCallback) (k : nat)
  (part : list Call) : Prop :=
  exists rest, part = HasBeenCancelled (cancel_flag callback k) :: rest.

Definition is_edge_record (c : Call) : bool :=
  match c with
  | WriteEdgeInfo _ | WriteCurveInfo _ => true
  | _ => false
  end.




(** Where a completed export that had read the flag [k] times before read
    it again, and what it closed the file with. *)
Definition flag_reads {IM} (cb : option SketchUpPluginProgressCallback)
  (k : nat) (x : Export IM) : Prop :=
  match cb with
  | Some callback =>
      checks_flag callback (0 + k) (ex_progress_0 x) /\
      checks_flag callback (1 + k) (ex_progress_10 x) /\
      checks_flag callback (2 + k) (ex_progress_20 x) /\
      checks_flag callback (3 + k) (ex_progress_60 x) /\
      ex_is_cancelled x = [HasBeenCancelled (cancel_flag callback (4 + k))] /\
      ex_cancelled x = cancel_flag callback (4 + k) /\
      checks_flag callback (5 + k) (ex_progress_100 x)
  | None =>
      ex_cancelled x = false /\
      ex_progress_0 x ++ ex_progress_10 x ++ ex_progress_20 x ++
      ex_progress_60 x ++ ex_is_cancelled x ++ ex_progress_100 x = []
  end.

(** The layer and the color an edge has of its own, as the SDK reports
    them. *)
Definition edge_own_layer (edge : SUEdgeRef) : SULayerRef :=
  own_layer (option_map SUEdgeToDrawingElement_ edge).
Definition edge_own_color (edge : SUEdgeRef) : option SUColor :=
  own_color (option_map SUEdgeToDrawingElement_ edge).

(** C7 as the spec words it: the inherited context only supplies a default.
    The recorded layer is the edge's own layer when the edge has one and
    the current layer otherwise; likewise for the color. *)
Definition context_is_default {IM} `{CInheritanceManager IM}
  (e : @CXmlExporter IM) (edge : SUEdgeRef) (info : XmlEdgeInfo) : Prop :=
  (export_layers (options_ e) = true ->
   GetLayerName
     (match edge_own_layer edge with
      | Some layer => Some layer
      | None => GetCurrentLayer (inheritance_manager_ e)
      end) = Returned (ei_layer_name_ info)) /\
  (export_materials (options_ e) = true ->
   ei_color_ info =
     match edge_own_color edge with
     | Some color => color
     | None => GetCurrentEdgeColor (inheritance_manager_ e)
     end).

(* ------------------------------------------------------------------ *)
(** *** Materials, layers and component instances *)

(** The references of a vector that are not [SU_INVALID]. *)
Definition valid_refs {O} (refs : list (option O)) : list (option O) :=
  filter (fun ref => negb (SUIsInvalid ref)) refs.

(** The SDK answers what [GetMaterialInfo] asks about a texture it has
    found: its file name and its dimensions. *)
Definition texture_answers (texture : SUTextureRef) : bool :=
  match texture with
  | Some t =>
      is_SU_ERROR_NONE (q_status (SUTextureGetFileName_ t)) &&
      is_SU_ERROR_NONE (q_status (SUTextureGetDimensions_ t))
  | None => false
  end.

(** The SDK answers every question whose failure [GetMaterialInfo] does not
    tolerate: the name, the type and the use of opacity; the opacity when it
    is used; and, for a textured material whose texture is found, what is
    asked about the texture.  The color query is not among them, nor is the
    texture query itself. *)
Definition material_answers (material : SUMaterialRef) : bool :=
  match material with
  | Some mat =>
      is_SU_ERROR_NONE (q_status (SUMaterialGetName_ mat)) &&
      is_SU_ERROR_NONE (q_status (SUMaterialGetType_ mat)) &&
      is_SU_ERROR_NONE (q_status (SUMaterialGetUseOpacity_ mat)) &&
      (negb (q_value (SUMaterialGetUseOpacity_ mat)) ||
       is_SU_ERROR_NONE (q_status (SUMaterialGetOpacity_ mat))) &&
      (negb (is_textured (q_value (SUMaterialGetType_ mat)) &&
             is_SU_ERROR_NONE (q_status (SUMaterialGetTexture_ mat))) ||
       texture_answers (q_value (SUMaterialGetTexture_ mat)))
  | None => false
  end.

(** What [WriteLayer] puts in the record of a layer: its name, its
    visibility, and the info of its material when the SDK gives one. *)
Definition layer_recorded (layer : SULayerRef) (info : XmlLayerInfo) : Prop :=
  GetLayerName layer = Returned (li_name_ info) /\
  SU_CALL (SULayerGetVisibility layer true) = Returned (li_is_visible_ info) /\
  match SULayerGetMaterial layer None with
  | (SU_ERROR_NONE, material) =>
      li_has_material_info_ info = true /\
      GetMaterialInfo material = Returned (li_material_info_ info)
  | _ => li_has_material_info_ info = false
  end.

(** What [WriteEntities] puts in the record of a component instance: the
    name of its definition and its transformation; and the name of its layer
    and of its material when the SDK gives one, else no name. *)
Definition instance_recorded (instance : SUComponentInstanceRef)
  (info : XmlComponentInstanceInfo) : Prop :=
  (exists definition,
      SU_CALL (SUComponentInstanceGetDefinition instance None)
        = Returned definition /\
      GetComponentDefinitionName definition
        = Returned (ci_definition_name_ info)) /\
  SU_CALL (SUComponentInstanceGetTransform instance [])
    = Returned (ci_transform_ info) /\
  match snd (SUDrawingElementGetLayer
               (@SUComponentInstanceToDrawingElement_ Entities) instance None)
  with
  | Some layer => GetLayerName (Some layer) = Returned (ci_layer_name_ info)
  | None => ci_layer_name_ info = EmptyString
  end /\
  match snd (SUDrawingElementGetMaterial
               (@SUComponentInstanceToDrawingElement_ Entities) instance None)
  with
  | Some material =>
      GetMaterialName (Some material) = Returned (ci_material_name_ info)
  | None => ci_material_name_ info = EmptyString
  end.

(** The state after one more call of [stats_.AddLayer()]. *)
Definition with_layer_added {IM} (s : @State IM) : State :=
  mkState (on_stats_ AddLayer (self s)) (polls s).

(** No restriction on the calls. *)
Definition any_call (c : Call) : bool := true.

(* ------------------------------------------------------------------ *)
(** *** Statistics *)

(** How many calls of some kind were made. *)
Definition count_calls (f : Call -> bool) (cs : list Call) : nat :=
  List.length (filter f cs).

(** The statistics keep step with the records: between [s] and [s'], where
    the calls [cs] were made, the layer counter grew by the number of layer
    records among [cs] and the face counter by the number of face records;
    the edge counter stayed, and no edge or curve record is among [cs]. *)
Definition tallies {IM} (s s' : @State IM) (cs : list Call) : Prop :=
  n_layers (stats_ (self s')) =
    n_layers (stats_ (self s)) + count_calls is_WriteLayerInfo cs /\
  n_faces (stats_ (self s')) =
    n_faces (stats_ (self s)) + count_calls is_WriteFaceInfo cs /\
  n_edges (stats_ (self s')) = n_edges (stats_ (self s)) /\
  count_calls is_edge_record cs = 0.

(** [m] keeps the statistics in step with the records it writes, whether it
    returns or throws. *)
Definition tallied {IM A} (m : @M IM A) : Prop :=
  forall s r s' cs, m s = (r, s', cs) -> tallies s s' cs.

(** Calls that are no layer, face, edge or curve record. *)
Definition is_uncounted (c : Call) : bool :=
  negb (is_WriteLayerInfo c || is_WriteFaceInfo c || is_edge_record c).

(* ------------------------------------------------------------------ *)
(** *** The nodes of the document *)

(** The calls on the XML file that start a node and make it the parent of
    what follows; [PopParentNode] returns to the node above. *)
Definition opens_node (c : Call) : bool :=
  match c with
  | StartLayers | StartMaterials | StartGeometry | StartComponentDefinitions
  | StartComponentDefinition _ | StartGroup => true
  | _ => false
  end.

(** How many nodes are open after the calls [cs], when [d] were open before
    them; [None] when [cs] returns to a parent that was never entered. *)
Fixpoint depth_after (d : nat) (cs : list Call) : option nat :=
  match cs with
  | [] => Some d
  | c :: rest =>
      if opens_node c then depth_after (S d) rest
      else
        match c with
        | PopParentNode =>
            match d with
            | S d' => depth_after d' rest
            | 0 => None
            end
        | _ => depth_after d rest
        end
  end.

(** Calls that neither start a node nor return to the parent. *)
Definition is_level_call (c : Call) : bool :=
  negb (opens_node c) && match c with PopParentNode => false | _ => true end.

(** Started [a] nodes below some node, [m] never returns above that node;
    when it returns it is [b] nodes below it. *)
Definition levels {IM A} (a b : nat) (m : @M IM A) : Prop :=
  forall s r s' cs d,
    m s = (r, s', cs) ->
    exists d', depth_after (d + a) cs = Some d' /\
               match r with
               | Returned _ => d' = d + b
               | Thrown => d <= d'
               end.

(* ------------------------------------------------------------------ *)
(** *** The SDK objects [Convert] creates *)

(** [SUModelCreateFromFile] succeeds on the source file. *)
Definition model_loaded (host : Host) (src_file : string) : bool :=
  is_SU_ERROR_NONE (q_status (SUModelCreateFromFile_ host src_file)).

(** What [SUModelCreateFromFile] and [SUTextureWriterCreate] leave in a
    reference that was set invalid before the call. *)
Definition created_model (host : Host) (src_file : string) : SUModelRef :=
  snd (answer (SUModelCreateFromFile_ host src_file) None).
Definition created_writer (host : Host) : SUTextureWriterRef :=
  snd (answer (SUTextureWriterCreate_ host) None).

Definition is_SUModelRelease (c : Call) : bool :=
  match c with SUModelRelease => true | _ => false end.
Definition is_SUTextureWriterRelease (c : Call) : bool :=
  match c with SUTextureWriterRelease => true | _ => false end.

(* ------------------------------------------------------------------ *)
(** *** Textures, edges, curves and component definitions *)

(** What [CXmlTextureHelper::LoadAllTextures] reports for the exporter's
    model, and what [SUTextureWriterWriteAllTextures] answers for its
    texture writer. *)
Definition texture_count {IM} (e : @CXmlExporter IM) : nat :=
  match model_ e with
  | Some m => LoadAllTextures_ m (export_materials_by_layer (options_ e))
  | None => 0
  end.
Definition write_all_status {IM} (host : Host) (e : @CXmlExporter IM) : SUResult :=
  match texture_writer_ e with
  | Some w => SUTextureWriterWriteAllTextures_ w (file_GetTextureDirectory_ host)
  | None => SU_ERROR_INVALID_INPUT
  end.

(** The state after one more call of [stats_.AddEdge()]. *)
Definition with_edge_added {IM} (s : @State IM) : State :=
  mkState (on_stats_ AddEdge (self s)) (polls s).


(* ------------------------------------------------------------------ *)
(** *** What a traversal writes *)

(** The records of a face: one for each of its loops, the outer loop first;
    none for an invalid reference. *)
Definition face_records (face : SUFaceRef) : list Call :=
  match face with
  | Some f => map (fun loop => WriteFaceInfo (loop_record loop)) (face_loops f)
  | None => []
  end.

(** What [WriteEntities] writes for some entities when it returns, with
    face records or without: the record of every component instance; then
    for every group its node, which holds what is written for the entities
    of the group, followed by the group's transformation; then the records
    of every face. *)
Inductive entities_written (faces : bool) : Entities -> list Call -> Prop :=
| entities_written_intro (ents : Entities)
    (instances : list XmlComponentInstanceInfo) (blocks : list (list Call)) :
    Forall2 instance_recorded (arr_items (ents_instances ents)) instances ->
    Forall2 (fun (group : SUGroupRef) (block : list Call) =>
               exists g group_ents inside,
                 group = Some g /\
                 q_value (SUGroupGetEntities_ g) = Some group_ents /\
                 entities_written faces group_ents inside /\
                 block = StartGroup :: inside ++
                         [WriteTransformation (q_value (SUGroupGetTransform_ g));
                          PopParentNode])
      (arr_items (ents_groups ents)) blocks ->
    entities_written faces ents
      (map WriteComponentInstanceInfo instances ++ List.concat blocks ++
       (if faces then flat_map face_records (arr_items (ents_faces ents))
        else [])).

(* ================================================================== *)
(** ** Reasoning about runs *)
(* ================================================================== *)

Section Runs.

Context {IM : Type} `{CInheritanceManager IM}.
Local Open Scope exporter_scope.

Lemma after_nil {B} (run : Outcome B * @State IM * list Call) :
  after [] run = run.
Proof. destruct run as [[r s] cs]. reflexivity. Qed.

Lemma after_inv {B} (calls1 : list Call) (run : Outcome B * @State IM * list Call)
  r s' cs :
  after calls1 run = (r, s', cs) ->
  exists calls2, run = (r, s', calls2) /\ cs = calls1 ++ calls2.
Proof.
  destruct run as [[r0 s0] c0]. simpl. intros E. inversion E; subst.
  eexists; split; reflexivity.
Qed.

(** A run of [m ;; f]: either [m] returned and [f] ran from there, or [m]
    threw and that is the whole run. *)
Lemma bind_inv {A B} (m : @M IM A) (f : A -> M B) s r s' cs :
  bind m f s = (r, s', cs) ->
  (exists a s1 calls1 calls2,
      m s = (Returned a, s1, calls1) /\ f a s1 = (r, s', calls2) /\
      cs = calls1 ++ calls2) \/
  (r = Thrown /\ m s = (Thrown, s', cs)).
Proof.
  unfold bind. destruct (m s) as [[[a|] s1] calls1]; intros E.
  - left. apply after_inv in E. destruct E as (calls2 & E & ->).
    exists a, s1, calls1, calls2. auto.
  - right. inversion E; subst. auto.
Qed.

Lemma bind_Returned_inv {A B} (m : @M IM A) (f : A -> M B) s b s' cs :
  bind m f s = (Returned b, s', cs) ->
  exists a s1 calls1 calls2,
    m s = (Returned a, s1, calls1) /\ f a s1 = (Returned b, s', calls2) /\
    cs = calls1 ++ calls2.
Proof.
  intros E. apply bind_inv in E. destruct E as [E | [E _]]; [exact E | discriminate].
Qed.

Lemma bind_Returned {A B} (m : @M IM A) (f : A -> M B) s a s1 calls1 :
  m s = (Returned a, s1, calls1) -> bind m f s = after calls1 (f a s1).
Proof. unfold bind. intros ->. reflexivity. Qed.

Lemma bind_Thrown {A B} (m : @M IM A) (f : A -> M B) s s1 calls1 :
  m s = (Thrown, s1, calls1) -> bind m f s = (Thrown, s1, calls1).
Proof. unfold bind. intros ->. reflexivity. Qed.

Lemma bind_this {B} (f : CXmlExporter -> @M IM B) s :
  bind this f s = f (self s) s.
Proof. unfold bind, this. apply after_nil. Qed.

Lemma bind_ret {A B} (a : A) (f : A -> @M IM B) s : bind (ret a) f s = f a s.
Proof. unfold bind, ret. apply after_nil. Qed.

Lemma bind_lift_Returned {A B} (a : A) (f : A -> @M IM B) s :
  bind (lift (Returned a)) f s = f a s.
Proof. unfold bind, lift. apply after_nil. Qed.

Lemma bind_lift_Thrown {A B} (f : A -> @M IM B) s :
  bind (lift Thrown) f s = (Thrown, s, []).
Proof. reflexivity. Qed.

Lemma bind_call {B} (c : Call) (f : unit -> @M IM B) s :
  bind (call c) f s = after [c] (f tt s).
Proof. reflexivity. Qed.

Lemma bind_update {B} (g : CXmlExporter -> CXmlExporter) (f : unit -> @M IM B) s :
  bind (update g) f s = f tt (mkState (g (self s)) (polls s)).
Proof. unfold bind, update. apply after_nil. Qed.

(** [SU_CALL] returns exactly when the status is [SU_ERROR_NONE]. *)
Lemma SU_CALL_Returned {A} (c : SUResult * A) (a : A) :
  SU_CALL c = Returned a <-> c = (SU_ERROR_NONE, a).
Proof.
  destruct c as [st v]. unfold SU_CALL. simpl. split.
  - destruct st; intros E; inversion E; reflexivity.
  - intros E. inversion E. reflexivity.
Qed.


(* ------------------------------------------------------------------ *)
(** *** Invariants of a run, whatever its outcome *)

Section Keeps.

Variable I : @State IM -> Prop.
Variable P : Call -> Prop.

Lemma keeps_ret {A} (a : A) : keeps I P (ret a).
Proof. intros s r s' cs Hs E. inversion E; subst. auto. Qed.

Lemma keeps_lift {A} (o : Outcome A) : keeps I P (lift o).
Proof. intros s r s' cs Hs E. inversion E; subst. auto. Qed.

Lemma keeps_this : keeps I P this.
Proof. intros s r s' cs Hs E. inversion E; subst. auto. Qed.

Lemma keeps_call (c : Call) : P c -> keeps I P (call c).
Proof. intros Pc s r s' cs Hs E. inversion E; subst. auto. Qed.

Lemma keeps_update (g : CXmlExporter -> CXmlExporter) :
  (forall s, I s -> I (mkState (g (self s)) (polls s))) -> keeps I P (update g).
Proof. intros Hg s r s' cs Hs E. inversion E; subst. auto. Qed.

Lemma keeps_bind {A B} (m : M A) (f : A -> M B) :
  keeps I P m -> (forall a, keeps I P (f a)) -> keeps I P (bind m f).
Proof.
  intros Hm Hf s r s' cs Hs E. apply bind_inv in E.
  destruct E as [(a & s1 & c1 & c2 & E1 & E2 & ->) | [-> E1]].
  - destruct (Hm _ _ _ _ Hs E1) as [Hs1 P1].
    destruct (Hf a _ _ _ _ Hs1 E2) as [Hs2 P2].
    split; [assumption | apply Forall_app; auto].
  - exact (Hm _ _ _ _ Hs E1).
Qed.

(** As [keeps_bind], for a member function that starts by reading the
    object. *)
Lemma keeps_bind_this {B} (f : CXmlExporter -> M B) :
  (forall s, I s -> forall r s' cs, f (self s) s = (r, s', cs) ->
                                    I s' /\ Forall P cs) ->
  keeps I P (bind this f).
Proof. intros Hf s r s' cs Hs E. rewrite bind_this in E. eauto. Qed.

Lemma keeps_for_upto {A} (body : A -> M unit) (xs : list A) :
  (forall x, In x xs -> keeps I P (body x)) ->
  forall n, keeps I P (for_upto body n xs).
Proof.
  induction xs as [|x xs IH]; intros Hb n.
  - destruct n; apply keeps_ret.
  - destruct n as [|n]; [apply keeps_ret|]. simpl.
    apply keeps_bind.
    + apply Hb. left. reflexivity.
    + intros _. apply IH. intros x' Hx'. apply Hb. right. exact Hx'.
Qed.

End Keeps.

Lemma keeps_weaken (I : @State IM -> Prop) (P Q : Call -> Prop) {A} (m : M A) :
  (forall c, P c -> Q c) -> keeps I P m -> keeps I Q m.
Proof.
  intros PQ Hm s r s' cs Hs E. destruct (Hm _ _ _ _ Hs E) as [Hs' Pcs].
  split; [assumption|]. eapply Forall_impl; eauto.
Qed.

End Runs.

(* ================================================================== *)
(** ** Releasing the SDK objects; the top-level handler *)
(* ================================================================== *)

Section TopLevel.

Context {IM : Type} `{CInheritanceManager IM}.
Variable on_cancel : CancelPolicy.
Variable host : Host.
Local Open Scope exporter_scope.

(** [ReleaseModelObjects] never throws. *)
Lemma ReleaseModelObjects_run (s : @State IM) :
  ReleaseModelObjects s = (Returned tt, released s, release_calls (self s)).
Proof.
  destruct s as [[o m w st im] k]. unfold release_calls, released.
  destruct m, w; reflexivity.
Qed.

Lemma release_calls_count (e : @CXmlExporter IM) :
  terminations (release_calls e) = 1.
Proof. unfold release_calls. destruct (texture_writer_ e), (model_ e); reflexivity. Qed.

Lemma terminations_before (before : list Call) (e : @CXmlExporter IM) :
  Forall (fun c => is_release c = false) before ->
  terminations (before ++ release_calls e) = 1.
Proof.
  intros F. unfold terminations. rewrite filter_app, length_app.
  fold (terminations (release_calls e)). rewrite release_calls_count.
  induction F as [|c cs Fc _ IH]; [reflexivity|].
  destruct c; try discriminate Fc; exact IH.
Qed.

(** The three ways [Convert] ends, by how its [try] block ends. *)
Lemma Convert_when_thrown src dst cb (s s1 : @State IM) calls1 :
  Convert_try on_cancel host src dst cb s = (Thrown, s1, calls1) ->
  Convert on_cancel host src dst cb s =
    (Returned false, released s1,
     calls1 ++ Close true :: release_calls (self s1)).
Proof.
  intros E. unfold Convert, Convert_catch, bind, try_catch. rewrite E.
  cbn. rewrite ReleaseModelObjects_run. cbn.
  rewrite app_nil_r, <- app_assoc. reflexivity.
Qed.

Lemma Convert_when_end_of_try src dst cb (s s1 : @State IM) exported calls1 :
  Convert_try on_cancel host src dst cb s =
    (Returned (EndOfTry exported), s1, calls1) ->
  Convert on_cancel host src dst cb s =
    (Returned exported, released s1, calls1 ++ release_calls (self s1)).
Proof.
  intros E. unfold Convert, bind, try_catch. rewrite E.
  rewrite ReleaseModelObjects_run. cbn [ret after].
  rewrite app_nil_r. reflexivity.
Qed.

Lemma Convert_when_return src dst cb (s s1 : @State IM) exported calls1 :
  Convert_try on_cancel host src dst cb s =
    (Returned (ReturnStatement exported), s1, calls1) ->
  Convert on_cancel host src dst cb s = (Returned exported, s1, calls1).
Proof.
  intros E. unfold Convert, bind, try_catch. rewrite E.
  cbn [ret after]. rewrite app_nil_r. reflexivity.
Qed.

(** [HandleProgress] leaves the object alone and talks to the callback
    only. *)
Lemma HandleProgress_run cb percent message (s : @State IM) r s' cs :
  HandleProgress on_cancel cb percent message s = (r, s', cs) ->
  self s' = self s /\ polls s' = polled cb (polls s) 1 /\
  progress_calls cb (polls s) percent message cs.
Proof.
  unfold HandleProgress, progress_calls, polled. destruct cb as [c|].
  - unfold bind, poll. destruct (cancel_flag c (polls s)).
    + destruct on_cancel; cbn; intros E; inversion E; subst; cbn; auto.
    + cbn. intros E; inversion E; subst; cbn; auto.
  - intros E; inversion E; subst; auto.
Qed.

Lemma IsCancelled_run cb (s : @State IM) :
  IsCancelled cb s =
    match cb with
    | None => (Returned false, s, [])
    | Some c => (Returned (cancel_flag c (polls s)),
                 mkState (self s) (S (polls s)),
                 [HasBeenCancelled (cancel_flag c (polls s))])
    end.
Proof. destruct cb; reflexivity. Qed.

End TopLevel.

(* ================================================================== *)
(** ** The writing phases *)
(* ================================================================== *)

Create HintDb keeps discriminated.

Ltac weaken_calls :=
  let c := fresh "c" in
  let Hc := fresh "Hc" in
  intros c; destruct c; unfold only; cbn; intros Hc;
  first [reflexivity | discriminate Hc | exact Hc].

Ltac keeps_auto :=
  repeat (cbv zeta; first
    [ solve [auto 1 with keeps]
    | solve [eapply keeps_weaken; cycle 1;
             [solve [auto 1 with keeps] | weaken_calls]]
    | apply keeps_ret | apply keeps_lift | apply keeps_this
    | apply keeps_call; reflexivity
    | apply keeps_update; (let F := fresh "F" in intros ? F; exact F)
    | apply keeps_bind; [| intros ?]
    | apply keeps_for_upto; intros ? _
    | match goal with
      | |- keeps _ _ (if ?b then _ else _) => destruct b
      | |- keeps _ _ (match ?x with _ => _ end) => destruct x
      end ]).

Section Phases.

Context {IM : Type} `{CInheritanceManager IM}.
Variable o : CXmlOptions.
Variable m : SUModelRef.
Variable w : SUTextureWriterRef.
Variable k : nat.
Local Open Scope exporter_scope.

Lemma keeps_ext {A} I P (m1 m2 : @M IM A) :
  (forall s, m1 s = m2 s) -> keeps I P m2 -> keeps I P m1.
Proof. intros E K s r s' cs Hs R. rewrite E in R. eauto. Qed.

Lemma keeps_bind_lift {A B} I P (x : Outcome A) (f : A -> @M IM B) :
  (forall a, x = Returned a -> keeps I P (f a)) -> keeps I P (bind (lift x) f).
Proof.
  intros Hf. destruct x as [a|].
  - eapply keeps_ext; [intros s; apply bind_lift_Returned|]. auto.
  - eapply keeps_ext; [intros s; apply bind_lift_Thrown|].
    intros s r s' cs Hs E. inversion E; subst. auto.
Qed.

Lemma for_upto_ext {A} (f g : A -> @M IM unit) (xs : list A) :
  (forall x s, In x xs -> f x s = g x s) ->
  forall n s, for_upto f n xs s = for_upto g n xs s.
Proof.
  induction xs as [|x xs IH]; intros E n s.
  - destruct n; reflexivity.
  - destruct n as [|n]; [reflexivity|]. simpl. unfold bind.
    rewrite (E x s) by (left; reflexivity).
    destruct (g x s) as [[[[]|] s1] c1]; [|reflexivity].
    rewrite IH; [reflexivity|]. intros x' s0 Hx'. apply E. right. exact Hx'.
Qed.

Lemma bind_ext {A B} (m1 : @M IM A) (f g : A -> M B) s :
  (forall a s1, f a s1 = g a s1) -> bind m1 f s = bind m1 g s.
Proof.
  intros E. unfold bind. destruct (m1 s) as [[[a|] s1] c1]; [|reflexivity].
  rewrite E. reflexivity.
Qed.

Lemma bind_ext_l {A B} (m1 m2 : @M IM A) (f : A -> M B) s :
  m1 s = m2 s -> bind m1 f s = bind m2 f s.
Proof. intros E. unfold bind. rewrite E. reflexivity. Qed.

(** [WriteEntities] is its source text. *)
Lemma WriteEntities_unfold (entities : SUEntitiesRef) (s : @State IM) :
  WriteEntities entities s = WriteEntities_body WriteEntities entities s.
Proof.
  destruct entities as [ents|]; [|reflexivity].
  destruct ents as [insts groups faces edges curves].
  unfold WriteEntities, WriteEntities_body, WriteEntities_groups.
  unfold WriteEntities_valid; fold (@WriteEntities_valid IM _).
  cbv zeta.
  apply bind_ext; intros _ s1. apply bind_ext_l.
  apply bind_ext; intros n s2. destruct (0 <? n); [|reflexivity].
  apply bind_ext; intros n' s3.
  apply for_upto_ext. intros [g|] s0 _; [|reflexivity].
  unfold SUGroupGetEntities, on_ref, answer.
  destruct (is_SU_ERROR_NONE (q_status (SUGroupGetEntities_ g))) eqn:Q.
  - cbn [SU_CALL fst snd]. rewrite bind_lift_Returned. reflexivity.
  - destruct (q_status (SUGroupGetEntities_ g)); try discriminate; reflexivity.
Qed.

Lemma nesting_group (ents : Entities) (g : Group Entities) (group_ents : Entities) :
  In (Some g) (arr_items (ents_groups ents)) ->
  q_value (SUGroupGetEntities_ g) = Some group_ents ->
  nesting group_ents < nesting ents.
Proof.
  destruct ents as [insts groups faces edges curves]. simpl.
  intros Hin Hq. apply Nat.lt_succ_r.
  induction (arr_items groups) as [|x xs IH]; [contradiction|].
  simpl. destruct Hin as [-> | Hin].
  - rewrite Hq. apply Nat.le_max_l.
  - etransitivity; [apply IH; exact Hin | apply Nat.le_max_r].
Qed.

(** Induction over entities along the groups they hold. *)
Lemma Entities_nested_ind (Q : Entities -> Prop) :
  (forall ents,
      (forall g group_ents,
          In (Some g) (arr_items (ents_groups ents)) ->
          q_value (SUGroupGetEntities_ g) = Some group_ents ->
          Q group_ents) ->
      Q ents) ->
  forall ents, Q ents.
Proof.
  intros Step ents.
  assert (G : forall n ents, nesting ents < n -> Q ents).
  { induction n as [|n IH]; intros e L; [lia|].
    apply Step. intros g ge Hin Hq. apply IH.
    pose proof (nesting_group e g Hin Hq). lia. }
  apply (G (S (nesting ents))). lia.
Qed.

Lemma on_ref_Returned {O A} (ref : option O) (get : O -> Query A) (out a : A) :
  SU_CALL (on_ref ref get out) = Returned a ->
  exists obj, ref = Some obj /\ q_status (get obj) = SU_ERROR_NONE /\
              q_value (get obj) = a.
Proof.
  intros E. apply SU_CALL_Returned in E. destruct ref as [obj|]; [|discriminate].
  exists obj. unfold on_ref, answer in E.
  destruct (q_status (get obj)); inversion E; auto.
Qed.

Lemma WriteTextureFiles_keeps host :
  keeps (frame o m w k) (only is_texture_call) (@WriteTextureFiles IM host).
Proof. unfold WriteTextureFiles. keeps_auto. Qed.

Lemma WriteLayer_keeps layer :
  keeps (frame o m w k) (only is_WriteLayerInfo) (@WriteLayer IM layer).
Proof. unfold WriteLayer. keeps_auto. Qed.

Lemma WriteMaterial_keeps material :
  keeps (frame o m w k) (only is_WriteMaterialInfo) (@WriteMaterial IM material).
Proof. unfold WriteMaterial. keeps_auto. Qed.

Lemma WriteFace_keeps face :
  keeps (frame o m w k) (only is_WriteFaceInfo) (@WriteFace IM face).
Proof. unfold WriteFace. keeps_auto. Qed.

#[local] Hint Resolve WriteLayer_keeps WriteMaterial_keeps WriteFace_keeps : keeps.

Lemma WriteLayers_keeps :
  keeps (frame o m w k) (only is_layers_call) (@WriteLayers IM).
Proof. unfold WriteLayers. keeps_auto. Qed.

Lemma WriteMaterials_keeps :
  keeps (frame o m w k) (only is_materials_call) (@WriteMaterials IM).
Proof. unfold WriteMaterials. keeps_auto. Qed.

Lemma WriteEntities_instances_keeps entities :
  keeps (frame o m w k) (only is_WriteComponentInstanceInfo)
    (@WriteEntities_instances IM entities).
Proof. unfold WriteEntities_instances. keeps_auto. Qed.

(** Face records are written under [export_faces] only. *)
Lemma WriteEntities_faces_keeps entities :
  keeps (frame o m w k) (only (is_entities_call (export_faces o)))
    (@WriteEntities_faces IM _ entities).
Proof.
  unfold WriteEntities_faces. apply keeps_bind_this. intros s F r s' cs E.
  assert (O : options_ (self s) = o) by apply F. rewrite O in E.
  destruct (export_faces o).
  - match type of E with
    | ?mm s = _ =>
        assert (K : keeps (frame o m w k) (only (is_entities_call true)) mm)
          by keeps_auto;
        exact (K _ _ _ _ F E)
    end.
  - inversion E; subst. auto.
Qed.

#[local] Hint Resolve WriteEntities_instances_keeps WriteEntities_faces_keeps : keeps.

Lemma WriteEntities_keeps entities :
  keeps (frame o m w k) (only (is_entities_call (export_faces o)))
    (@WriteEntities IM _ entities).
Proof.
  destruct entities as [ents|]; [|apply keeps_lift].
  induction ents as [ents IH] using Entities_nested_ind.
  eapply keeps_ext; [intros s; apply WriteEntities_unfold|].
  unfold WriteEntities_body. apply keeps_bind; [keeps_auto|]. intros _.
  apply keeps_bind; [|intros _; keeps_auto].
  unfold WriteEntities_groups. apply keeps_bind; [keeps_auto|]. intros n.
  destruct (0 <? n); [|keeps_auto].
  apply keeps_bind; [keeps_auto|]. intros n'.
  apply keeps_for_upto. intros group Hin.
  apply keeps_bind_lift. intros group_entities E.
  apply on_ref_Returned in E. destruct E as (g & -> & _ & Q).
  apply keeps_bind; [keeps_auto|]. intros _.
  apply keeps_bind; [keeps_auto|]. intros _.
  apply keeps_bind; [|intros _; keeps_auto].
  destruct group_entities as [group_ents|]; [|apply keeps_lift].
  exact (IH g group_ents Hin Q).
Qed.

#[local] Hint Resolve WriteEntities_keeps : keeps.

Lemma WriteGeometry_keeps :
  keeps (frame o m w k) (only (is_geometry_call (export_faces o)))
    (@WriteGeometry IM _).
Proof. unfold WriteGeometry. keeps_auto. Qed.

End Phases.

(* ================================================================== *)
(** ** Runs of [Convert] *)
(* ================================================================== *)

Ltac run_call E :=
  rewrite bind_call in E; apply after_inv in E;
  let c := fresh "calls" in destruct E as (c & E & ->).

Ltac run_lift E EQ :=
  match type of E with
  | bind (lift ?x) _ _ = _ =>
      destruct x eqn:EQ;
      [ rewrite bind_lift_Returned in E
      | rewrite bind_lift_Thrown in E; try discriminate E ]
  end.

Ltac run_lift_as E EQ v :=
  match type of E with
  | bind (lift ?x) _ _ = _ =>
      destruct x as [v|] eqn:EQ;
      [ rewrite bind_lift_Returned in E
      | rewrite bind_lift_Thrown in E; try discriminate E ]
  end.

Section Conversion.

Context {IM : Type} `{CInheritanceManager IM}.
Variable on_cancel : CancelPolicy.
Variable host : Host.
Local Open Scope exporter_scope.

Lemma polled_polled cb k a b : polled cb (polled cb k a) b = polled cb k (b + a).
Proof. unfold polled. destruct cb; lia. Qed.

Lemma frame_intro (s : @State IM) :
  frame (options_ (self s)) (model_ (self s)) (texture_writer_ (self s))
    (polls s) s.
Proof. repeat split. Qed.

Lemma frame_self o m w k k' (s s' : @State IM) :
  frame o m w k s -> self s' = self s -> polls s' = k' -> frame o m w k' s'.
Proof.
  unfold frame. intros (Ho & Hm & Hw & _) E1 E2. rewrite E1, E2. auto.
Qed.

Lemma answer_Returned {A} (q : Query A) (out a : A) :
  SU_CALL (answer q out) = Returned a -> q = mkQuery SU_ERROR_NONE a.
Proof.
  intros E. apply SU_CALL_Returned in E. unfold answer in E.
  destruct q as [st v]. simpl in E. destruct st; inversion E; reflexivity.
Qed.


Ltac simpl_state E := cbn in E.

(** A run that reaches the end of the [try] block went through every phase. *)
Lemma Convert_try_end src dst cb (s s1 : @State IM) exported calls1 :
  Convert_try on_cancel host src dst cb s =
    (Returned (EndOfTry exported), s1, calls1) ->
  exported = true /\
  exists x : Export IM,
    exports host src dst cb s x /\
    calls1 = export_calls src dst x /\
    self s1 = self (at_close x).
Proof.
  intros E. destruct s as [[o m w st im] k].
  unfold Convert_try in E. cbv zeta in E.
  run_call E. rewrite bind_update in E. run_call E. rewrite bind_this in E.
  run_lift E EM. rewrite bind_update in E. rewrite bind_update in E.
  run_call E. rewrite bind_this in E. run_lift E EW.
  rewrite bind_update in E. run_call E. simpl_state E.
  destruct (file_Open_ host dst) eqn:EO; cbn [negb] in E.
  2:{ erewrite bind_Returned in E by apply ReleaseModelObjects_run.
      cbn in E. discriminate E. }
  apply answer_Returned in EM, EW.
  apply bind_Returned_inv in E. destruct E as ([] & sa & p0 & ? & E0 & E & ->).
  apply HandleProgress_run in E0. destruct E0 as (Sa & Ka & P0).
  apply bind_Returned_inv in E. destruct E as ([] & sb & T & ? & ET & E & ->).
  rewrite bind_this in E. run_lift E EV. destruct a1 as [[major minor] build].
  run_call E.
  apply bind_Returned_inv in E. destruct E as ([] & sc & p1 & ? & E1 & E & ->).
  apply bind_Returned_inv in E. destruct E as ([] & sd & L & ? & EL & E & ->).
  apply bind_Returned_inv in E. destruct E as ([] & se & p2 & ? & E2 & E & ->).
  apply bind_Returned_inv in E. destruct E as ([] & sf & Mt & ? & EMt & E & ->).
  apply bind_Returned_inv in E. destruct E as ([] & sg & p3 & ? & E3 & E & ->).
  apply bind_Returned_inv in E. destruct E as ([] & sh & G & ? & EG & E & ->).
  apply bind_Returned_inv in E. destruct E as (c & si & p4 & ? & E4 & E & ->).
  run_call E.
  apply bind_Returned_inv in E. destruct E as ([] & sj & p5 & ? & E5 & E & ->).
  inversion E; subst. clear E.
  set (s0 := mkState _ k) in *.
  assert (F0 : frame o a a0 k s0) by (repeat split).
  assert (Fa : frame o a a0 (polled cb k 1) sa)
    by (eapply frame_self; eauto).
  destruct (WriteTextureFiles_keeps host Fa ET) as [Fb _].
  apply HandleProgress_run in E1. destruct E1 as (Sc & Kc & P1).
  assert (Fc : frame o a a0 (polled cb k 2) sc).
  { eapply frame_self; eauto. rewrite Kc. destruct Fb as (_ & _ & _ & ->).
    apply polled_polled. }
  destruct (WriteLayers_keeps Fc EL) as [Fd _].
  apply HandleProgress_run in E2. destruct E2 as (Se & Ke & P2).
  assert (Fe : frame o a a0 (polled cb k 3) se).
  { eapply frame_self; eauto. rewrite Ke. destruct Fd as (_ & _ & _ & ->).
    apply polled_polled. }
  destruct (WriteMaterials_keeps Fe EMt) as [Ff _].
  apply HandleProgress_run in E3. destruct E3 as (Sg & Kg & P3).
  assert (Fg : frame o a a0 (polled cb k 4) sg).
  { eapply frame_self; eauto. rewrite Kg. destruct Ff as (_ & _ & _ & ->).
    apply polled_polled. }
  destruct (WriteGeometry_keeps Fg EG) as [Fh _].
  apply HandleProgress_run in E5. destruct E5 as (Sj & Kj & P5).
  assert (Hb : polls sb = polled cb k 1) by apply Fb.
  assert (Hd : polls sd = polled cb k 2) by apply Fd.
  assert (Hf : polls sf = polled cb k 3) by apply Ff.
  assert (Hh : polls sh = polled cb k 4) by apply Fh.
  assert (Mb : model_ (self sb) = a) by apply Fb.
  rewrite Mb in EV. apply SU_CALL_Returned in EV.
  rewrite Hb in P1. rewrite Hd in P2. rewrite Hf in P3.
  rewrite IsCancelled_run in E4.
  split; [reflexivity|].
  exists (mkExport a a0 (major, minor, build) c p0 T p1 L p2 Mt p3 G p4 p5
            sa sc se sg sh).
  split; [|split].
  - unfold exports. cbn [ex_model ex_writer ex_version ex_cancelled
      ex_progress_0 ex_textures ex_progress_10 ex_layers ex_progress_20
      ex_materials ex_progress_60 ex_geometry ex_is_cancelled ex_progress_100
      at_textures at_layers at_materials at_geometry at_close self polls
      options_].
    repeat match goal with |- _ /\ _ => split end; eauto.
    + replace (polled cb k 0) with k by (destruct cb; reflexivity). exact P0.
    + destruct cb as [cbk|]; inversion E4; subst; cbn in *; auto;
        rewrite Hh in P5; exact P5.
    + destruct cb as [cbk|]; inversion E4; subst; cbn in *; auto;
        rewrite Hh; auto.
  - unfold export_calls. cbn. rewrite app_nil_r. reflexivity.
  - cbn. rewrite Sj. destruct cb; inversion E4; subst; reflexivity.
Qed.

Lemma keeps_any_polls o m w P {A} (mm : @M IM A) :
  (forall k, keeps (frame o m w k) P mm) -> keeps (in_export o m w) P mm.
Proof.
  intros K s r s' cs (Ho & Hm & Hw) E.
  destruct (K (polls s) s r s' cs) as [(Ho' & Hm' & Hw' & _) Pcs]; auto.
  - repeat split; assumption.
  - split; [repeat split; assumption | assumption].
Qed.

Lemma progress_calls_callback cb k percent message cs :
  progress_calls cb k percent message cs -> Forall (only is_callback_call) cs.
Proof.
  unfold progress_calls. destruct cb as [c|].
  - intros [-> | ->]; repeat constructor.
  - intros ->. constructor.
Qed.

Lemma HandleProgress_keeps o m w cb percent message :
  keeps (in_export o m w) (only is_callback_call)
    (@HandleProgress IM on_cancel cb percent message).
Proof.
  intros s r s' cs Hs E. apply HandleProgress_run in E.
  destruct E as (S' & _ & Pc). split.
  - unfold in_export. rewrite S'. exact Hs.
  - eapply progress_calls_callback; eauto.
Qed.

Lemma IsCancelled_keeps o m w cb :
  keeps (in_export o m w) (only is_callback_call) (@IsCancelled IM cb).
Proof.
  intros s r s' cs Hs E. rewrite IsCancelled_run in E.
  destruct cb; inversion E; subst; split; auto; repeat constructor.
Qed.

(** Inside the [try] block, once the file is open, nothing is released:
    whether the block ends or throws, its calls are writing calls, callback
    calls and [Close]. *)
Lemma Convert_try_calls src dst cb (s s1 : @State IM) r calls1 :
  Convert_try on_cancel host src dst cb s = (r, s1, calls1) ->
  (exists sx,
      r = Returned (ReturnStatement false) /\ file_Open_ host dst = false /\
      s1 = released sx /\
      calls1 = [SUInitialize; SUModelCreateFromFile src; SUTextureWriterCreate;
                Open dst] ++ release_calls (self sx)) \/
  ((r = Thrown \/ r = Returned (EndOfTry true)) /\
   Forall (fun c => is_release c = false) calls1).
Proof.
  intros E. destruct s as [[o m w st im] k].
  unfold Convert_try in E. cbv zeta in E.
  run_call E. rewrite bind_update in E. run_call E. rewrite bind_this in E.
  run_lift E EM.
  2:{ inversion E; subst. right. split; [auto | repeat constructor]. }
  rewrite bind_update in E. rewrite bind_update in E.
  run_call E. rewrite bind_this in E. run_lift E EW.
  2:{ inversion E; subst. right. split; [auto | repeat constructor]. }
  rewrite bind_update in E. run_call E. cbn in E.
  destruct (file_Open_ host dst) eqn:EO; cbn [negb] in E.
  - right.
    match type of E with
    | ?mm ?s0 = _ =>
        assert (K : keeps (in_export o a a0) (only is_export_call) mm)
    end.
    { repeat (first
        [ eapply keeps_weaken; [| apply HandleProgress_keeps]; weaken_calls
        | eapply keeps_weaken; [| apply IsCancelled_keeps]; weaken_calls
        | apply keeps_any_polls; intros ?; eapply keeps_weaken;
          [| first [ apply WriteTextureFiles_keeps | apply WriteLayers_keeps
                   | apply WriteMaterials_keeps | apply WriteGeometry_keeps ]];
          weaken_calls
        | apply keeps_ret
        | apply keeps_call; reflexivity
        | apply keeps_this
        | apply keeps_lift
        | apply keeps_bind; [| intros ?]
        | match goal with
          | |- keeps _ _ (match ?x with _ => _ end) => destruct x
          end ]). }
    match type of E with
    | _ ?s0 = _ => assert (F0 : in_export o a a0 s0) by (repeat split)
    end.
    destruct (K _ _ _ _ F0 E) as [_ Pc]. clear F0.
    split.
    + clear K Pc. destruct r as [fl|]; [right | left; reflexivity].
      repeat (apply bind_Returned_inv in E;
              destruct E as (? & ? & ? & ? & _ & E & _);
              try rewrite bind_this in E;
              try match type of E with
                  | (let '(_, _) := ?v in _) _ = _ => destruct v as [[? ?] ?]
                  end).
      inversion E. reflexivity.
    + repeat constructor.
      eapply Forall_impl; [|exact Pc].
      intros c. destruct c; unfold only; cbn; intros; (reflexivity || discriminate).
  - left. erewrite bind_Returned in E by apply ReleaseModelObjects_run.
    cbn in E. inversion E; subst. eexists. repeat split.
    cbn. rewrite app_nil_r. reflexivity.
Qed.

(** C1.  Whenever anything raised inside the [try] block of [Convert] (every
    failing [SU_CALL] does), [Convert] catches it: the calls made up to the
    failure are followed by [Close true] on the output file and by the
    release of whatever SDK objects are held, both references end up
    invalid, and the result is [false].  Nothing made before the failure is
    made again, and nothing was released before the handler ran. *)
Theorem Convert_catches_every_failure src dst cb (s s1 : @State IM) calls1 :
  Convert_try on_cancel host src dst cb s = (Thrown, s1, calls1) ->
  exists s',
    Convert on_cancel host src dst cb s =
      (Returned false, s',
       calls1 ++ Close true :: release_calls (self s1)) /\
    model_ (self s') = None /\
    texture_writer_ (self s') = None /\
    Forall (fun c => is_release c = false) calls1.
Proof.
  intros E. exists (released s1). split; [|split; [|split]].
  - apply Convert_when_thrown. exact E.
  - reflexivity.
  - reflexivity.
  - apply Convert_try_calls in E.
    destruct E as [(sx & R & _) | [_ F]]; [discriminate R | exact F].
Qed.

(** C2.  [Convert] always returns, and on each of its three exit paths the
    calls of [ReleaseModelObjects] (the texture writer's release if it is
    held, the model's release if it is held, [SUTerminate]) come exactly
    once, at the very end: no release call is made before them, the SDK
    session is terminated once, and both references are invalid when
    [Convert] returns. *)
Theorem ReleaseModelObjects_once_on_every_path src dst cb (s : @State IM) :
  exists exported sx before,
    Convert on_cancel host src dst cb s =
      (Returned exported, released sx, before ++ release_calls (self sx)) /\
    Forall (fun c => is_release c = false) before /\
    terminations (before ++ release_calls (self sx)) = 1 /\
    model_ (self (released sx)) = None /\
    texture_writer_ (self (released sx)) = None.
Proof.
  destruct (Convert_try on_cancel host src dst cb s) as [[r s1] calls1] eqn:E.
  pose proof (Convert_try_calls _ _ _ _ E) as C.
  assert (K : exists exported sx before,
             Convert on_cancel host src dst cb s =
               (Returned exported, released sx,
                before ++ release_calls (self sx)) /\
             Forall (fun c => is_release c = false) before).
  { destruct C as [(sx & -> & _ & -> & ->) | [[-> | ->] F]].
    - exists false, sx,
        [SUInitialize; SUModelCreateFromFile src; SUTextureWriterCreate; Open dst].
      split; [apply Convert_when_return; exact E | repeat constructor].
    - exists false, s1, (calls1 ++ [Close true]). split.
      + rewrite <- app_assoc. apply Convert_when_thrown. exact E.
      + apply Forall_app. split; [exact F | repeat constructor].
    - exists true, s1, calls1. split; [|exact F].
      apply Convert_when_end_of_try. exact E. }
  destruct K as (exported & sx & before & R & F).
  exists exported, sx, before. repeat split; try assumption.
  apply terminations_before. exact F.
Qed.

End Conversion.

(* ================================================================== *)
(** ** Faces *)
(* ================================================================== *)

Section Faces.

Context {IM : Type} `{CInheritanceManager IM}.
Local Open Scope exporter_scope.

Lemma get_num_ok {O A} (obj : O) (arr : O -> SUArray A) out :
  array_ok (arr obj) = true ->
  get_num (Some obj) arr out = (SU_ERROR_NONE, List.length (arr_items (arr obj))).
Proof.
  unfold array_ok, get_num. intros K. apply andb_prop in K. destruct K as [K _].
  rewrite K. reflexivity.
Qed.

Lemma get_items_ok {O A} (obj : O) (arr : O -> SUArray A) out :
  array_ok (arr obj) = true ->
  (0 <? List.length (arr_items (arr obj))) = true ->
  get_items (Some obj) arr (List.length (arr_items (arr obj))) out =
    (SU_ERROR_NONE, List.length (arr_items (arr obj))).
Proof.
  unfold array_ok, get_items. intros K L. apply andb_prop in K. destruct K as [_ K].
  destruct (arr_items (arr obj)) as [|x xs]; [discriminate L|].
  rewrite K, Nat.min_id. reflexivity.
Qed.

Lemma vertices_collected (xs : list SUVertexRef) :
  forallb vertex_ok xs = true ->
  forall acc,
    ofold_upto
      (fun vertices vertex_ref =>
         obind (SU_CALL (SUVertexGetPosition vertex_ref (mkSUPoint3D 0 0 0)))
           (fun su_point =>
              Returned (vertices ++ [mkXmlFaceVertex (CPoint3d_of su_point)])))
      (List.length xs) xs acc =
    Returned (acc ++ map (fun v => mkXmlFaceVertex (vertex_position v)) xs).
Proof.
  induction xs as [|v xs IH]; intros K acc; simpl.
  - rewrite app_nil_r. reflexivity.
  - simpl in K. apply andb_prop in K. destruct K as [Kv Kxs].
    destruct v as [v|]; [|discriminate Kv]. simpl in Kv.
    unfold SUVertexGetPosition, on_ref, answer. rewrite Kv. simpl.
    rewrite IH by assumption. rewrite <- app_assoc. reflexivity.
Qed.

(** On a loop the SDK answers for, the block yields the loop's record. *)
Lemma loop_face_info_ok (loop : SULoopRef) :
  loop_ok loop = true -> loop_face_info loop = Returned (loop_record loop).
Proof.
  destruct loop as [l|]; [|discriminate]. simpl. intros K.
  apply andb_prop in K. destruct K as [Ka Kv].
  unfold loop_face_info, loop_record. rewrite (get_num_ok l loop_vertices 0 Ka).
  cbn [SU_CALL fst snd obind].
  destruct (0 <? List.length (arr_items (loop_vertices l))) eqn:L.
  - rewrite (get_items_ok l loop_vertices _ Ka L). cbn [SU_CALL fst snd obind].
    cbn [items_of]. rewrite (vertices_collected _ Kv []). reflexivity.
  - apply Nat.ltb_ge in L. cbn [items_of].
    destruct (arr_items (loop_vertices l)); [reflexivity | simpl in L; lia].
Qed.

Lemma n_faces_iter n (st : CXmlStats) :
  n_faces (Nat.iter n AddFace st) = n_faces st + n.
Proof.
  induction n as [|n IH]; [cbn; lia|].
  rewrite Nat.iter_succ. cbn [AddFace n_faces]. rewrite IH. lia.
Qed.

Lemma with_faces_added_S n (s : @State IM) :
  with_faces_added n (with_faces_added 1 s) = with_faces_added (S n) s.
Proof.
  unfold with_faces_added, on_stats_. destruct s as [[o m w st im] k].
  cbn [self polls options_ model_ texture_writer_ stats_ inheritance_manager_].
  rewrite (Nat.iter_succ_r n). reflexivity.
Qed.

Lemma inner_loops_written (loops : list SULoopRef) :
  forallb loop_ok loops = true ->
  forall s : @State IM,
    for_upto
      (fun inner_loop =>
         info <- lift (loop_face_info inner_loop) ;;
         update (on_stats_ AddFace) ;;
         call (WriteFaceInfo info))
      (List.length loops) loops s =
    (Returned tt, with_faces_added (List.length loops) s,
     map (fun l => WriteFaceInfo (loop_record l)) loops).
Proof.
  induction loops as [|l loops IH]; intros K s.
  - destruct s as [[o m w st im] k]. reflexivity.
  - simpl in K. apply andb_prop in K. destruct K as [Kl Kloops].
    cbn [for_upto List.length map].
    erewrite bind_Returned.
    2:{ rewrite (loop_face_info_ok _ Kl). rewrite bind_lift_Returned.
        rewrite bind_update. reflexivity. }
    rewrite IH by assumption. cbn [after].
    rewrite <- (with_faces_added_S (List.length loops) s). reflexivity.
Qed.

(** C10.  On a valid face for which the SDK answers every query, [WriteFace]
    returns having written exactly one face record per loop, for the outer
    loop first and then for the inner loops in order; each record is marked
    as a single loop and holds the positions of that loop's vertices in
    order; and [AddFace] was called once per record, so the face counter
    grew by one plus the number of inner loops and nothing else changed. *)
Theorem WriteFace_one_record_per_loop (face : Face) (s : @State IM) :
  face_ok face = true ->
  WriteFace (Some face) s =
    (Returned tt,
     with_faces_added (List.length (face_loops face)) s,
     map (fun loop => WriteFaceInfo (loop_record loop)) (face_loops face)) /\
  n_faces (stats_ (self (with_faces_added (List.length (face_loops face)) s))) =
    n_faces (stats_ (self s)) + 1 + List.length (arr_items (face_inner_loops face)) /\
  Forall (fun loop => has_single_loop_ (loop_record loop) = true) (face_loops face).
Proof.
  intros K. unfold face_ok in K.
  apply andb_prop in K. destruct K as [K Kinner].
  apply andb_prop in K. destruct K as [K Karr].
  apply andb_prop in K. destruct K as [Kq Kouter].
  split; [|split].
  - unfold WriteFace, face_loops. cbn [SUIsInvalid].
    unfold SUFaceGetOuterLoop, on_ref, answer. rewrite Kq.
    cbn [SU_CALL fst snd]. rewrite bind_lift_Returned.
    rewrite (loop_face_info_ok _ Kouter). rewrite bind_lift_Returned.
    rewrite bind_update, bind_call.
    rewrite (get_num_ok face face_inner_loops 0 Karr).
    cbn [SU_CALL fst snd]. rewrite bind_lift_Returned.
    destruct (0 <? List.length (arr_items (face_inner_loops face))) eqn:L.
    + rewrite (get_items_ok face face_inner_loops _ Karr L).
      cbn [SU_CALL fst snd]. rewrite bind_lift_Returned. cbn [items_of].
      rewrite (inner_loops_written _ Kinner). cbn [after List.length map].
      rewrite <- with_faces_added_S. reflexivity.
    + apply Nat.ltb_ge in L.
      destruct (arr_items (face_inner_loops face)); [|simpl in L; lia].
      destruct s as [[o m w st im] k]. reflexivity.
  - unfold with_faces_added, face_loops. cbn [self stats_ on_stats_ List.length].
    rewrite n_faces_iter. lia.
  - apply Forall_forall. intros loop _. reflexivity.
Qed.

End Faces.

(* ================================================================== *)
(** ** The inheritance manager along the traversal *)
(* ================================================================== *)

Section Inheritance.

Context {IM : Type} `{CInheritanceManager IM}.
Local Open Scope exporter_scope.

Lemma restores_ret {A} (a : A) : restores_manager (@ret IM A a).
Proof. intros s a' s' cs E. inversion E; subst. reflexivity. Qed.

Lemma restores_lift {A} (x : Outcome A) : restores_manager (@lift IM A x).
Proof. intros s a' s' cs E. inversion E; subst. reflexivity. Qed.

Lemma restores_this : restores_manager (@this IM).
Proof. intros s a' s' cs E. inversion E; subst. reflexivity. Qed.

Lemma restores_call (c : Call) : restores_manager (@call IM c).
Proof. intros s a' s' cs E. inversion E; subst. reflexivity. Qed.

Lemma restores_update (g : @CXmlExporter IM -> CXmlExporter) :
  (forall e, inheritance_manager_ (g e) = inheritance_manager_ e) ->
  restores_manager (update g).
Proof. intros G s a' s' cs E. inversion E; subst. apply G. Qed.

Lemma restores_bind {A B} (m : @M IM A) (f : A -> M B) :
  restores_manager m -> (forall a, restores_manager (f a)) ->
  restores_manager (bind m f).
Proof.
  intros Hm Hf s b s' cs E. apply bind_Returned_inv in E.
  destruct E as (a & s1 & c1 & c2 & E1 & E2 & _).
  rewrite (Hf _ _ _ _ _ E2). exact (Hm _ _ _ _ E1).
Qed.

Lemma restores_for_upto {A} (body : A -> @M IM unit) (xs : list A) :
  (forall x, In x xs -> restores_manager (body x)) ->
  forall n, restores_manager (for_upto body n xs).
Proof.
  induction xs as [|x xs IH]; intros Hb n.
  - destruct n; apply restores_ret.
  - destruct n as [|n]; [apply restores_ret|]. simpl.
    apply restores_bind.
    + apply Hb. left. reflexivity.
    + intros _. apply IH. intros x' Hx'. apply Hb. right. exact Hx'.
Qed.

Lemma restores_ext {A} (m1 m2 : @M IM A) :
  (forall s, m1 s = m2 s) -> restores_manager m2 -> restores_manager m1.
Proof. intros E K s a s' cs R. rewrite E in R. eauto. Qed.

Ltac restores_auto :=
  repeat (cbv zeta; first
    [ apply restores_ret | apply restores_lift | apply restores_this
    | apply restores_call
    | apply restores_update; intros ?; reflexivity
    | apply restores_bind; [| intros ?]
    | apply restores_for_upto; intros ? _
    | match goal with
      | |- restores_manager (if ?b then _ else _) => destruct b
      | |- restores_manager (match ?x with _ => _ end) => destruct x
      end ]).

(** Entering an element, doing something that restores the manager, and
    leaving the element restores the manager, on a scope stack. *)
Lemma restores_scoped (e : Element) (m : @M IM unit) :
  StackLike IM -> restores_manager m ->
  restores_manager
    (update (on_inheritance_manager_ (PushElement e)) ;;
     m ;;
     update (on_inheritance_manager_ PopElement)).
Proof.
  intros Stack Hm s a s' cs E. rewrite bind_update in E.
  apply bind_Returned_inv in E. destruct E as ([] & s1 & c1 & c2 & E1 & E2 & _).
  apply Hm in E1. inversion E2; subst. cbn in *. rewrite E1. apply Stack.
Qed.

Lemma WriteFace_restores face : restores_manager (@WriteFace IM face).
Proof. unfold WriteFace. restores_auto. Qed.

Lemma WriteEntities_instances_restores entities :
  restores_manager (@WriteEntities_instances IM entities).
Proof. unfold WriteEntities_instances. restores_auto. Qed.

Lemma WriteEntities_faces_restores entities :
  StackLike IM -> restores_manager (@WriteEntities_faces IM _ entities).
Proof.
  intros Stack. unfold WriteEntities_faces.
  apply restores_bind; [apply restores_this|]. intros e.
  destruct (export_faces (options_ e)); [|apply restores_ret].
  apply restores_bind; [apply restores_lift|]. intros n.
  destruct (0 <? n); [|apply restores_ret].
  apply restores_bind; [apply restores_lift|]. intros n'.
  apply restores_for_upto. intros face _.
  apply restores_scoped; [exact Stack | apply WriteFace_restores].
Qed.

(** C9.  With an inheritance manager that is a scope stack (leaving an
    element restores the context that was current when it was entered),
    every element pushed by [WriteEntities] for a group or a face has been
    popped when [WriteEntities] returns: the inheritance manager is then
    exactly as it was before the call. *)
Theorem WriteEntities_balances_the_manager (entities : SUEntitiesRef)
  (s s' : @State IM) (cs : list Call) :
  StackLike IM ->
  WriteEntities entities s = (Returned tt, s', cs) ->
  inheritance_manager_ (self s') = inheritance_manager_ (self s).
Proof.
  intros Stack. revert s s' cs.
  assert (K : forall a : unit, restores_manager (@WriteEntities IM _ entities)).
  2:{ intros s s' cs E. exact (K tt _ _ _ _ E). }
  intros _. destruct entities as [ents|]; [|apply restores_lift].
  induction ents as [ents IH] using Entities_nested_ind.
  eapply restores_ext; [intros s; apply WriteEntities_unfold|].
  unfold WriteEntities_body.
  apply restores_bind; [apply WriteEntities_instances_restores|]. intros _.
  apply restores_bind; [|intros _; apply WriteEntities_faces_restores; exact Stack].
  unfold WriteEntities_groups.
  apply restores_bind; [apply restores_lift|]. intros n.
  destruct (0 <? n); [|apply restores_ret].
  apply restores_bind; [apply restores_lift|]. intros n'.
  apply restores_for_upto. intros group Hin.
  intros s a s' cs E.
  destruct (SU_CALL (SUGroupGetEntities group None)) as [group_entities|] eqn:Q;
    [rewrite bind_lift_Returned in E | rewrite bind_lift_Thrown in E; discriminate E].
  apply on_ref_Returned in Q. destruct Q as (g & -> & _ & Q).
  assert (R : restores_manager (@WriteEntities IM _ group_entities)).
  { destruct group_entities as [group_ents|]; [|apply restores_lift].
    exact (IH g group_ents Hin Q). }
  rewrite bind_update in E. run_call E.
  apply bind_Returned_inv in E. destruct E as ([] & s1 & c1 & c2 & E1 & E & ->).
  apply R in E1. cbn in E1.
  run_lift E ET. run_call E. run_call E. inversion E; subst.
  cbn. rewrite E1. apply Stack.
Qed.

End Inheritance.

(* ================================================================== *)
(** ** The order of the records *)
(* ================================================================== *)

Section Order.

Context {IM : Type} `{CInheritanceManager IM}.
Local Open Scope exporter_scope.

(** The calls of a loop that returns are the calls of its rounds, one after
    the other. *)
Lemma for_upto_chunks {A} (body : A -> @M IM unit) (Q : list Call -> Prop)
  (xs : list A) :
  (forall x, In x xs ->
             forall s s' cs, body x s = (Returned tt, s', cs) -> Q cs) ->
  forall n s s' cs,
    for_upto body n xs s = (Returned tt, s', cs) ->
    exists chunks, cs = List.concat chunks /\ Forall Q chunks.
Proof.
  induction xs as [|x xs IH]; intros Hb n s s' cs E.
  - exists []. destruct n; inversion E; auto.
  - destruct n as [|n]; [exists []; inversion E; auto|].
    simpl in E. apply bind_Returned_inv in E.
    destruct E as ([] & s1 & c1 & c2 & E1 & E2 & ->).
    apply IH in E2; [|intros x' Hx'; apply Hb; right; exact Hx'].
    destruct E2 as (chunks & -> & Qs).
    exists (c1 :: chunks). split; [reflexivity|].
    constructor; [|exact Qs]. eapply Hb; [left; reflexivity | exact E1].
Qed.

Lemma group_blocks_of_chunks (chunks : list (list Call)) :
  Forall (fun cs => exists group, cs = group_block group /\
                                  entities_records (fst group)) chunks ->
  exists groups,
    List.concat chunks = flat_map group_block groups /\
    Forall (fun group => entities_records (fst group)) groups.
Proof.
  induction 1 as [|cs chunks (group & -> & R) _ (groups & E & Rs)].
  - exists []. auto.
  - exists (group :: groups). simpl. rewrite E. auto.
Qed.

Lemma WriteEntities_faces_only_faces o m w k entities :
  keeps (frame o m w k) (only is_WriteFaceInfo) (@WriteEntities_faces IM _ entities).
Proof.
  unfold WriteEntities_faces.
  assert (F : forall face, keeps (frame o m w k) (only is_WriteFaceInfo)
                             (@WriteFace IM face)) by (intros; apply WriteFace_keeps).
  keeps_auto.
Qed.

(** The records of every entities collection come in the order of the spec,
    and so do those of the collections nested in its groups. *)
Lemma WriteEntities_records (entities : SUEntitiesRef) (s s' : @State IM) cs :
  WriteEntities entities s = (Returned tt, s', cs) -> entities_records cs.
Proof.
  destruct entities as [ents|]; [|discriminate].
  revert s s' cs. induction ents as [ents IH] using Entities_nested_ind.
  intros s s' cs E. rewrite WriteEntities_unfold in E.
  unfold WriteEntities_body in E.
  apply bind_Returned_inv in E. destruct E as ([] & s1 & ci & ? & Ei & E & ->).
  apply bind_Returned_inv in E. destruct E as ([] & s2 & cg & cf & Eg & Ef & ->).
  destruct (WriteEntities_instances_keeps _ (frame_intro s) Ei) as [_ Pi].
  destruct (WriteEntities_faces_only_faces _ (frame_intro s2) Ef) as [_ Pf].
  assert (G : exists groups,
             cg = flat_map group_block groups /\
             Forall (fun group => entities_records (fst group)) groups).
  { unfold WriteEntities_groups in Eg. run_lift_as Eg En n.
    destruct (0 <? n); [|inversion Eg; exists []; auto].
    run_lift_as Eg En' n'.
    eapply for_upto_chunks in Eg.
    - destruct Eg as (chunks & -> & Q). apply group_blocks_of_chunks. exact Q.
    - intros group Hin s0 s0' c0 E. cbv beta in E.
      run_lift_as E Q group_entities.
      apply on_ref_Returned in Q. destruct Q as (g & -> & _ & Q).
      rewrite bind_update in E. run_call E.
      apply bind_Returned_inv in E.
      destruct E as ([] & s3 & inner & ? & Einner & E & ->).
      destruct group_entities as [group_ents|]; [|discriminate Einner].
      apply (IH g group_ents Hin Q) in Einner.
      run_lift_as E Et transform. run_call E. run_call E. inversion E; subst.
      exists (inner, transform). split; [reflexivity | exact Einner]. }
  destruct G as (groups & -> & Rg).
  constructor; assumption.
Qed.

Lemma get_num_Returned {O A} (ref : option O) (arr : O -> SUArray A) out n :
  SU_CALL (get_num ref arr out) = Returned n ->
  n = List.length (items_of ref arr).
Proof.
  intros E. apply SU_CALL_Returned in E. destruct ref as [obj|]; [|discriminate].
  unfold get_num in E. cbn [items_of].
  destruct (is_SU_ERROR_NONE (arr_num_status (arr obj))) eqn:Q.
  - inversion E. reflexivity.
  - inversion E as [[E1 E2]]. rewrite E1 in Q. discriminate Q.
Qed.

Lemma get_items_Returned {O A} (ref : option O) (arr : O -> SUArray A) out n :
  SU_CALL (get_items ref arr (List.length (items_of ref arr)) out) = Returned n ->
  n = List.length (items_of ref arr).
Proof.
  intros E. apply SU_CALL_Returned in E. destruct ref as [obj|]; [|discriminate].
  unfold get_items in E. cbn [items_of] in *.
  destruct (is_SU_ERROR_NONE (arr_get_status (arr obj))) eqn:Q.
  - inversion E. apply Nat.min_id.
  - inversion E as [[E1 E2]]. rewrite E1 in Q. discriminate Q.
Qed.

Lemma WriteLayers_Returned (s s' : @State IM) cs :
  WriteLayers s = (Returned tt, s', cs) -> layers_shape (options_ (self s)) cs.
Proof.
  intros E. unfold WriteLayers in E. rewrite bind_this in E.
  unfold layers_shape. destruct (export_layers (options_ (self s))).
  2:{ inversion E. reflexivity. }
  run_call E. run_lift_as E En n.
  apply bind_Returned_inv in E. destruct E as ([] & s1 & records & ? & El & E & ->).
  inversion E; subst. exists records. split; [reflexivity|].
  destruct (0 <? n); [|inversion El; constructor].
  run_lift_as El En' n'.
  eapply (keeps_for_upto (I := frame _ _ _ _)) in El.
  - apply El.
  - intros layer _. apply WriteLayer_keeps.
  - apply frame_intro.
Qed.

Lemma WriteMaterial_Returned material (s s' : @State IM) cs :
  WriteMaterial material s = (Returned tt, s', cs) ->
  cs = [] \/
  exists info, GetMaterialInfo material = Returned info /\
               cs = [WriteMaterialInfo info].
Proof.
  unfold WriteMaterial. destruct (SUIsInvalid material).
  - intros E. inversion E. auto.
  - intros E. run_lift_as E Ei info. inversion E. right. exists info. auto.
Qed.

Lemma WriteMaterials_Returned (s s' : @State IM) cs :
  WriteMaterials s = (Returned tt, s', cs) ->
  materials_shape (options_ (self s)) (model_ (self s)) cs.
Proof.
  intros E. unfold WriteMaterials in E. rewrite bind_this in E.
  unfold materials_shape, materials_section_present, is_material_of,
    material_sources.
  set (o := options_ (self s)) in *. set (m := model_ (self s)) in *.
  destruct (export_materials o); [|inversion E; reflexivity].
  cbn [andb]. destruct (export_materials_by_layer o).
  - run_lift_as E En n. apply get_num_Returned in En. subst n.
    destruct (0 <? List.length (items_of m model_layers)); [|inversion E; reflexivity].
    run_lift_as E En' n'. run_call E.
    apply bind_Returned_inv in E.
    destruct E as ([] & s1 & records & ? & El & E & ->).
    inversion E; subst. exists records. split; [reflexivity|].
    eapply for_upto_chunks in El.
    + destruct El as (chunks & -> & Q). apply Forall_concat. exact Q.
    + intros layer Hin s0 s0' c0 E0. cbv beta in E0.
      destruct (SULayerGetMaterial layer None) as [st material] eqn:Q.
      assert (D : st = SU_ERROR_NONE \/ c0 = []).
      { destruct st; auto; inversion E0; auto. }
      destruct D as [-> | ->]; [|constructor].
      apply WriteMaterial_Returned in E0.
      destruct E0 as [-> | (info & Gi & ->)]; constructor; [|constructor].
      exists material, info. repeat split; [|exact Gi].
      apply in_flat_map. exists layer. split; [exact Hin|].
      rewrite Q. left. reflexivity.
  - run_lift_as E En n. apply get_num_Returned in En. subst n.
    destruct (0 <? List.length (items_of m model_materials)); [|inversion E; reflexivity].
    run_call E. run_lift_as E En' n'.
    apply bind_Returned_inv in E.
    destruct E as ([] & s1 & records & ? & El & E & ->).
    inversion E; subst. exists records. split; [reflexivity|].
    eapply for_upto_chunks in El.
    + destruct El as (chunks & -> & Q). apply Forall_concat. exact Q.
    + intros material Hin s0 s0' c0 E0.
      apply WriteMaterial_Returned in E0.
      destruct E0 as [-> | (info & Gi & ->)]; constructor; [|constructor].
      exists material, info. auto.
Qed.

Lemma WriteGeometry_Returned (s s' : @State IM) cs :
  WriteGeometry s = (Returned tt, s', cs) ->
  geometry_shape (options_ (self s)) cs.
Proof.
  intros E. unfold WriteGeometry in E. rewrite bind_this in E.
  unfold geometry_shape.
  destruct (export_faces (options_ (self s)) || export_edges (options_ (self s)));
    [|inversion E; reflexivity].
  run_lift_as E Ee model_entities. run_call E.
  apply bind_Returned_inv in E. destruct E as ([] & s1 & inside & ? & Ei & E & ->).
  inversion E; subst. exists inside. split; [reflexivity|]. split.
  - eapply WriteEntities_records. exact Ei.
  - eapply (WriteEntities_keeps (k := polls s)); [|exact Ei]. apply frame_intro.
Qed.






End Order.

(* ================================================================== *)
(** ** The document written by a successful [Convert] *)
(* ================================================================== *)

Section Document.

Context {IM : Type} `{CInheritanceManager IM}.
Variable on_cancel : CancelPolicy.
Variable host : Host.
Local Open Scope exporter_scope.

(** [Convert] returns [true] only through the end of its [try] block. *)
Lemma Convert_true_inv src dst cb (s s' : @State IM) calls :
  Convert on_cancel host src dst cb s = (Returned true, s', calls) ->
  exists s1 calls1,
    Convert_try on_cancel host src dst cb s =
      (Returned (EndOfTry true), s1, calls1) /\
    calls = calls1 ++ release_calls (self s1) /\ s' = released s1.
Proof.
  intros E.
  destruct (Convert_try on_cancel host src dst cb s) as [[r s1] calls1] eqn:T.
  pose proof T as C. apply Convert_try_calls in C.
  destruct C as [(sx & -> & _) | [[-> | ->] _]].
  - erewrite Convert_when_return in E by exact T. discriminate E.
  - erewrite Convert_when_thrown in E by exact T. discriminate E.
  - erewrite Convert_when_end_of_try in E by exact T. inversion E; subst.
    exists s1, calls1. auto.
Qed.

(** The parts of a successful run and their shapes. *)
Lemma Convert_true_export src dst cb (s s' : @State IM) calls :
  Convert on_cancel host src dst cb s = (Returned true, s', calls) ->
  exists x : Export IM,
    exports host src dst cb s x /\
    calls = export_calls src dst x ++ release_calls (self (at_close x)) /\
    Forall (only is_texture_call) (ex_textures x) /\
    layers_shape (options_ (self s)) (ex_layers x) /\
    materials_shape (options_ (self s)) (ex_model x) (ex_materials x) /\
    geometry_shape (options_ (self s)) (ex_geometry x).
Proof.
  intros E. apply Convert_true_inv in E.
  destruct E as (s1 & calls1 & T & -> & ->).
  apply Convert_try_end in T. destruct T as (_ & x & X & -> & S1).
  exists x. rewrite S1. split; [exact X|]. split; [reflexivity|].
  unfold exports in X. cbv zeta in X.
  destruct X as (_ & _ & _ & _ & _ & _ & _ & _ & _ & _ &
                 Ft & Fl & Fm & Fg & _ & (st & Et) & (sl & El) & (sm & Em) & Eg).
  repeat split.
  - exact (proj2 (WriteTextureFiles_keeps host Ft Et)).
  - apply WriteLayers_Returned in El.
    destruct Fl as (O & _). rewrite O in El. exact El.
  - apply WriteMaterials_Returned in Em.
    destruct Fm as (O & M & _). rewrite O, M in Em. exact Em.
  - apply WriteGeometry_Returned in Eg.
    destruct Fg as (O & _). rewrite O in Eg. exact Eg.
Qed.

Lemma progress_parts_callback cb (s : @State IM) src dst x :
  exports host src dst cb s x ->
  Forall (only is_callback_call) (ex_progress_0 x) /\
  Forall (only is_callback_call) (ex_progress_10 x) /\
  Forall (only is_callback_call) (ex_progress_20 x) /\
  Forall (only is_callback_call) (ex_progress_60 x) /\
  Forall (only is_callback_call) (ex_is_cancelled x) /\
  Forall (only is_callback_call) (ex_progress_100 x).
Proof.
  unfold exports. cbv zeta.
  intros (_ & _ & _ & _ & P0 & P1 & P2 & P3 & P5 & P4 & _).
  repeat split; try (eapply progress_calls_callback; eassumption).
  destruct cb; destruct P4 as [-> _]; repeat constructor.
Qed.

Lemma layers_shape_section o cs :
  layers_shape o cs ->
  section_of StartLayers (Forall (only is_WriteLayerInfo)) cs.
Proof.
  unfold layers_shape, section_of. destruct (export_layers o); eauto.
Qed.

Lemma is_material_of_record o m c :
  is_material_of o m c -> only is_WriteMaterialInfo c.
Proof. intros (material & info & -> & _). reflexivity. Qed.

Lemma materials_shape_section o m cs :
  materials_shape o m cs ->
  section_of StartMaterials (Forall (only is_WriteMaterialInfo)) cs.
Proof.
  unfold materials_shape, section_of.
  destruct (export_materials o && materials_section_present o m); auto.
  intros (records & -> & F). right. exists records. split; [reflexivity|].
  eapply Forall_impl; [|exact F]. intros c. apply is_material_of_record.
Qed.

Lemma geometry_shape_section o cs :
  geometry_shape o cs -> section_of StartGeometry entities_records cs.
Proof.
  unfold geometry_shape, section_of.
  destruct (export_faces o || export_edges o); auto.
  intros (inside & -> & R & _). eauto.
Qed.

(** C8.  The calls of a successful [Convert] are, in this order: the opening
    calls, the texture files, the file header, the layers section, the
    materials section, the geometry section, [Close] and the release calls,
    with calls on the progress callback in between and nothing else.  The
    geometry section holds the records of the model's entities, which come
    in the order of [entities_records]: component-instance records first,
    then each group (its start, the records of its nested entities in that
    same order, its transformation and the return to the parent), then the
    face records. *)
Theorem records_in_fixed_order src dst cb (s s' : @State IM) calls :
  Convert on_cancel host src dst cb s = (Returned true, s', calls) ->
  exists x : Export IM,
    calls = export_calls src dst x ++ release_calls (self (at_close x)) /\
    Forall (only is_callback_call)
      (ex_progress_0 x ++ ex_progress_10 x ++ ex_progress_20 x ++
       ex_progress_60 x ++ ex_is_cancelled x ++ ex_progress_100 x) /\
    Forall (only is_texture_call) (ex_textures x) /\
    section_of StartLayers (Forall (only is_WriteLayerInfo)) (ex_layers x) /\
    section_of StartMaterials (Forall (only is_WriteMaterialInfo))
      (ex_materials x) /\
    section_of StartGeometry entities_records (ex_geometry x).
Proof.
  intros E. apply Convert_true_export in E.
  destruct E as (x & X & -> & Ft & Sl & Sm & Sg).
  exists x. split; [reflexivity|].
  destruct (progress_parts_callback X) as (P0 & P1 & P2 & P3 & P4 & P5).
  repeat split.
  - repeat match goal with
           | |- Forall _ (_ ++ _) => apply Forall_app; split
           end; assumption.
  - exact Ft.
  - eapply layers_shape_section; eauto.
  - eapply materials_shape_section; eauto.
  - eapply geometry_shape_section; eauto.
Qed.

Lemma export_parts_writing cb (s : @State IM) src dst x :
  exports host src dst cb s x ->
  Forall (only is_writing_call) (ex_textures x) /\
  Forall (only is_writing_call) (ex_layers x) /\
  Forall (only is_writing_call) (ex_materials x) /\
  Forall (only is_writing_call) (ex_geometry x).
Proof.
  unfold exports. cbv zeta.
  intros (_ & _ & _ & _ & _ & _ & _ & _ & _ & _ &
          Ft & Fl & Fm & Fg & _ & (st & Et) & (sl & El) & (sm & Em) & Eg).
  repeat split.
  - eapply Forall_impl; [|exact (proj2 (WriteTextureFiles_keeps host Ft Et))].
    weaken_calls.
  - eapply Forall_impl; [|exact (proj2 (WriteLayers_keeps Fl El))]. weaken_calls.
  - eapply Forall_impl; [|exact (proj2 (WriteMaterials_keeps Fm Em))]. weaken_calls.
  - eapply Forall_impl; [|exact (proj2 (WriteGeometry_keeps Fg Eg))]. weaken_calls.
Qed.

Lemma percents_app (a b : list Call) : percents (a ++ b) = percents a ++ percents b.
Proof. apply flat_map_app. Qed.

Lemma percents_writing (cs : list Call) :
  Forall (only is_writing_call) cs -> percents cs = [].
Proof.
  induction 1 as [|c cs Pc _ IH]; [reflexivity|].
  destruct c; try discriminate Pc; exact IH.
Qed.

Lemma percents_release (e : @CXmlExporter IM) : percents (release_calls e) = [].
Proof. unfold release_calls. destruct (texture_writer_ e), (model_ e); reflexivity. Qed.

Lemma percents_progress cb k percent message cs :
  progress_calls cb k percent message cs ->
  percents cs = [] \/ percents cs = [percent].
Proof.
  unfold progress_calls. destruct cb as [c|].
  - intros [-> | ->]; cbn; auto.
  - intros ->. auto.
Qed.

Lemma labelled_app (a b : list Call) :
  labelled a = true -> labelled b = true -> labelled (a ++ b) = true.
Proof.
  intros La Lb. induction a as [|c a IH]; [exact Lb|].
  destruct c; cbn [labelled app] in *; try (apply IH; exact La).
  destruct a as [|c' a]; [discriminate La|].
  cbn [app]. destruct c'; try discriminate La. apply IH. exact La.
Qed.

Lemma labelled_writing (cs : list Call) :
  Forall (only is_writing_call) cs -> labelled cs = true.
Proof.
  induction 1 as [|c cs Pc _ IH]; [reflexivity|].
  destruct c; try discriminate Pc; exact IH.
Qed.

Lemma labelled_release (e : @CXmlExporter IM) : labelled (release_calls e) = true.
Proof. unfold release_calls. destruct (texture_writer_ e), (model_ e); reflexivity. Qed.

Lemma labelled_progress cb k percent message cs :
  progress_calls cb k percent message cs -> labelled cs = true.
Proof.
  unfold progress_calls. destruct cb as [c|].
  - intros [-> | ->]; reflexivity.
  - intros ->. reflexivity.
Qed.

(** C5.  In a run of [Convert] that completes, the percentages sent to the
    progress callback are strictly increasing, each lies between 0 and 100,
    and each is immediately followed by its phase label. *)
Theorem progress_is_increasing src dst cb (s s' : @State IM) calls :
  Convert on_cancel host src dst cb s = (Returned true, s', calls) ->
  StronglySorted (fun a b => PrimFloat.ltb a b = true) (percents calls) /\
  Forall (fun p => PrimFloat.leb 0 p = true /\ PrimFloat.leb p 100 = true)
    (percents calls) /\
  labelled calls = true.
Proof.
  intros E. apply Convert_true_export in E.
  destruct E as (x & X & -> & _).
  destruct (export_parts_writing X) as (Wt & Wl & Wm & Wg).
  unfold exports in X. cbv zeta in X.
  destruct X as (_ & _ & _ & _ & P0 & P1 & P2 & P3 & P5 & P4 & _).
  assert (L4 : labelled (ex_is_cancelled x) = true /\ percents (ex_is_cancelled x) = []).
  { destruct cb; destruct P4 as [-> _]; split; reflexivity. }
  destruct L4 as [L4 Q4].
  assert (Hh : labelled [header_call (ex_version x)] = true /\
               percents [header_call (ex_version x)] = []).
  { destruct (ex_version x) as [[? ?] ?]. split; reflexivity. }
  destruct Hh as [Lh Qh].
  pose proof P0 as Q0. apply percents_progress in Q0.
  pose proof P1 as Q1. apply percents_progress in Q1.
  pose proof P2 as Q2. apply percents_progress in Q2.
  pose proof P3 as Q3. apply percents_progress in Q3.
  pose proof P5 as Q5. apply percents_progress in Q5.
  apply percents_writing in Wt as Vt. apply percents_writing in Wl as Vl.
  apply percents_writing in Wm as Vm. apply percents_writing in Wg as Vg.
  assert (Q : percents (export_calls src dst x ++ release_calls (self (at_close x)))
              = percents (ex_progress_0 x) ++ percents (ex_progress_10 x) ++
                percents (ex_progress_20 x) ++ percents (ex_progress_60 x) ++
                percents (ex_progress_100 x)).
  { unfold export_calls. rewrite !percents_app.
    rewrite Vt, Vl, Vm, Vg, percents_release, Q4, Qh.
    cbn [percents flat_map app]. rewrite !app_nil_r. reflexivity. }
  rewrite Q.
  split; [|split].
  - destruct Q0 as [-> | ->]; destruct Q1 as [-> | ->];
    destruct Q2 as [-> | ->]; destruct Q3 as [-> | ->];
    destruct Q5 as [-> | ->];
    cbn [app]; repeat (constructor; try reflexivity).
  - destruct Q0 as [-> | ->]; destruct Q1 as [-> | ->];
    destruct Q2 as [-> | ->]; destruct Q3 as [-> | ->];
    destruct Q5 as [-> | ->];
    cbn [app]; repeat (constructor; try (split; reflexivity)).
  - unfold export_calls.
    repeat match goal with
           | |- labelled (_ ++ _) = true => apply labelled_app
           end;
      first [ assumption
            | apply labelled_writing; assumption
            | apply labelled_release
            | eapply labelled_progress; eassumption
            | reflexivity ].
Qed.

(** C6.  In a run of [Convert] that completes with a callback, the flag of
    the callback is read at the start of each of the five progress reports,
    that is before the textures, between the phases and after [Close], and
    once more after the geometry has been written; the value read there is
    the argument of [Close], which follows at once.  Between these reads
    only writing calls are made.  Without a callback the file is closed
    with [false]. *)
Theorem cancellation_checked_between_phases src dst cb (s s' : @State IM) calls :
  Convert on_cancel host src dst cb s = (Returned true, s', calls) ->
  exists x : Export IM,
    calls = export_calls src dst x ++ release_calls (self (at_close x)) /\
    Forall (only is_writing_call)
      (ex_textures x ++ header_call (ex_version x) :: ex_layers x ++
       ex_materials x ++ ex_geometry x) /\
    flag_reads cb (polls s) x.
Proof.
  intros E. apply Convert_true_export in E.
  destruct E as (x & X & -> & _).
  exists x. split; [reflexivity|].
  destruct (export_parts_writing X) as (Wt & Wl & Wm & Wg).
  unfold exports in X. cbv zeta in X.
  destruct X as (_ & _ & _ & _ & P0 & P1 & P2 & P3 & P5 & P4 & _).
  split.
  - apply Forall_app. split; [exact Wt|]. constructor.
    + destruct (ex_version x) as [[? ?] ?]. reflexivity.
    + repeat match goal with
             | |- Forall _ (_ ++ _) => apply Forall_app; split
             end; assumption.
  - unfold flag_reads, progress_calls, polled, checks_flag in *.
    destruct cb as [callback|].
    + destruct P4 as [E4 C4]. rewrite C4 in E4.
      repeat split; try assumption;
        match goal with
        | P : ?part = _ \/ ?part = _ |- exists rest, ?part = _ =>
            destruct P as [-> | ->]; eexists; reflexivity
        end.
    + destruct P4 as [-> C4]. rewrite P0, P1, P2, P3, P5. auto.
Qed.








End Document.

(* ================================================================== *)
(** ** Edges: what [GetEdgeInfo] takes from the inherited context *)
(* ================================================================== *)

Section Edges.

Context {IM : Type} `{CInheritanceManager IM}.
Local Open Scope outcome_scope.

Lemma obind_Returned_inv {A B} (m : Outcome A) (f : A -> Outcome B) (b : B) :
  obind m f = Returned b -> exists a, m = Returned a /\ f a = Returned b.
Proof. destruct m as [a|]; [eauto | discriminate]. Qed.

(** C7, as the code has it.  When [GetEdgeInfo] returns: [has_layer_] is
    the [export_layers] toggle; under that toggle the inherited current
    layer only decides whether a layer name is recorded at all: when it is
    valid, the name recorded is that of the layer [SUDrawingElementGetLayer]
    reports for the edge itself, and when it is invalid no name is recorded;
    [has_color_] is the [export_materials] toggle, and under it the color
    recorded is the inheritance manager's current edge color, the edge's own
    material not being looked at. *)
Theorem GetEdgeInfo_layer_and_color (e : @CXmlExporter IM) (edge : SUEdgeRef)
  (info : XmlEdgeInfo) :
  GetEdgeInfo e edge = Returned info ->
  ei_has_layer_ info = export_layers (options_ e) /\
  (export_layers (options_ e) = true ->
   match GetCurrentLayer (inheritance_manager_ e) with
   | Some current =>
       exists own,
         SUDrawingElementGetLayer SUEdgeToDrawingElement_ edge (Some current)
           = (SU_ERROR_NONE, own) /\
         GetLayerName own = Returned (ei_layer_name_ info)
   | None => ei_layer_name_ info = EmptyString
   end) /\
  (export_layers (options_ e) = false -> ei_layer_name_ info = EmptyString) /\
  ei_has_color_ info = export_materials (options_ e) /\
  (export_materials (options_ e) = true ->
   ei_color_ info = GetCurrentEdgeColor (inheritance_manager_ e)) /\
  (export_materials (options_ e) = false -> ei_color_ info = default_SUColor).
Proof.
  unfold GetEdgeInfo. intros E.
  apply obind_Returned_inv in E. destruct E as (layer_name & El & E).
  cbv zeta in E.
  apply obind_Returned_inv in E. destruct E as (start_vertex & _ & E).
  apply obind_Returned_inv in E. destruct E as (p1 & _ & E).
  apply obind_Returned_inv in E. destruct E as (end_vertex & _ & E).
  apply obind_Returned_inv in E. destruct E as (p2 & _ & E).
  inversion E; subst info; clear E. cbn.
  destruct (export_layers (options_ e)), (export_materials (options_ e));
    repeat split; try discriminate; try reflexivity; intros _;
    try (inversion El; reflexivity);
    (destruct (GetCurrentLayer (inheritance_manager_ e)) as [current|];
     cbn in El;
     [ apply obind_Returned_inv in El; destruct El as (own & Eo & En);
       apply SU_CALL_Returned in Eo; exists own; auto
     | inversion El; reflexivity ]).
Qed.

End Edges.

(* ================================================================== *)
(** ** Which SDK calls raise *)
(* ================================================================== *)

Section Raising.

Context {IM : Type} `{CInheritanceManager IM}.
Variable on_cancel : CancelPolicy.
Variable host : Host.
Local Open Scope exporter_scope.



End Raising.

(* ================================================================== *)
(** ** Names and materials *)
(* ================================================================== *)

Section Names.

Local Open Scope outcome_scope.






End Names.

Section Materials.

Local Open Scope outcome_scope.

(** What a wrapped query on a valid reference comes to. *)
Lemma SU_CALL_on_ref {O A} (obj : O) (get : O -> Query A) (out : A) :
  SU_CALL (on_ref (Some obj) get out) =
    if is_SU_ERROR_NONE (q_status (get obj)) then Returned (q_value (get obj))
    else Thrown.
Proof.
  unfold on_ref, answer. destruct (q_status (get obj)); reflexivity.
Qed.

(** What a query that is not wrapped comes to, on a valid reference. *)
Lemma optional_on_ref {O A B} (obj : O) (get : O -> Query A) (out : A)
  (yes : A -> B) (no : B) :
  match on_ref (Some obj) get out with
  | (SU_ERROR_NONE, v) => yes v
  | _ => no
  end = if is_SU_ERROR_NONE (q_status (get obj)) then yes (q_value (get obj))
        else no.
Proof.
  unfold on_ref, answer. destruct (q_status (get obj)); reflexivity.
Qed.

Ltac material_queries :=
  unfold GetMaterialInfo, GetMaterialName, SUMaterialGetName, SUMaterialGetType,
    SUMaterialGetUseOpacity, SUMaterialGetOpacity, SUMaterialGetTexture,
    SUMaterialGetColor, SUTextureGetFileName, SUTextureGetDimensions;
  rewrite !SU_CALL_on_ref, !optional_on_ref;
  cbn [material_answers texture_answers q_status q_value SUMaterialGetName_
       SUMaterialGetType_ SUMaterialGetColor_ SUMaterialGetUseOpacity_
       SUMaterialGetOpacity_ SUMaterialGetTexture_ SUTextureGetFileName_
       SUTextureGetDimensions_].

(** X2.  [GetMaterialInfo], built without assertions, throws exactly when
    the material is invalid or the SDK fails on one of: the name, the type,
    the use of opacity, the opacity of a material that uses it, the file
    name or the dimensions of the texture found for a textured material.  A
    failing color query and a failing texture query never make it throw. *)
Theorem GetMaterialInfo_throws_iff (material : SUMaterialRef) :
  GetMaterialInfo material = Thrown <-> material_answers material = false.
Proof.
  destruct material as [[[sn n] [st t] [sc c] [su u] [so o] [sx x]]|];
    [|split; reflexivity].
  material_queries.
  destruct (is_SU_ERROR_NONE sn); [|split; reflexivity].
  destruct (is_SU_ERROR_NONE st); [|split; reflexivity].
  cbn [obind andb].
  destruct (if is_colored t then _ else _) as [has_color color].
  destruct (is_SU_ERROR_NONE su); [|split; reflexivity].
  cbn [obind andb].
  destruct u; cbn [negb orb];
    [destruct (is_SU_ERROR_NONE so); [|split; reflexivity]|];
    cbn [obind andb];
    (destruct (is_textured t); cbn [andb negb orb obind];
     [destruct (is_SU_ERROR_NONE sx); cbn [negb orb obind];
      [destruct x as [[[sf f] [sd [[[wd ht] ss] ts]]]|];
       [rewrite !SU_CALL_on_ref; cbn [texture_answers q_status q_value
          SUTextureGetFileName_ SUTextureGetDimensions_];
        destruct (is_SU_ERROR_NONE sf); [|split; reflexivity];
        destruct (is_SU_ERROR_NONE sd); [|split; reflexivity]|] |] |]);
    cbn; split; intros E; try discriminate E; try reflexivity.
Qed.

(** X3.  What the record of a material holds when [GetMaterialInfo] returns
    it: the name; a color exactly for a colored or colorized material whose
    color the SDK gives; an opacity exactly when the material uses one; a
    texture path and scales exactly for a textured or colorized material
    whose texture the SDK gives.  So the color of a purely textured material
    is never recorded, nor the texture of a purely colored one. *)
Theorem GetMaterialInfo_record (mat : Material) (info : XmlMaterialInfo) :
  GetMaterialInfo (Some mat) = Returned info ->
  let type := q_value (SUMaterialGetType_ mat) in
  mi_name_ info = utf8 (q_value (SUMaterialGetName_ mat)) /\
  mi_has_color_ info =
    is_colored type && is_SU_ERROR_NONE (q_status (SUMaterialGetColor_ mat)) /\
  (mi_has_color_ info = true ->
   mi_color_ info = q_value (SUMaterialGetColor_ mat)) /\
  mi_has_alpha_ info = q_value (SUMaterialGetUseOpacity_ mat) /\
  (mi_has_alpha_ info = true ->
   mi_alpha_ info = q_value (SUMaterialGetOpacity_ mat)) /\
  mi_has_texture_ info =
    is_textured type && is_SU_ERROR_NONE (q_status (SUMaterialGetTexture_ mat)) /\
  (mi_has_texture_ info = true ->
   exists texture width height,
     q_value (SUMaterialGetTexture_ mat) = Some texture /\
     mi_texture_path_ info = utf8 (q_value (SUTextureGetFileName_ texture)) /\
     q_value (SUTextureGetDimensions_ texture) =
       (width, height, mi_texture_sscale_ info, mi_texture_tscale_ info)).
Proof.
  destruct mat as [[sn n] [st t] [sc c] [su u] [so o] [sx x]].
  material_queries. intros E.
  destruct (is_SU_ERROR_NONE sn); [|discriminate E].
  destruct (is_SU_ERROR_NONE st); [|discriminate E].
  cbn [obind] in E.
  destruct (is_SU_ERROR_NONE su);
    [|destruct (if is_colored t then _ else _); discriminate E].
  destruct t, (is_SU_ERROR_NONE sc), (is_SU_ERROR_NONE sx), u;
    cbn [obind is_colored is_textured] in E;
    try (destruct (is_SU_ERROR_NONE so); [|discriminate E]);
    try (destruct x as [[[sf f] [sd [[[wd ht] ss] ts]]]|]; [|discriminate E];
         rewrite !SU_CALL_on_ref in E;
         cbn [q_status q_value SUTextureGetFileName_ SUTextureGetDimensions_] in E;
         destruct (is_SU_ERROR_NONE sf); [|discriminate E];
         destruct (is_SU_ERROR_NONE sd); [|discriminate E]);
    cbn in E; inversion E; subst info; cbn; repeat split;
    try discriminate; intros _; eexists _, _, _; repeat split.
Qed.

End Materials.

(* ================================================================== *)
(** ** Loops over the vectors of the SDK *)
(* ================================================================== *)

Section Loops.

Context {IM : Type} `{CInheritanceManager IM}.
Local Open Scope exporter_scope.

Lemma bind_assoc {A B C} (m : @M IM A) (f : A -> M B) (g : B -> M C) s :
  bind (bind m f) g s = bind m (fun a => bind (f a) g) s.
Proof.
  unfold bind. destruct (m s) as [[[a|] s1] c1]; [|reflexivity].
  destruct (f a s1) as [[[b|] s2] c2]; cbn [after]; [|reflexivity].
  destruct (g b s2) as [[r s3] c3]. cbn [after]. rewrite app_assoc. reflexivity.
Qed.

(** The calls of a loop over a whole vector that returns are the calls of
    its rounds, one round for each cell, in order. *)
Lemma for_upto_Forall2 {A} (body : A -> @M IM unit) (R : A -> list Call -> Prop)
  (xs : list A) :
  (forall x, In x xs ->
             forall s s' cs, body x s = (Returned tt, s', cs) -> R x cs) ->
  forall n s s' cs,
    for_upto body n xs s = (Returned tt, s', cs) ->
    List.length xs <= n ->
    exists chunks, cs = List.concat chunks /\ Forall2 R xs chunks.
Proof.
  induction xs as [|x xs IH]; intros Hb n s s' cs E L.
  - exists []. destruct n; inversion E; auto.
  - destruct n as [|n]; [simpl in L; lia|].
    simpl in E, L. apply bind_Returned_inv in E.
    destruct E as ([] & s1 & c1 & c2 & E1 & E2 & ->).
    apply IH in E2; [| intros x' Hx'; apply Hb; right; exact Hx' | lia].
    destruct E2 as (chunks & -> & Rs).
    exists (c1 :: chunks). split; [reflexivity|].
    constructor; [|exact Rs]. eapply Hb; [left; reflexivity | exact E1].
Qed.

(** Rounds that write one record for a valid reference and nothing for an
    invalid one: the records are those of the valid references, in order. *)
Lemma records_of_valid_refs {O R} (write : R -> Call) (recorded : option O -> R -> Prop)
  (refs : list (option O)) (chunks : list (list Call)) :
  Forall2 (fun (ref : option O) (cs : list Call) =>
             (ref = None /\ cs = []) \/
             (exists r, ref <> None /\ cs = [write r] /\ recorded ref r))
    refs chunks ->
  exists rs, List.concat chunks = map write rs /\
             Forall2 recorded (valid_refs refs) rs.
Proof.
  induction 1 as [|ref cs refs chunks [[-> ->] | (r & V & -> & Rr)] _ (rs & E & Rs)].
  - exists []. split; [reflexivity | constructor].
  - exists rs. auto.
  - exists (r :: rs). cbn [List.concat map app]. rewrite E.
    split; [reflexivity|]. destruct ref; [|contradiction].
    cbn. constructor; assumption.
Qed.

(** Rounds that each write the records of some references: the records are
    those of all the references, in order. *)
Lemma records_of_flat_map {A O R} (write : R -> Call)
  (recorded : option O -> R -> Prop) (sources : A -> list (option O))
  (xs : list A) (chunks : list (list Call)) :
  Forall2 (fun (x : A) (cs : list Call) =>
             exists rs, cs = map write rs /\
                        Forall2 recorded (valid_refs (sources x)) rs)
    xs chunks ->
  exists rs, List.concat chunks = map write rs /\
             Forall2 recorded (valid_refs (flat_map sources xs)) rs.
Proof.
  induction 1 as [|x cs xs chunks (r1 & -> & R1) _ (rs & E & Rs)].
  - exists []. split; [reflexivity | constructor].
  - exists (r1 ++ rs). cbn [List.concat flat_map]. rewrite E, map_app.
    split; [reflexivity|]. unfold valid_refs. rewrite filter_app.
    apply Forall2_app; assumption.
Qed.

(** Rounds that each write one record: one record for each cell, in order. *)
Lemma records_one_each {A R} (write : R -> Call) (recorded : A -> R -> Prop)
  (xs : list A) (chunks : list (list Call)) :
  Forall2 (fun (x : A) (cs : list Call) =>
             exists r, cs = [write r] /\ recorded x r)
    xs chunks ->
  exists rs, List.concat chunks = map write rs /\ Forall2 recorded xs rs.
Proof.
  induction 1 as [|x cs xs chunks (r & -> & Rr) _ (rs & E & Rs)].
  - exists []. split; [reflexivity | constructor].
  - exists (r :: rs). cbn [List.concat map app]. rewrite E.
    split; [reflexivity | constructor; assumption].
Qed.

(** What a loop that collects one value for each cell returns. *)
Lemma ofold_upto_collects {A P B} (get : A -> Outcome P) (h : P -> B)
  (xs : list A) :
  forall n acc out,
    ofold_upto (fun acc x => obind (get x) (fun p => Returned (acc ++ [h p])))
      n xs acc = Returned out ->
    List.length xs <= n ->
    exists ps, out = acc ++ map h ps /\
               Forall2 (fun x p => get x = Returned p) xs ps.
Proof.
  induction xs as [|x xs IH]; intros n acc out E L.
  - exists []. destruct n; inversion E; rewrite app_nil_r; auto.
  - destruct n as [|n]; [simpl in L; lia|]. simpl in E, L.
    destruct (get x) as [p|] eqn:G; [|discriminate E]. cbn [obind] in E.
    apply IH in E; [|lia]. destruct E as (ps & -> & F).
    exists (p :: ps). rewrite <- app_assoc. split; [reflexivity|].
    constructor; assumption.
Qed.

End Loops.

(* ================================================================== *)
(** ** The statistics and the records *)
(* ================================================================== *)

Create HintDb tallied discriminated.

Section Statistics.

Context {IM : Type} `{CInheritanceManager IM}.
Local Open Scope exporter_scope.

Lemma count_calls_app (f : Call -> bool) (a b : list Call) :
  count_calls f (a ++ b) = count_calls f a + count_calls f b.
Proof. unfold count_calls. rewrite filter_app, length_app. reflexivity. Qed.

Lemma count_calls_cons (f : Call -> bool) (c : Call) (cs : list Call) :
  count_calls f (c :: cs) = (if f c then 1 else 0) + count_calls f cs.
Proof. unfold count_calls. cbn [filter]. destruct (f c); reflexivity. Qed.

Lemma count_calls_none (f g : Call -> bool) (cs : list Call) :
  Forall (only g) cs -> (forall c, g c = true -> f c = false) ->
  count_calls f cs = 0.
Proof.
  intros F N. induction F as [|c cs Pc _ IH]; [reflexivity|].
  unfold count_calls in *. cbn [filter]. rewrite (N c Pc). exact IH.
Qed.

Lemma count_calls_map {R} (write : R -> Call) (f : Call -> bool) (rs : list R) :
  (forall r, f (write r) = true) ->
  count_calls f (map write rs) = List.length rs.
Proof.
  intros W. unfold count_calls. induction rs as [|r rs IH]; [reflexivity|].
  cbn [map filter]. rewrite W. cbn [List.length]. rewrite IH. reflexivity.
Qed.

Lemma tallies_refl (s : @State IM) : tallies s s [].
Proof. unfold tallies, count_calls. cbn. repeat split; lia. Qed.

Lemma tallies_trans (s s1 s2 : @State IM) c1 c2 :
  tallies s s1 c1 -> tallies s1 s2 c2 -> tallies s s2 (c1 ++ c2).
Proof.
  unfold tallies. rewrite !count_calls_app.
  intros (L1 & F1 & E1 & N1) (L2 & F2 & E2 & N2). repeat split; lia.
Qed.

(** Calls that are no counted record, made without a change of the
    statistics. *)
Lemma tallies_uncounted (s s' : @State IM) cs :
  stats_ (self s') = stats_ (self s) -> Forall (only is_uncounted) cs ->
  tallies s s' cs.
Proof.
  intros St F. unfold tallies. rewrite St.
  rewrite !(count_calls_none _ F); [repeat split; lia | | |];
    intros c; unfold is_uncounted;
    destruct (is_WriteLayerInfo c), (is_WriteFaceInfo c), (is_edge_record c);
    (reflexivity || discriminate).
Qed.

Lemma tallied_ret {A} (a : A) : tallied (@ret IM A a).
Proof. intros s r s' cs E. inversion E; subst. apply tallies_refl. Qed.

Lemma tallied_lift {A} (x : Outcome A) : tallied (@lift IM A x).
Proof. intros s r s' cs E. inversion E; subst. apply tallies_refl. Qed.

Lemma tallied_this : tallied (@this IM).
Proof. intros s r s' cs E. inversion E; subst. apply tallies_refl. Qed.

Lemma tallied_call (c : Call) : is_uncounted c = true -> tallied (@call IM c).
Proof.
  intros U s r s' cs E. inversion E; subst.
  apply tallies_uncounted; [reflexivity | repeat constructor; exact U].
Qed.

Lemma tallied_update (g : @CXmlExporter IM -> CXmlExporter) :
  (forall e, n_layers (stats_ (g e)) = n_layers (stats_ e) /\
             n_faces (stats_ (g e)) = n_faces (stats_ e) /\
             n_edges (stats_ (g e)) = n_edges (stats_ e)) ->
  tallied (update g).
Proof.
  intros G s r s' cs E. inversion E; subst.
  destruct (G (self s)) as (L & F & Ed).
  unfold tallies, count_calls. cbn. repeat split; lia.
Qed.

Lemma tallied_bind {A B} (m : @M IM A) (f : A -> M B) :
  tallied m -> (forall a, tallied (f a)) -> tallied (bind m f).
Proof.
  intros Hm Hf s r s' cs E. apply bind_inv in E.
  destruct E as [(a & s1 & c1 & c2 & E1 & E2 & ->) | [-> E1]].
  - eapply tallies_trans; [exact (Hm _ _ _ _ E1) | exact (Hf _ _ _ _ _ E2)].
  - exact (Hm _ _ _ _ E1).
Qed.

Lemma tallied_for_upto {A} (body : A -> @M IM unit) (xs : list A) :
  (forall x, In x xs -> tallied (body x)) ->
  forall n, tallied (for_upto body n xs).
Proof.
  induction xs as [|x xs IH]; intros Hb n.
  - destruct n; apply tallied_ret.
  - destruct n as [|n]; [apply tallied_ret|]. simpl.
    apply tallied_bind.
    + apply Hb. left. reflexivity.
    + intros _. apply IH. intros x' Hx'. apply Hb. right. exact Hx'.
Qed.

Lemma tallied_try_catch {A} (body handler : @M IM A) :
  tallied body -> tallied handler -> tallied (try_catch body handler).
Proof.
  intros Hb Hh s r s' cs E. unfold try_catch in E.
  destruct (body s) as [[[a|] s1] c1] eqn:B.
  - inversion E; subst. exact (Hb _ _ _ _ B).
  - apply after_inv in E. destruct E as (c2 & E & ->).
    eapply tallies_trans; [exact (Hb _ _ _ _ B) | exact (Hh _ _ _ _ E)].
Qed.

Lemma tallied_ext {A} (m1 m2 : @M IM A) :
  (forall s, m1 s = m2 s) -> tallied m2 -> tallied m1.
Proof. intros E K s r s' cs R. rewrite E in R. eauto. Qed.

(** [AddLayer] and [AddFace] are called next to the record they count. *)
Lemma tallied_layer (info : XmlLayerInfo) :
  tallied (update (on_stats_ AddLayer) ;; @call IM (WriteLayerInfo info)).
Proof.
  intros s r s' cs E. rewrite bind_update in E. inversion E; subst.
  unfold tallies, count_calls. cbn. repeat split; lia.
Qed.

Lemma tallied_face {B} (info : XmlFaceInfo) (rest : @M IM B) :
  tallied rest ->
  tallied (update (on_stats_ AddFace) ;; call (WriteFaceInfo info) ;; rest).
Proof.
  intros Hr s r s' cs E. rewrite bind_update, bind_call in E.
  apply after_inv in E. destruct E as (c2 & E & ->).
  apply Hr in E. revert E. unfold tallies. cbn [app].
  rewrite !count_calls_cons. cbn. intros (L & F & Ed & N). repeat split; lia.
Qed.

Lemma tallied_last_face (info : XmlFaceInfo) :
  tallied (update (on_stats_ AddFace) ;; @call IM (WriteFaceInfo info)).
Proof.
  intros s r s' cs E. rewrite bind_update in E. inversion E; subst.
  unfold tallies, count_calls. cbn. repeat split; lia.
Qed.

Ltac tallied_auto :=
  repeat (cbv zeta; first
    [ solve [auto 1 with tallied]
    | apply tallied_ret | apply tallied_lift | apply tallied_this
    | apply tallied_layer | apply tallied_last_face
    | apply tallied_face
    | apply tallied_call; reflexivity
    | apply tallied_update; intros ?; repeat split; reflexivity
    | apply tallied_bind; [| intros ?]
    | apply tallied_for_upto; intros ? _
    | match goal with
      | |- tallied (if ?b then _ else _) => destruct b
      | |- tallied (match ?x with _ => _ end) => destruct x
      end ]).

Lemma WriteTextureFiles_tallied host : tallied (@WriteTextureFiles IM host).
Proof. unfold WriteTextureFiles. tallied_auto. Qed.

Lemma WriteLayer_tallied layer : tallied (@WriteLayer IM layer).
Proof. unfold WriteLayer. tallied_auto. Qed.

#[local] Hint Resolve WriteLayer_tallied : tallied.

Lemma WriteLayers_tallied : tallied (@WriteLayers IM).
Proof. unfold WriteLayers. tallied_auto. Qed.

Lemma WriteMaterial_tallied material : tallied (@WriteMaterial IM material).
Proof. unfold WriteMaterial. tallied_auto. Qed.

#[local] Hint Resolve WriteMaterial_tallied : tallied.

Lemma WriteMaterials_tallied : tallied (@WriteMaterials IM).
Proof. unfold WriteMaterials. tallied_auto. Qed.

Lemma WriteFace_tallied face : tallied (@WriteFace IM face).
Proof. unfold WriteFace. tallied_auto. Qed.

Lemma WriteEntities_instances_tallied entities :
  tallied (@WriteEntities_instances IM entities).
Proof. unfold WriteEntities_instances. tallied_auto. Qed.

#[local] Hint Resolve WriteFace_tallied : tallied.

Lemma WriteEntities_faces_tallied entities :
  tallied (@WriteEntities_faces IM _ entities).
Proof. unfold WriteEntities_faces. tallied_auto. Qed.

#[local] Hint Resolve WriteEntities_instances_tallied WriteEntities_faces_tallied
  : tallied.

Lemma WriteEntities_tallied entities : tallied (@WriteEntities IM _ entities).
Proof.
  destruct entities as [ents|]; [|apply tallied_lift].
  induction ents as [ents IH] using Entities_nested_ind.
  eapply tallied_ext; [intros s; apply WriteEntities_unfold|].
  unfold WriteEntities_body. apply tallied_bind; [tallied_auto|]. intros _.
  apply tallied_bind; [|intros _; tallied_auto].
  unfold WriteEntities_groups. apply tallied_bind; [tallied_auto|]. intros n.
  destruct (0 <? n); [|tallied_auto].
  apply tallied_bind; [tallied_auto|]. intros n'.
  apply tallied_for_upto. intros group Hin.
  destruct (SU_CALL (SUGroupGetEntities group None)) as [group_entities|] eqn:Q.
  2:{ eapply tallied_ext; [intros s; apply bind_lift_Thrown|].
      intros s r s' cs E. inversion E; subst. apply tallies_refl. }
  eapply tallied_ext; [intros s; apply bind_lift_Returned|].
  apply on_ref_Returned in Q. destruct Q as (g & -> & _ & Q).
  apply tallied_bind; [tallied_auto|]. intros _.
  apply tallied_bind; [tallied_auto|]. intros _.
  apply tallied_bind; [|intros _; tallied_auto].
  destruct group_entities as [group_ents|]; [|apply tallied_lift].
  exact (IH g group_ents Hin Q).
Qed.

#[local] Hint Resolve WriteEntities_tallied : tallied.

Lemma WriteGeometry_tallied : tallied (@WriteGeometry IM _).
Proof. unfold WriteGeometry. tallied_auto. Qed.

Lemma ReleaseModelObjects_tallied : tallied (@ReleaseModelObjects IM).
Proof.
  intros s r s' cs E. rewrite ReleaseModelObjects_run in E. inversion E; subst.
  apply tallies_uncounted; [reflexivity|].
  unfold release_calls.
  destruct (SUIsInvalid (texture_writer_ (self s))), (SUIsInvalid (model_ (self s)));
    repeat constructor.
Qed.

Section Progress.

Variable on_cancel : CancelPolicy.
Variable host : Host.

Lemma HandleProgress_tallied cb percent message :
  tallied (@HandleProgress IM on_cancel cb percent message).
Proof.
  intros s r s' cs E. apply HandleProgress_run in E. destruct E as (S' & _ & P).
  apply tallies_uncounted; [rewrite S'; reflexivity|].
  apply progress_calls_callback in P. eapply Forall_impl; [|exact P].
  intros c. destruct c; unfold only; cbn; intros; (reflexivity || discriminate).
Qed.

Lemma IsCancelled_tallied cb : tallied (@IsCancelled IM cb).
Proof.
  intros s r s' cs E. rewrite IsCancelled_run in E.
  destruct cb; inversion E; subst;
    (apply tallies_uncounted; [reflexivity | repeat constructor]).
Qed.

#[local] Hint Resolve WriteTextureFiles_tallied WriteLayers_tallied
  WriteMaterials_tallied WriteGeometry_tallied ReleaseModelObjects_tallied
  HandleProgress_tallied IsCancelled_tallied : tallied.

(** X6.  In every run of [Convert], whether it returns [true], returns
    [false] or fails half-way, the statistics keep step with the records
    written: the layer counter has grown by the number of layer records, the
    face counter by the number of face records, the edge counter has not
    moved and no edge or curve record has been written.  The counters are
    never reset, so they add up over the runs of one exporter. *)
Theorem statistics_count_the_records src dst cb (s s' : @State IM) r calls :
  Convert on_cancel host src dst cb s = (r, s', calls) ->
  tallies s s' calls.
Proof.
  revert s r s' calls. change (tallied (@Convert IM _ on_cancel host src dst cb)).
  unfold Convert. apply tallied_bind; [|intros ?; tallied_auto].
  apply tallied_try_catch.
  - unfold Convert_try. tallied_auto.
  - unfold Convert_catch. tallied_auto.
Qed.

End Progress.

End Statistics.

(* ================================================================== *)
(** ** Layers, materials and component instances, record by record *)
(* ================================================================== *)

Section Records.

Context {IM : Type} `{CInheritanceManager IM}.
Local Open Scope exporter_scope.

Lemma WriteLayer_run layer (s : @State IM) r s' cs :
  WriteLayer layer s = (r, s', cs) ->
  (layer = None /\ r = Returned tt /\ s' = s /\ cs = []) \/
  (layer <> None /\ r = Thrown /\ s' = s /\ cs = []) \/
  (exists info,
      layer <> None /\ r = Returned tt /\ s' = with_layer_added s /\
      cs = [WriteLayerInfo info] /\ layer_recorded layer info).
Proof.
  unfold WriteLayer, layer_recorded. destruct layer as [l|]; cbn [SUIsInvalid].
  2:{ intros E. inversion E. auto. }
  intros E. right.
  assert (V : Some l <> None) by discriminate.
  run_lift_as E En name; [|inversion E; auto].
  unfold SULayerGetMaterial in *. rewrite optional_on_ref in E.
  destruct (is_SU_ERROR_NONE (q_status (SULayerGetMaterial_ l))) eqn:Q.
  - rewrite bind_assoc in E. run_lift_as E Em material_info; [|inversion E; auto].
    rewrite bind_ret in E. run_lift_as E Ev is_visible; [|inversion E; auto].
    rewrite bind_update in E. inversion E; subst. right. eexists.
    split; [exact V|]. split; [reflexivity|]. split; [reflexivity|].
    split; [reflexivity|]. rewrite optional_on_ref, Q. cbn. auto.
  - rewrite bind_ret in E. run_lift_as E Ev is_visible; [|inversion E; auto].
    rewrite bind_update in E. inversion E; subst. right. eexists.
    split; [exact V|]. split; [reflexivity|]. split; [reflexivity|].
    split; [reflexivity|]. rewrite optional_on_ref, Q. cbn. auto.
Qed.



(** X4.  [WriteLayer] writes a record and counts a layer together or not at
    all.  An invalid layer is skipped: nothing is written or counted, and
    nothing is thrown.  For a valid layer, either it throws before anything
    was written or counted, or it returns having written one record, with
    the layer's name and visibility and with its material's info when the
    SDK gives a material, and having counted one layer. *)
Theorem WriteLayer_writes_and_counts_together layer (s : @State IM) r s' cs :
  WriteLayer layer s = (r, s', cs) ->
  (layer = None /\ r = Returned tt /\ s' = s /\ cs = []) \/
  (layer <> None /\ r = Thrown /\ s' = s /\ cs = []) \/
  (exists info,
      layer <> None /\ r = Returned tt /\
      cs = [WriteLayerInfo info] /\ layer_recorded layer info /\
      s' = with_layer_added s /\
      n_layers (stats_ (self s')) = S (n_layers (stats_ (self s)))).
Proof.
  intros E. apply WriteLayer_run in E.
  destruct E as [E | [E | (info & V & R & S' & C & L)]]; auto.
  right. right. exists info. subst s'.
  split; [exact V|]. split; [exact R|]. split; [exact C|]. split; [exact L|].
  split; reflexivity.
Qed.

Lemma get_num_0 {O A} (ref : option O) (arr : O -> SUArray A) :
  (0 <? List.length (items_of ref arr)) = false -> items_of ref arr = [].
Proof.
  intros L. apply Nat.ltb_ge in L.
  destruct (items_of ref arr); [reflexivity | simpl in L; lia].
Qed.

Lemma WriteLayers_run (s s' : @State IM) cs :
  WriteLayers s = (Returned tt, s', cs) ->
  export_layers (options_ (self s)) = true ->
  exists infos,
    cs = StartLayers :: map WriteLayerInfo infos ++ [PopParentNode] /\
    Forall2 layer_recorded
      (valid_refs (items_of (model_ (self s)) model_layers)) infos.
Proof.
  intros E O.
  unfold WriteLayers in E. rewrite bind_this, O in E.
  run_call E. run_lift_as E En n. apply get_num_Returned in En. subst n.
  apply bind_Returned_inv in E. destruct E as ([] & s1 & records & ? & El & E & ->).
  inversion E; subst. clear E.
  assert (R : exists infos,
             records = map WriteLayerInfo infos /\
             Forall2 layer_recorded
               (valid_refs (items_of (model_ (self s)) model_layers)) infos).
  { destruct (0 <? List.length (items_of (model_ (self s)) model_layers)) eqn:L.
    - run_lift_as El En' n'. apply get_items_Returned in En'. subst n'.
      eapply for_upto_Forall2 in El; [| | apply le_n].
      + destruct El as (chunks & -> & F).
        eapply records_of_valid_refs. exact F.
      + intros layer _ s0 s0' c0 E0. apply WriteLayer_run in E0.
        destruct E0 as [(-> & _ & _ & ->) | [(_ & D & _) | (info & V & _ & _ & -> & L')]].
        * left. auto.
        * discriminate D.
        * right. exists info. auto.
    - inversion El; subst. rewrite (get_num_0 _ _ L). exists []. split; constructor. }
  destruct R as (infos & -> & F). exists infos. auto.
Qed.

Lemma WriteMaterial_run material (s : @State IM) s' cs :
  WriteMaterial material s = (Returned tt, s', cs) ->
  s' = s /\
  ((material = None /\ cs = []) \/
   (exists info, material <> None /\ cs = [WriteMaterialInfo info] /\
                 GetMaterialInfo material = Returned info)).
Proof.
  unfold WriteMaterial. destruct material as [mat|]; cbn [SUIsInvalid]; intros E.
  - run_lift_as E Ei info. inversion E; subst. split; [reflexivity|].
    right. exists info. repeat split. discriminate.
  - inversion E. auto.
Qed.

(** The phases that write materials and component instances read the
    object and never assign to it. *)
Lemma WriteMaterials_same_state (s0 : @State IM) :
  keeps (fun s => s = s0) (only any_call) (@WriteMaterials IM).
Proof.
  assert (W : forall material,
             keeps (fun s => s = s0) (only any_call) (@WriteMaterial IM material)).
  { intros material. unfold WriteMaterial. keeps_auto. }
  unfold WriteMaterials. keeps_auto.
Qed.

Lemma WriteEntities_instances_same_state entities (s0 : @State IM) :
  keeps (fun s => s = s0) (only any_call) (@WriteEntities_instances IM entities).
Proof. unfold WriteEntities_instances. keeps_auto. Qed.

Lemma WriteMaterials_run (s s' : @State IM) cs :
  WriteMaterials s = (Returned tt, s', cs) ->
  let o := options_ (self s) in
  let m := model_ (self s) in
  if export_materials o && materials_section_present o m then
    exists infos,
      cs = StartMaterials :: map WriteMaterialInfo infos ++ [PopParentNode] /\
      Forall2 (fun material info => GetMaterialInfo material = Returned info)
        (valid_refs (material_sources o m)) infos
  else cs = [].
Proof.
  intros E o m.
  unfold WriteMaterials in E. rewrite bind_this in E.
  unfold materials_section_present, material_sources. fold o m in E |- *.
  destruct (export_materials o); [|inversion E; reflexivity].
  cbn [andb]. destruct (export_materials_by_layer o).
  - run_lift_as E En n. apply get_num_Returned in En. subst n.
    destruct (0 <? List.length (items_of m model_layers)); [|inversion E; reflexivity].
    run_lift_as E En' n'. apply get_items_Returned in En'. subst n'. run_call E.
    apply bind_Returned_inv in E.
    destruct E as ([] & s1 & records & ? & El & E & ->).
    inversion E; subst. clear E.
    eapply for_upto_Forall2 with
              (R := fun (layer : SULayerRef) (cs : list Call) =>
                      exists infos,
                        cs = map WriteMaterialInfo infos /\
                        Forall2 (fun material info =>
                                   GetMaterialInfo material = Returned info)
                          (valid_refs
                             (match SULayerGetMaterial layer None with
                              | (SU_ERROR_NONE, material) => [material]
                              | _ => []
                              end)) infos) in El; [| | apply le_n].
    + destruct El as (chunks & -> & F).
      apply records_of_flat_map with
        (write := WriteMaterialInfo)
        (recorded := fun material info => GetMaterialInfo material = Returned info)
        (sources := fun layer => match SULayerGetMaterial layer None with
                                 | (SU_ERROR_NONE, material) => [material]
                                 | _ => []
                                 end) in F.
      destruct F as (infos & -> & F).
      exists infos. split; [reflexivity | exact F].
    + intros layer _ s0 s0' c0 E0. cbv beta in E0 |- *.
      destruct (SULayerGetMaterial layer None) as [st material].
      assert (D : st = SU_ERROR_NONE \/ (c0 = [] /\ st <> SU_ERROR_NONE)).
      { destruct st; auto; right; (split; [inversion E0; reflexivity | discriminate]). }
      destruct D as [-> | [-> N]].
      * apply WriteMaterial_run in E0.
        destruct E0 as (_ & [[-> ->] | (info & V & -> & G)]).
        -- exists []. split; [reflexivity | constructor].
        -- exists [info]. split; [reflexivity|].
           destruct material; [|contradiction]. cbn. repeat constructor. exact G.
      * exists []. split; [reflexivity|]. destruct st; try constructor.
        contradiction.
  - run_lift_as E En n. apply get_num_Returned in En. subst n.
    destruct (0 <? List.length (items_of m model_materials)); [|inversion E; reflexivity].
    run_call E. run_lift_as E En' n'. apply get_items_Returned in En'. subst n'.
    apply bind_Returned_inv in E.
    destruct E as ([] & s1 & records & ? & El & E & ->).
    inversion E; subst. clear E.
    eapply for_upto_Forall2 with
      (R := fun (material : SUMaterialRef) (cs : list Call) =>
              (material = None /\ cs = []) \/
              (exists info, material <> None /\ cs = [WriteMaterialInfo info] /\
                            GetMaterialInfo material = Returned info))
      in El; [| | apply le_n].
    + destruct El as (chunks & -> & F).
      apply records_of_valid_refs with
        (write := WriteMaterialInfo)
        (recorded := fun material info => GetMaterialInfo material = Returned info)
        in F.
      destruct F as (infos & -> & F).
      exists infos. split; [reflexivity | exact F].
    + intros material _ s0 s0' c0 E0. apply WriteMaterial_run in E0.
      destruct E0 as (_ & [[-> ->] | (info & V & -> & G)]); [left; auto|].
      right. exists info. auto.
Qed.

(** X5.  When [WriteLayers] returns under [export_layers], the layers
    section holds exactly one record for each valid layer reference of the
    model, in the model's order, invalid references being skipped; a model
    without layers gets an empty section.  The layer counter has grown by
    the number of records. *)
Theorem WriteLayers_one_record_per_valid_layer (s s' : @State IM) cs :
  WriteLayers s = (Returned tt, s', cs) ->
  export_layers (options_ (self s)) = true ->
  exists infos,
    cs = StartLayers :: map WriteLayerInfo infos ++ [PopParentNode] /\
    Forall2 layer_recorded
      (valid_refs (items_of (model_ (self s)) model_layers)) infos /\
    n_layers (stats_ (self s')) = n_layers (stats_ (self s)) + List.length infos.
Proof.
  intros E O. destruct (WriteLayers_tallied _ E) as (T & _).
  apply WriteLayers_run in E; [|exact O]. destruct E as (infos & -> & F).
  exists infos. split; [reflexivity|]. split; [exact F|].
  rewrite T. f_equal. cbn [app]. rewrite count_calls_cons, count_calls_app.
  rewrite count_calls_map by reflexivity. cbn. lia.
Qed.

(** X7.  When [WriteMaterials] returns, the materials section holds exactly
    one record for each valid material it draws from, in order: the
    materials of the layers (one for every layer that has one, so a material
    shared by two layers is written twice) when materials go by layer, the
    materials of the model otherwise.  Layers without a material and invalid
    references are skipped, and without anything to draw from there is no
    section at all.  The exporter itself is left as it was: materials are
    not counted in the statistics. *)
Theorem WriteMaterials_one_record_per_source (s s' : @State IM) cs :
  WriteMaterials s = (Returned tt, s', cs) ->
  let o := options_ (self s) in
  let m := model_ (self s) in
  s' = s /\
  if export_materials o && materials_section_present o m then
    exists infos,
      cs = StartMaterials :: map WriteMaterialInfo infos ++ [PopParentNode] /\
      Forall2 (fun material info => GetMaterialInfo material = Returned info)
        (valid_refs (material_sources o m)) infos
  else cs = [].
Proof.
  intros E o m. split.
  - exact (proj1 (WriteMaterials_same_state eq_refl E)).
  - apply WriteMaterials_run in E. exact E.
Qed.

Lemma WriteEntities_instances_run entities (s s' : @State IM) cs :
  WriteEntities_instances entities s = (Returned tt, s', cs) ->
  s' = s /\
  exists infos,
    cs = map WriteComponentInstanceInfo infos /\
    Forall2 instance_recorded (items_of entities ents_instances) infos.
Proof.
  intros E.
  split; [exact (proj1 (@WriteEntities_instances_same_state entities s s
                          _ _ _ eq_refl E))|].
  unfold WriteEntities_instances in E.
  run_lift_as E En n. apply get_num_Returned in En. subst n.
  destruct (0 <? List.length (items_of entities ents_instances)) eqn:L.
  2:{ inversion E; subst. rewrite (get_num_0 _ _ L). exists []. split; constructor. }
  run_lift_as E En' n'. apply get_items_Returned in En'. subst n'.
  eapply for_upto_Forall2 with
    (R := fun (instance : SUComponentInstanceRef) (cs : list Call) =>
            exists info, cs = [WriteComponentInstanceInfo info] /\
                         instance_recorded instance info)
    in E; [| | apply le_n].
  - destruct E as (chunks & -> & F). apply records_one_each. exact F.
  - intros instance _ s0 s0' c0 E0. cbv beta in E0.
    run_lift_as E0 Ed definition. cbv zeta in E0.
    unfold instance_recorded.
    destruct (snd (SUDrawingElementGetLayer _ instance None)) as [layer|];
      cbn [SUIsInvalid negb] in E0;
      [run_lift_as E0 El layer_name | rewrite bind_ret in E0];
      (destruct (snd (SUDrawingElementGetMaterial _ instance None)) as [material|];
       cbn [SUIsInvalid negb] in E0;
       [run_lift_as E0 Em material_name | rewrite bind_ret in E0]);
      run_lift_as E0 Ename definition_name; run_lift_as E0 Et transform;
      inversion E0; subst; eexists; (split; [reflexivity|]);
      cbn [ci_layer_name_ ci_material_name_ ci_definition_name_ ci_transform_];
      (split; [eauto | split; [reflexivity | split; first [assumption | reflexivity]]]).
Qed.

(** X8.  When the component-instance block of [WriteEntities] returns, it
    has written exactly one record for each instance of the entities, in
    order, and has left the exporter as it was.  Each record holds the name
    of the instance's definition and its transformation; the layer name and
    the material name are those of the layer and material the SDK gives for
    the instance, and are left empty when it gives none.  There is no guard
    for an invalid instance: for the block to return, every instance, its
    definition and its transformation must be readable. *)
Theorem WriteEntities_instances_one_record_each entities (s s' : @State IM) cs :
  WriteEntities_instances entities s = (Returned tt, s', cs) ->
  s' = s /\
  exists infos,
    cs = map WriteComponentInstanceInfo infos /\
    Forall2 instance_recorded (items_of entities ents_instances) infos /\
    List.length infos = List.length (items_of entities ents_instances).
Proof.
  intros E. apply WriteEntities_instances_run in E.
  destruct E as (S' & infos & C & F). split; [exact S'|].
  exists infos. split; [exact C|]. split; [exact F|].
  symmetry. eapply Forall2_length. exact F.
Qed.

End Records.

(* ================================================================== *)
(** ** The nodes of the document *)
(* ================================================================== *)

Create HintDb levels discriminated.

Section Nodes.

Context {IM : Type} `{CInheritanceManager IM}.
Local Open Scope exporter_scope.

Lemma depth_after_app (d : nat) (c1 c2 : list Call) :
  depth_after d (c1 ++ c2) =
    match depth_after d c1 with
    | Some d1 => depth_after d1 c2
    | None => None
    end.
Proof.
  revert d. induction c1 as [|c c1 IH]; intros d; [reflexivity|].
  cbn [app depth_after]. destruct (opens_node c); [apply IH|].
  destruct c; try apply IH. destruct d; [reflexivity | apply IH].
Qed.

Lemma depth_after_level_calls (d : nat) (cs : list Call) :
  Forall (only is_level_call) cs -> depth_after d cs = Some d.
Proof.
  induction 1 as [|c cs Pc _ IH]; [reflexivity|].
  destruct c; try discriminate Pc; exact IH.
Qed.

Lemma levels_calls {A} (a : nat) (m : @M IM A) :
  (forall s r s' cs, m s = (r, s', cs) -> Forall (only is_level_call) cs) ->
  levels a a m.
Proof.
  intros F s r s' cs d E. exists (d + a). split.
  - apply depth_after_level_calls. eapply F. exact E.
  - destruct r; lia.
Qed.

Lemma levels_ret {A} (a : nat) (x : A) : levels a a (@ret IM A x).
Proof. apply levels_calls. intros s r s' cs E. inversion E. constructor. Qed.

Lemma levels_lift {A} (a : nat) (x : Outcome A) : levels a a (@lift IM A x).
Proof. apply levels_calls. intros s r s' cs E. inversion E. constructor. Qed.

Lemma levels_this (a : nat) : levels a a (@this IM).
Proof. apply levels_calls. intros s r s' cs E. inversion E. constructor. Qed.

Lemma levels_update (a : nat) (g : @CXmlExporter IM -> CXmlExporter) :
  levels a a (update g).
Proof. apply levels_calls. intros s r s' cs E. inversion E. constructor. Qed.

Lemma levels_call (a : nat) (c : Call) :
  is_level_call c = true -> levels a a (@call IM c).
Proof.
  intros L. apply levels_calls. intros s r s' cs E. inversion E.
  repeat constructor. exact L.
Qed.

Lemma levels_open (a : nat) (c : Call) :
  opens_node c = true -> levels a (S a) (@call IM c).
Proof.
  intros O s r s' cs d E. inversion E; subst. exists (d + S a).
  cbn [depth_after]. rewrite O. split; [f_equal; lia | reflexivity].
Qed.

Lemma levels_pop (a : nat) : levels (S a) a (@call IM PopParentNode).
Proof.
  intros s r s' cs d E. inversion E; subst. exists (d + a).
  replace (d + S a) with (S (d + a)) by lia. split; reflexivity.
Qed.

Lemma levels_bind {A B} (a b c : nat) (m : @M IM A) (f : A -> M B) :
  levels a b m -> (forall x, levels b c (f x)) -> levels a c (bind m f).
Proof.
  intros Hm Hf s r s' cs d E. apply bind_inv in E.
  destruct E as [(x & s1 & c1 & c2 & E1 & E2 & ->) | [-> E1]].
  - destruct (Hm _ _ _ _ d E1) as (d1 & D1 & ->).
    destruct (Hf x _ _ _ _ d E2) as (d2 & D2 & R).
    exists d2. rewrite depth_after_app, D1. auto.
  - exact (Hm _ _ _ _ d E1).
Qed.

Lemma levels_for_upto {A} (a : nat) (body : A -> @M IM unit) (xs : list A) :
  (forall x, In x xs -> levels a a (body x)) ->
  forall n, levels a a (for_upto body n xs).
Proof.
  induction xs as [|x xs IH]; intros Hb n.
  - destruct n; apply levels_ret.
  - destruct n as [|n]; [apply levels_ret|]. simpl.
    eapply levels_bind.
    + apply Hb. left. reflexivity.
    + intros _. apply IH. intros x' Hx'. apply Hb. right. exact Hx'.
Qed.

Lemma levels_ext {A} (a b : nat) (m1 m2 : @M IM A) :
  (forall s, m1 s = m2 s) -> levels a b m2 -> levels a b m1.
Proof. intros E K s r s' cs d R. rewrite E in R. eauto. Qed.

Ltac levels_auto :=
  repeat (cbv zeta; first
    [ solve [auto 1 with levels]
    | apply levels_ret | apply levels_lift | apply levels_this
    | apply levels_update
    | apply levels_pop
    | apply levels_open; reflexivity
    | apply levels_call; reflexivity
    | eapply levels_bind; [| intros ?]
    | apply levels_for_upto; intros ? _
    | match goal with
      | |- levels _ _ (if ?b then _ else _) => destruct b
      | |- levels _ _ (match ?x with _ => _ end) => destruct x
      end ]).

Lemma WriteTextureFiles_levels host a : levels a a (@WriteTextureFiles IM host).
Proof. unfold WriteTextureFiles. levels_auto. Qed.

Lemma WriteLayer_levels layer a : levels a a (@WriteLayer IM layer).
Proof. unfold WriteLayer. levels_auto. Qed.

Lemma WriteMaterial_levels material a : levels a a (@WriteMaterial IM material).
Proof. unfold WriteMaterial. levels_auto. Qed.

Lemma WriteFace_levels face a : levels a a (@WriteFace IM face).
Proof. unfold WriteFace. levels_auto. Qed.

#[local] Hint Resolve WriteLayer_levels WriteMaterial_levels WriteFace_levels
  : levels.

Lemma WriteLayers_levels a : levels a a (@WriteLayers IM).
Proof. unfold WriteLayers. levels_auto. Qed.

Lemma WriteMaterials_levels a : levels a a (@WriteMaterials IM).
Proof. unfold WriteMaterials. levels_auto. Qed.

Lemma WriteEntities_instances_levels entities a :
  levels a a (@WriteEntities_instances IM entities).
Proof. unfold WriteEntities_instances. levels_auto. Qed.

Lemma WriteEntities_faces_levels entities a :
  levels a a (@WriteEntities_faces IM _ entities).
Proof. unfold WriteEntities_faces. levels_auto. Qed.

#[local] Hint Resolve WriteEntities_instances_levels WriteEntities_faces_levels
  : levels.

Lemma WriteEntities_levels entities : forall a, levels a a (@WriteEntities IM _ entities).
Proof.
  destruct entities as [ents|]; [|intros a; apply levels_lift].
  induction ents as [ents IH] using Entities_nested_ind. intros a.
  eapply levels_ext; [intros s; apply WriteEntities_unfold|].
  unfold WriteEntities_body. eapply levels_bind; [levels_auto|]. intros _.
  eapply levels_bind; [|intros _; levels_auto].
  unfold WriteEntities_groups. eapply levels_bind; [levels_auto|]. intros n.
  destruct (0 <? n); [|levels_auto].
  eapply levels_bind; [levels_auto|]. intros n'.
  apply levels_for_upto. intros group Hin.
  destruct (SU_CALL (SUGroupGetEntities group None)) as [group_entities|] eqn:Q.
  2:{ eapply levels_ext; [intros s; apply bind_lift_Thrown|].
      apply levels_calls. intros s r s' cs E. inversion E. constructor. }
  eapply levels_ext; [intros s; apply bind_lift_Returned|].
  apply on_ref_Returned in Q. destruct Q as (g & -> & _ & Q).
  eapply levels_bind; [levels_auto|]. intros _.
  eapply levels_bind; [levels_auto|]. intros _.
  eapply levels_bind; [|intros _; levels_auto].
  destruct group_entities as [group_ents|]; [|apply levels_lift].
  exact (IH g group_ents Hin Q (S a)).
Qed.

#[local] Hint Resolve WriteEntities_levels : levels.

Lemma WriteGeometry_levels a : levels a a (@WriteGeometry IM _).
Proof. unfold WriteGeometry. levels_auto. Qed.

Lemma release_calls_level (e : @CXmlExporter IM) :
  Forall (only is_level_call) (release_calls e).
Proof.
  unfold release_calls.
  destruct (SUIsInvalid (texture_writer_ e)), (SUIsInvalid (model_ e));
    repeat constructor.
Qed.

Lemma ReleaseModelObjects_levels a : levels a a (@ReleaseModelObjects IM).
Proof.
  apply levels_calls. intros s r s' cs E.
  rewrite ReleaseModelObjects_run in E. inversion E. apply release_calls_level.
Qed.

Section Progress.

Variable on_cancel : CancelPolicy.
Variable host : Host.

Lemma HandleProgress_levels cb percent message a :
  levels a a (@HandleProgress IM on_cancel cb percent message).
Proof.
  apply levels_calls. intros s r s' cs E.
  apply HandleProgress_run in E. destruct E as (_ & _ & P).
  apply progress_calls_callback in P. eapply Forall_impl; [|exact P].
  intros c. destruct c; unfold only; cbn; intros; (reflexivity || discriminate).
Qed.

Lemma IsCancelled_levels cb a : levels a a (@IsCancelled IM cb).
Proof.
  apply levels_calls. intros s r s' cs E. rewrite IsCancelled_run in E.
  destruct cb; inversion E; repeat constructor.
Qed.

#[local] Hint Resolve WriteTextureFiles_levels WriteLayers_levels
  WriteMaterials_levels WriteGeometry_levels ReleaseModelObjects_levels
  HandleProgress_levels IsCancelled_levels : levels.

Lemma Convert_try_levels src dst cb :
  levels 0 0 (@Convert_try IM _ on_cancel host src dst cb).
Proof. unfold Convert_try. levels_auto. Qed.

(** X9.  In every run of [Convert] the calls on the XML file are well
    nested: [PopParentNode] is never called without a node started before
    it and not yet left.  A run that returns [true] has left every node it
    started; a run that fails may leave nodes started when the file is
    closed. *)
Theorem nodes_are_well_nested src dst cb (s s' : @State IM) r calls :
  Convert on_cancel host src dst cb s = (r, s', calls) ->
  exists d, depth_after 0 calls = Some d /\ (r = Returned true -> d = 0).
Proof.
  intros E.
  destruct (Convert_try on_cancel host src dst cb s) as [[r1 s1] c1] eqn:T.
  destruct (Convert_try_levels _ _ _ _ 0 T) as (d & D & R). cbn [Nat.add] in D.
  destruct r1 as [[exported | exported]|].
  - erewrite Convert_when_return in E by exact T. inversion E; subst r s' calls.
    exists d. auto.
  - erewrite Convert_when_end_of_try in E by exact T. inversion E; subst r s' calls.
    exists d. rewrite depth_after_app, D.
    split; [apply depth_after_level_calls, release_calls_level | auto].
  - erewrite Convert_when_thrown in E by exact T. inversion E; subst r s' calls.
    exists d. rewrite depth_after_app, D. split; [|discriminate].
    apply depth_after_level_calls. constructor; [reflexivity|].
    apply release_calls_level.
Qed.

End Progress.

End Nodes.

(* ================================================================== *)
(** ** The SDK objects held by [Convert], and its early exits *)
(* ================================================================== *)

Section Objects.

Context {IM : Type} `{CInheritanceManager IM}.
Variable on_cancel : CancelPolicy.
Variable host : Host.
Local Open Scope exporter_scope.

Lemma answer_Thrown {A} (q : Query A) (out : A) :
  SU_CALL (answer q out) = Thrown -> is_SU_ERROR_NONE (q_status q) = false.
Proof.
  unfold answer. destruct (is_SU_ERROR_NONE (q_status q)); [discriminate | reflexivity].
Qed.

Lemma SU_CALL_answer_failed {A} (q : Query A) (out : A) :
  is_SU_ERROR_NONE (q_status q) = false -> SU_CALL (answer q out) = Thrown.
Proof.
  unfold answer. intros L. rewrite L.
  destruct (q_status q); (discriminate L || reflexivity).
Qed.

(** The references at the end of the [try] block of [Convert], however it
    ends: the model is the one created, if any; the texture writer is the
    one created, if the block got that far. *)
Lemma Convert_try_objects src dst cb (s s1 : @State IM) r calls1 :
  Convert_try on_cancel host src dst cb s = (r, s1, calls1) ->
  exists sx,
    model_ (self sx) = created_model host src /\
    texture_writer_ (self sx) =
      (if model_loaded host src then created_writer host
       else texture_writer_ (self s)) /\
    match r with
    | Returned (ReturnStatement _) =>
        s1 = released sx /\
        calls1 = [SUInitialize; SUModelCreateFromFile src; SUTextureWriterCreate;
                  Open dst] ++ release_calls (self sx)
    | _ => s1 = sx /\ Forall (fun c => is_release c = false) calls1
    end.
Proof.
  intros E. pose proof E as C. apply Convert_try_calls in C.
  destruct s as [[o m w st im] k].
  unfold Convert_try in E. cbv zeta in E.
  unfold created_model, created_writer, model_loaded.
  run_call E. rewrite bind_update in E. run_call E. rewrite bind_this in E.
  cbn [self model_ set_model_] in E.
  run_lift E EM.
  2:{ inversion E; subst. apply answer_Thrown in EM.
      eexists. split; [|split; [|split; [reflexivity|]]].
      - cbn. unfold answer. rewrite EM. reflexivity.
      - rewrite EM. reflexivity.
      - repeat constructor. }
  apply answer_Returned in EM. rewrite EM.
  cbn [q_status q_value is_SU_ERROR_NONE answer snd].
  rewrite bind_update in E. rewrite bind_update in E.
  run_call E. rewrite bind_this in E.
  cbn [self texture_writer_ set_texture_writer_ set_model_] in E.
  run_lift E EW.
  2:{ inversion E; subst. apply answer_Thrown in EW.
      eexists. split; [|split; [|split; [reflexivity|]]].
      - reflexivity.
      - cbn. unfold answer. rewrite EW. reflexivity.
      - repeat constructor. }
  apply answer_Returned in EW. rewrite EW.
  cbn [q_status q_value is_SU_ERROR_NONE answer snd].
  rewrite bind_update in E. run_call E. cbn in E.
  destruct (file_Open_ host dst) eqn:EO; cbn [negb] in E.
  - match type of E with
    | ?mm ?s0 = _ =>
        assert (K : keeps (in_export o a a0) (only is_export_call) mm)
    end.
    { repeat (first
        [ eapply keeps_weaken; [| apply HandleProgress_keeps]; weaken_calls
        | eapply keeps_weaken; [| apply IsCancelled_keeps]; weaken_calls
        | apply keeps_any_polls; intros ?; eapply keeps_weaken;
          [| first [ apply WriteTextureFiles_keeps | apply WriteLayers_keeps
                   | apply WriteMaterials_keeps | apply WriteGeometry_keeps ]];
          weaken_calls
        | apply keeps_ret
        | apply keeps_call; reflexivity
        | apply keeps_this
        | apply keeps_lift
        | apply keeps_bind; [| intros ?]
        | match goal with
          | |- keeps _ _ (match ?x with _ => _ end) => destruct x
          end ]). }
    match type of E with
    | _ ?s0 = _ => assert (F0 : in_export o a a0 s0) by (repeat split)
    end.
    destruct (K _ _ _ _ F0 E) as [(_ & Hm & Hw) _].
    exists s1. split; [exact Hm|]. split; [exact Hw|].
    destruct C as [(sx & _ & O & _) | [[-> | ->] F]]; [congruence | |]; auto.
  - erewrite bind_Returned in E by apply ReleaseModelObjects_run.
    injection E as <- <- <-.
    exists (mkState (mkCXmlExporter o a a0 st im) k).
    split; [reflexivity|]. split; [reflexivity|]. split; [reflexivity|].
    cbn. rewrite app_nil_r. reflexivity.
Qed.

(** Every run of [Convert] ends with the release of what the exporter holds
    then, and what it holds is what it has created. *)
Lemma Convert_objects src dst cb (s s' : @State IM) r calls :
  Convert on_cancel host src dst cb s = (r, s', calls) ->
  exists sx before,
    s' = released sx /\ calls = before ++ release_calls (self sx) /\
    Forall (fun c => is_release c = false) before /\
    model_ (self sx) = created_model host src /\
    texture_writer_ (self sx) =
      (if model_loaded host src then created_writer host
       else texture_writer_ (self s)).
Proof.
  intros E.
  destruct (Convert_try on_cancel host src dst cb s) as [[r1 s1] c1] eqn:T.
  destruct (Convert_try_objects _ _ _ _ T) as (sx & Hm & Hw & R).
  exists sx. destruct r1 as [[exported | exported]|].
  - destruct R as [-> ->].
    erewrite Convert_when_return in E by exact T. inversion E; subst.
    exists [SUInitialize; SUModelCreateFromFile src; SUTextureWriterCreate;
            Open dst].
    split; [reflexivity|]. split; [reflexivity|].
    split; [repeat constructor | auto].
  - destruct R as [-> F].
    erewrite Convert_when_end_of_try in E by exact T. inversion E; subst.
    exists c1. auto.
  - destruct R as [-> F].
    erewrite Convert_when_thrown in E by exact T. inversion E; subst.
    exists (c1 ++ [Close true]). rewrite <- app_assoc.
    split; [reflexivity|]. split; [reflexivity|]. split; [|auto].
    apply Forall_app. split; [exact F | repeat constructor].
Qed.

Lemma count_calls_no_release (f : Call -> bool) (cs : list Call) :
  Forall (fun c => is_release c = false) cs ->
  (forall c, f c = true -> is_release c = true) ->
  count_calls f cs = 0.
Proof.
  intros F N. induction F as [|c cs Pc _ IH]; [reflexivity|].
  rewrite count_calls_cons, IH. destruct (f c) eqn:Fc; [|reflexivity].
  apply N in Fc. congruence.
Qed.

(** X10.  Started on an exporter that holds no texture writer (as after
    construction, and after every run), [Convert] releases exactly what it
    has created, on every path: the model is released once if
    [SUModelCreateFromFile] gave a valid one and never otherwise; the
    texture writer is released once if the run got to create a valid one
    and never otherwise; and the run ends with both references invalid. *)
Theorem created_objects_are_released_once src dst cb (s s' : @State IM) r calls :
  texture_writer_ (self s) = None ->
  Convert on_cancel host src dst cb s = (r, s', calls) ->
  count_calls is_SUModelRelease calls =
    (if SUIsInvalid (created_model host src) then 0 else 1) /\
  count_calls is_SUTextureWriterRelease calls =
    (if model_loaded host src && negb (SUIsInvalid (created_writer host))
     then 1 else 0) /\
  model_ (self s') = None /\
  texture_writer_ (self s') = None.
Proof.
  intros W E. apply Convert_objects in E.
  destruct E as (sx & before & -> & -> & F & Hm & Hw).
  rewrite W in Hw. rewrite !count_calls_app.
  rewrite !(count_calls_no_release _ F)
    by (intros c; destruct c; (reflexivity || discriminate)).
  unfold release_calls. rewrite Hm, Hw.
  repeat split;
    destruct (model_loaded host src), (created_writer host),
      (created_model host src); reflexivity.
Qed.

(** X11.  When the source file cannot be loaded, [Convert] returns [false]
    after exactly these calls: it never creates a texture writer, never
    opens the destination file and never consults the progress callback; it
    still closes the XML file, as cancelled, although that file was never
    opened, releases a texture writer that the exporter held from before,
    if any, and terminates the SDK.  The exporter is left as it was, with
    both references invalid. *)
Theorem Convert_when_the_model_cannot_be_loaded src dst cb (s : @State IM) :
  model_loaded host src = false ->
  Convert on_cancel host src dst cb s =
    (Returned false, released s,
     [SUInitialize; SUModelCreateFromFile src; Close true] ++
     (if SUIsInvalid (texture_writer_ (self s)) then []
      else [SUTextureWriterRelease]) ++
     [SUTerminate]).
Proof.
  unfold model_loaded. intros L. destruct s as [[o m w st im] k].
  erewrite Convert_when_thrown.
  2:{ unfold Convert_try. cbv zeta.
      rewrite bind_call, bind_update, bind_call, bind_this.
      cbn [self model_ set_model_ polls].
      rewrite (SU_CALL_answer_failed _ _ L), bind_lift_Thrown. reflexivity. }
  unfold released, release_calls. cbn. reflexivity.
Qed.

(** X12.  When the model and the texture writer are created but the
    destination file cannot be opened, [Convert] returns [false] after
    exactly these calls: nothing is written, the progress callback is never
    consulted and the XML file is not closed; what was created is released
    and the SDK is terminated.  The exporter is left as it was, with both
    references invalid. *)
Theorem Convert_when_the_file_cannot_be_opened src dst cb (s : @State IM) :
  model_loaded host src = true ->
  is_SU_ERROR_NONE (q_status (SUTextureWriterCreate_ host)) = true ->
  file_Open_ host dst = false ->
  Convert on_cancel host src dst cb s =
    (Returned false, released s,
     [SUInitialize; SUModelCreateFromFile src; SUTextureWriterCreate; Open dst] ++
     (if SUIsInvalid (created_writer host) then [] else [SUTextureWriterRelease]) ++
     (if SUIsInvalid (created_model host src) then [] else [SUModelRelease]) ++
     [SUTerminate]).
Proof.
  unfold model_loaded, created_writer, created_model, answer.
  intros L W O. rewrite L, W. destruct s as [[o m w st im] k].
  destruct (SUModelCreateFromFile_ host src) as [stm vm] eqn:Qm.
  destruct (SUTextureWriterCreate_ host) as [stw vw] eqn:Qw.
  cbn [q_status q_value snd] in *.
  destruct stm; try discriminate L. destruct stw; try discriminate W.
  erewrite Convert_when_return.
  2:{ unfold Convert_try. cbv zeta.
      rewrite bind_call, bind_update, bind_call, bind_this.
      cbn [self model_ set_model_ polls]. rewrite Qm.
      unfold answer at 1. cbn [q_status q_value is_SU_ERROR_NONE SU_CALL fst snd].
      rewrite bind_lift_Returned, !bind_update, bind_call, bind_this.
      cbn [self texture_writer_ set_texture_writer_ set_model_ polls]. rewrite Qw.
      unfold answer at 1. cbn [q_status q_value is_SU_ERROR_NONE SU_CALL fst snd].
      rewrite bind_lift_Returned, bind_update, bind_call. rewrite O. cbn [negb].
      erewrite bind_Returned by apply ReleaseModelObjects_run.
      cbn. reflexivity. }
  unfold released, release_calls. cbn. rewrite app_nil_r. reflexivity.
Qed.

End Objects.

(* ================================================================== *)
(** ** Textures and faces, also when they fail *)
(* ================================================================== *)

Section Partial.

Context {IM : Type} `{CInheritanceManager IM}.
Local Open Scope exporter_scope.

(** X13.  Without [export_materials], [WriteTextureFiles] does nothing.
    With it, the textures are loaded and their number is stored in the
    statistics, whatever follows; the texture writer is asked to write them
    only when there is at least one, so that a model without textures never
    fails here; and [WriteTextureFiles] throws exactly when there is a
    texture and the writer reports a failure. *)
Theorem WriteTextureFiles_writes_only_when_there_are_textures host
  (s s' : @State IM) r cs :
  WriteTextureFiles host s = (r, s', cs) ->
  let e := self s in
  if export_materials (options_ e) then
    s' = mkState (on_stats_ (set_textures (texture_count e)) e) (polls s) /\
    cs = LoadAllTextures (export_materials_by_layer (options_ e)) ::
         (if 0 <? texture_count e
          then [SUTextureWriterWriteAllTextures (file_GetTextureDirectory_ host)]
          else []) /\
    (r = Thrown <->
     0 < texture_count e /\ write_all_status host e <> SU_ERROR_NONE)
  else r = Returned tt /\ s' = s /\ cs = [].
Proof.
  intros E e. unfold WriteTextureFiles in E. rewrite bind_this in E. fold e in E.
  destruct (export_materials (options_ e)); [|inversion E; auto].
  rewrite bind_call, bind_update in E. unfold texture_count, write_all_status.
  destruct (0 <? match model_ e with
                 | Some m => LoadAllTextures_ m (export_materials_by_layer (options_ e))
                 | None => 0
                 end) eqn:L.
  - rewrite bind_call in E. cbn [after lift app] in E.
    apply Nat.ltb_lt in L.
    destruct (match texture_writer_ e with
              | Some w => SUTextureWriterWriteAllTextures_ w (file_GetTextureDirectory_ host)
              | None => SU_ERROR_INVALID_INPUT
              end) eqn:St;
      cbn in E; inversion E; subst;
      (split; [reflexivity|]); (split; [reflexivity|]);
      (split;
       [ first [ discriminate | intros _; split; [exact L | discriminate] ]
       | first [ reflexivity | intros [_ N]; contradiction ] ]).
  - cbn [after ret app] in E. apply Nat.ltb_ge in L.
    inversion E; subst. split; [reflexivity|]. split; [reflexivity|].
    split; [discriminate|]. intros [P _]. lia.
Qed.

(** The block that fills a face record from a loop yields the loop's record
    or throws. *)
Lemma loop_face_info_Returned (loop : SULoopRef) (info : XmlFaceInfo) :
  loop_face_info loop = Returned info -> info = loop_record loop.
Proof.
  unfold loop_face_info, loop_record. intros E.
  apply obind_Returned_inv in E. destruct E as (n & En & E).
  apply get_num_Returned in En. subst n.
  apply obind_Returned_inv in E. destruct E as (vertices & Ev & E).
  inversion E; subst info. f_equal.
  destruct (0 <? List.length (items_of loop loop_vertices)) eqn:L.
  - apply obind_Returned_inv in Ev. destruct Ev as (n' & En' & Ev).
    apply get_items_Returned in En'. subst n'.
    apply ofold_upto_collects in Ev; [|apply le_n].
    destruct Ev as (ps & -> & F). cbn [app]. clear - F.
    induction F as [|v p vs ps Q _ IH]; [reflexivity|].
    cbn [map]. rewrite IH. f_equal. f_equal.
    apply on_ref_Returned in Q. destruct Q as (obj & -> & _ & <-). reflexivity.
  - inversion Ev. rewrite (get_num_0 _ _ L). reflexivity.
Qed.

Lemma with_faces_added_0 (s : @State IM) : with_faces_added 0 s = s.
Proof. destruct s as [[o m w st im] k]. reflexivity. Qed.

(** The loop over the inner loops of a face, however it ends. *)
Lemma inner_loops_run (loops : list SULoopRef) :
  forall n (s s' : @State IM) r cs,
    List.length loops <= n ->
    for_upto
      (fun inner_loop =>
         info <- lift (loop_face_info inner_loop) ;;
         update (on_stats_ AddFace) ;;
         call (WriteFaceInfo info))
      n loops s = (r, s', cs) ->
    exists k,
      k <= List.length loops /\
      cs = map (fun loop => WriteFaceInfo (loop_record loop)) (firstn k loops) /\
      s' = with_faces_added k s /\
      (r = Returned tt -> k = List.length loops).
Proof.
  induction loops as [|l loops IH]; intros n s s' r cs L E.
  - exists 0. rewrite with_faces_added_0.
    destruct n; inversion E; subst; auto.
  - destruct n as [|n]; [simpl in L; lia|]. simpl in E, L.
    destruct (loop_face_info l) as [info|] eqn:Q.
    + apply loop_face_info_Returned in Q. subst info.
      erewrite bind_Returned in E.
      2:{ rewrite bind_lift_Returned, bind_update. reflexivity. }
      apply after_inv in E. destruct E as (c2 & E & ->).
      apply IH in E; [|lia]. destruct E as (k & K & -> & -> & R).
      exists (S k). cbn [List.length firstn map app].
      rewrite <- (with_faces_added_S k s).
      repeat split; [lia | intros Rr; f_equal; auto].
    + erewrite bind_Thrown in E.
      2:{ rewrite bind_lift_Thrown. reflexivity. }
      inversion E; subst. exists 0. rewrite with_faces_added_0.
      repeat split; [lia | discriminate].
Qed.

Lemma WriteFace_run (face : Face) (s s' : @State IM) r cs :
  WriteFace (Some face) s = (r, s', cs) ->
  exists k,
    k <= List.length (face_loops face) /\
    cs = map (fun loop => WriteFaceInfo (loop_record loop))
           (firstn k (face_loops face)) /\
    s' = with_faces_added k s /\
    (r = Returned tt -> k = List.length (face_loops face)).
Proof.
  unfold WriteFace, face_loops. cbn [SUIsInvalid List.length]. intros E.
  assert (Z : forall s1 c1, (r, s', cs) = (@Thrown unit, s1, c1) ->
                s1 = s -> c1 = [] ->
                exists k,
                  k <= S (List.length (arr_items (face_inner_loops face))) /\
                  cs = map (fun loop => WriteFaceInfo (loop_record loop))
                         (firstn k (q_value (SUFaceGetOuterLoop_ face)
                                    :: arr_items (face_inner_loops face))) /\
                  s' = with_faces_added k s /\
                  (r = Returned tt ->
                   k = S (List.length (arr_items (face_inner_loops face))))).
  { intros s1 c1 Q -> ->. inversion Q; subst. exists 0.
    rewrite with_faces_added_0. repeat split; [lia | discriminate]. }
  run_lift_as E Eo outer_loop; [|symmetry in E; eapply Z; eauto].
  unfold SUFaceGetOuterLoop in Eo.
  apply on_ref_Returned in Eo. destruct Eo as (f & Ef & _ & <-).
  inversion Ef; subst f. clear Ef.
  run_lift_as E Ei info; [|symmetry in E; eapply Z; eauto]. clear Z.
  apply loop_face_info_Returned in Ei. subst info.
  rewrite bind_update in E. run_call E.
  assert (One : forall s1 c1 r1,
             (r1, s1, c1) = (r, s', calls) -> c1 = [] ->
             s1 = with_faces_added 1 s ->
             (r1 = Returned tt -> arr_items (face_inner_loops face) = []) ->
             exists k,
               k <= S (List.length (arr_items (face_inner_loops face))) /\
               [WriteFaceInfo (loop_record (q_value (SUFaceGetOuterLoop_ face)))]
                 ++ calls =
                 map (fun loop => WriteFaceInfo (loop_record loop))
                   (firstn k (q_value (SUFaceGetOuterLoop_ face)
                              :: arr_items (face_inner_loops face))) /\
               s' = with_faces_added k s /\
               (r = Returned tt ->
                k = S (List.length (arr_items (face_inner_loops face))))).
  { intros s1 c1 r1 Q -> -> R. inversion Q; subst. exists 1.
    repeat split; [lia | intros Rr; rewrite (R Rr); reflexivity]. }
  run_lift_as E En n; [|eapply One; eauto; discriminate].
  apply get_num_Returned in En. subst n. cbn [items_of] in E.
  destruct (0 <? List.length (arr_items (face_inner_loops face))) eqn:L.
  2:{ eapply One; eauto. intros _.
      exact (get_num_0 (Some face) face_inner_loops L). }
  run_lift_as E En' n'; [|eapply One; eauto; discriminate]. clear One.
  apply (get_items_Returned (Some face) face_inner_loops) in En'. subst n'.
  cbn [items_of] in E. apply inner_loops_run in E; [|apply le_n].
  destruct E as (k & K & -> & -> & R). exists (S k).
  cbn [firstn map app]. rewrite <- (with_faces_added_S k s).
  repeat split; [lia | intros Rr; f_equal; auto].
Qed.

(** X14.  However [WriteFace] ends on a valid face, what it has written are
    the records of the first loops of the face, the outer loop first, up to
    the loop at which the SDK failed, and the face counter has grown by
    their number; nothing written is taken back when it throws.  When it
    returns, all the loops of the face have their record. *)
Theorem WriteFace_writes_the_loops_up_to_a_failure (face : Face)
  (s s' : @State IM) r cs :
  WriteFace (Some face) s = (r, s', cs) ->
  exists k,
    k <= List.length (face_loops face) /\
    cs = map (fun loop => WriteFaceInfo (loop_record loop))
           (firstn k (face_loops face)) /\
    s' = with_faces_added k s /\
    n_faces (stats_ (self s')) = n_faces (stats_ (self s)) + k /\
    (r = Returned tt -> k = List.length (face_loops face)).
Proof.
  intros E. apply WriteFace_run in E. destruct E as (k & K & C & S' & R).
  exists k. repeat split; try assumption.
  rewrite S'. unfold with_faces_added. cbn [self stats_ on_stats_].
  apply n_faces_iter.
Qed.

End Partial.

(* ================================================================== *)
(** ** Edges, curves and component definitions *)
(* ================================================================== *)

Section EdgesAndDefinitions.

Context {IM : Type} `{CInheritanceManager IM}.
Local Open Scope exporter_scope.

(** X15.  When [GetEdgeInfo] returns, the edge is valid, both its vertices
    are valid and have a position, and the record holds the position of the
    start vertex as its start and that of the end vertex as its end. *)
Theorem GetEdgeInfo_endpoints (e : @CXmlExporter IM) (edge : SUEdgeRef)
  (info : XmlEdgeInfo) :
  GetEdgeInfo e edge = Returned info ->
  exists ed,
    edge = Some ed /\
    q_status (SUEdgeGetStartVertex_ ed) = SU_ERROR_NONE /\
    q_status (SUEdgeGetEndVertex_ ed) = SU_ERROR_NONE /\
    vertex_ok (q_value (SUEdgeGetStartVertex_ ed)) = true /\
    vertex_ok (q_value (SUEdgeGetEndVertex_ ed)) = true /\
    ei_start_ info = vertex_position (q_value (SUEdgeGetStartVertex_ ed)) /\
    ei_end_ info = vertex_position (q_value (SUEdgeGetEndVertex_ ed)).
Proof.
  unfold GetEdgeInfo. intros E.
  apply obind_Returned_inv in E. destruct E as (layer_name & _ & E).
  cbv zeta in E.
  apply obind_Returned_inv in E. destruct E as (start_vertex & Es & E).
  apply obind_Returned_inv in E. destruct E as (p1 & Ep1 & E).
  apply obind_Returned_inv in E. destruct E as (end_vertex & Ee & E).
  apply obind_Returned_inv in E. destruct E as (p2 & Ep2 & E).
  inversion E; subst info; clear E. cbn [ei_start_ ei_end_].
  unfold SUEdgeGetStartVertex in Es. unfold SUEdgeGetEndVertex in Ee.
  unfold SUVertexGetPosition in Ep1, Ep2.
  apply on_ref_Returned in Es. destruct Es as (ed & -> & Qs & <-).
  apply on_ref_Returned in Ee. destruct Ee as (ed' & Q & Qe & <-).
  inversion Q; subst ed'. clear Q.
  apply on_ref_Returned in Ep1. destruct Ep1 as (v1 & V1 & Q1 & <-).
  apply on_ref_Returned in Ep2. destruct Ep2 as (v2 & V2 & Q2 & <-).
  exists ed. rewrite V1, V2. cbn [vertex_ok vertex_position]. rewrite Q1, Q2.
  repeat split; assumption.
Qed.

(** X16.  [WriteEdge] writes a record and counts an edge together or not at
    all: an invalid edge is skipped; for a valid edge, either [GetEdgeInfo]
    throws and nothing is written or counted, or its record is written and
    one edge is counted. *)
Theorem WriteEdge_writes_and_counts_together edge (s : @State IM) r s' cs :
  WriteEdge edge s = (r, s', cs) ->
  (edge = None /\ r = Returned tt /\ s' = s /\ cs = []) \/
  (edge <> None /\ r = Thrown /\ s' = s /\ cs = [] /\
   GetEdgeInfo (self s) edge = Thrown) \/
  (exists info,
      edge <> None /\ r = Returned tt /\
      GetEdgeInfo (self s) edge = Returned info /\
      cs = [WriteEdgeInfo info] /\
      s' = with_edge_added s /\
      n_edges (stats_ (self s')) = S (n_edges (stats_ (self s)))).
Proof.
  unfold WriteEdge. destruct edge as [ed|]; cbn [SUIsInvalid]; intros E.
  2:{ inversion E. auto. }
  right. assert (V : Some ed <> None) by discriminate.
  rewrite bind_this in E. run_lift_as E Ei info.
  - rewrite bind_call in E. inversion E; subst. right. exists info.
    repeat split; auto.
  - inversion E; subst. left. auto.
Qed.

(** X17.  [WriteCurve] leaves the exporter as it was: the edges of a curve
    are not counted in the statistics.  An invalid curve is skipped.  For a
    valid curve, when it throws it has written nothing, and when it returns
    it has written one curve record; for a curve that has edges (the source
    takes the address of the first cell of the vector without looking at
    its size), the record holds the info of every edge of the curve, in
    order. *)
Theorem WriteCurve_one_record_for_its_edges curve (s : @State IM) r s' cs :
  WriteCurve curve s = (r, s', cs) ->
  s' = s /\
  match r, curve with
  | Returned _, None => cs = []
  | Returned _, Some c =>
      exists infos,
        cs = [WriteCurveInfo (mkXmlCurveInfo infos)] /\
        (arr_items (curve_edges c) <> [] ->
         Forall2 (fun edge info => GetEdgeInfo (self s) edge = Returned info)
           (arr_items (curve_edges c)) infos)
  | Thrown, _ => cs = [] /\ curve <> None
  end.
Proof.
  unfold WriteCurve. destruct curve as [c|]; cbn [SUIsInvalid]; intros E.
  2:{ inversion E. auto. }
  assert (V : Some c <> None) by discriminate.
  rewrite bind_this in E.
  run_lift_as E En n; [|inversion E; auto].
  apply get_num_Returned in En. subst n.
  run_lift_as E En' n'; [|inversion E; auto].
  apply get_items_Returned in En'. subst n'.
  run_lift_as E Ee edges; [|inversion E; auto].
  inversion E; subst r s' cs. split; [reflexivity|].
  apply (ofold_upto_collects (fun edge => GetEdgeInfo (self s) edge)
           (fun edge_info => edge_info)) in Ee; [|apply le_n].
  destruct Ee as (infos & -> & F). exists infos.
  cbn [app]. rewrite map_id. split; [reflexivity | intros _; exact F].
Qed.




End EdgesAndDefinitions.

(* ================================================================== *)
(** ** What a traversal writes *)
(* ================================================================== *)

Section Traversal.

Context {IM : Type} `{CInheritanceManager IM}.
Local Open Scope exporter_scope.

(** As [for_upto_Forall2], for rounds that rely on a property of the state
    which they keep. *)
Lemma for_upto_Forall2_keeping {A} (I : @State IM -> Prop)
  (body : A -> @M IM unit) (R : A -> list Call -> Prop) (xs : list A) :
  (forall x, In x xs ->
             forall s s' cs, I s -> body x s = (Returned tt, s', cs) ->
                             I s' /\ R x cs) ->
  forall n s s' cs,
    I s ->
    for_upto body n xs s = (Returned tt, s', cs) ->
    List.length xs <= n ->
    I s' /\ exists chunks, cs = List.concat chunks /\ Forall2 R xs chunks.
Proof.
  induction xs as [|x xs IH]; intros Hb n s s' cs Hs E L.
  - destruct n; inversion E; subst; (split; [exact Hs|]); exists []; auto.
  - destruct n as [|n]; [simpl in L; lia|].
    simpl in E, L. apply bind_Returned_inv in E.
    destruct E as ([] & s1 & c1 & c2 & E1 & E2 & ->).
    destruct (Hb x (or_introl eq_refl) _ _ _ Hs E1) as [Hs1 R1].
    eapply IH in E2; [| intros x' Hx'; apply Hb; right; exact Hx'
                      | exact Hs1 | lia].
    destruct E2 as (Hs' & chunks & -> & Rs). split; [exact Hs'|].
    exists (c1 :: chunks). split; [reflexivity|]. constructor; assumption.
Qed.

Lemma concat_of_each {A} (f : A -> list Call) (xs : list A)
  (chunks : list (list Call)) :
  Forall2 (fun (x : A) (cs : list Call) => cs = f x) xs chunks ->
  List.concat chunks = flat_map f xs.
Proof.
  induction 1 as [|x cs xs chunks -> _ IH]; [reflexivity|].
  cbn [List.concat flat_map]. rewrite IH. reflexivity.
Qed.

Lemma WriteFace_Returned face (s s' : @State IM) cs :
  WriteFace face s = (Returned tt, s', cs) ->
  options_ (self s') = options_ (self s) /\ cs = face_records face.
Proof.
  intros E. split.
  - destruct (WriteFace_keeps (k := polls s) face (frame_intro s) E) as [(O & _) _].
    exact O.
  - destruct face as [f|].
    + apply WriteFace_run in E. destruct E as (k & _ & -> & _ & R).
      rewrite (R eq_refl). cbn [face_records]. rewrite firstn_all. reflexivity.
    + inversion E. reflexivity.
Qed.

Lemma WriteEntities_faces_Returned entities (s s' : @State IM) cs :
  WriteEntities_faces entities s = (Returned tt, s', cs) ->
  cs = if export_faces (options_ (self s))
       then flat_map face_records (items_of entities ents_faces) else [].
Proof.
  intros E. unfold WriteEntities_faces in E. rewrite bind_this in E.
  destruct (export_faces (options_ (self s))); [|inversion E; reflexivity].
  run_lift_as E En n. apply get_num_Returned in En. subst n.
  destruct (0 <? List.length (items_of entities ents_faces)) eqn:L.
  2:{ inversion E. rewrite (get_num_0 _ _ L). reflexivity. }
  run_lift_as E En' n'. apply get_items_Returned in En'. subst n'.
  eapply for_upto_Forall2 with
    (R := fun (face : SUFaceRef) (cs : list Call) => cs = face_records face)
    in E; [| | apply le_n].
  - destruct E as (chunks & -> & F). apply concat_of_each. exact F.
  - intros face _ s0 s0' c0 E0. cbv beta in E0. rewrite bind_update in E0.
    apply bind_Returned_inv in E0. destruct E0 as ([] & s1 & c1 & ? & E1 & E0 & ->).
    inversion E0; subst. rewrite app_nil_r.
    apply WriteFace_Returned in E1. apply E1.
Qed.

Lemma WriteEntities_written (ents : Entities) :
  forall (s s' : @State IM) cs,
    WriteEntities (Some ents) s = (Returned tt, s', cs) ->
    entities_written (export_faces (options_ (self s))) ents cs.
Proof.
  induction ents as [ents IH] using Entities_nested_ind.
  intros s s' cs E. rewrite WriteEntities_unfold in E.
  unfold WriteEntities_body in E.
  apply bind_Returned_inv in E. destruct E as ([] & s1 & ci & ? & Ei & E & ->).
  apply bind_Returned_inv in E. destruct E as ([] & s2 & cg & cf & Eg & Ef & ->).
  apply WriteEntities_instances_run in Ei. destruct Ei as (-> & infos & -> & Fi).
  set (o := options_ (self s)) in *.
  assert (G : options_ (self s2) = o /\
              exists blocks,
                cg = List.concat blocks /\
                Forall2 (fun (group : SUGroupRef) (block : list Call) =>
                           exists g group_ents inside,
                             group = Some g /\
                             q_value (SUGroupGetEntities_ g) = Some group_ents /\
                             entities_written (export_faces o) group_ents inside /\
                             block = StartGroup :: inside ++
                                     [WriteTransformation
                                        (q_value (SUGroupGetTransform_ g));
                                      PopParentNode])
                  (arr_items (ents_groups ents)) blocks).
  { unfold WriteEntities_groups in Eg. run_lift_as Eg En n.
    apply get_num_Returned in En. subst n. cbn [items_of] in Eg.
    destruct (0 <? List.length (arr_items (ents_groups ents))) eqn:L.
    2:{ inversion Eg; subst. split; [reflexivity|]. exists [].
        pose proof (get_num_0 (Some ents) ents_groups L) as Z.
        cbn [items_of] in Z. rewrite Z. split; constructor. }
    run_lift_as Eg En' n'.
    apply (get_items_Returned (Some ents) ents_groups) in En'. subst n'.
    cbn [items_of] in Eg.
    eapply for_upto_Forall2_keeping with
      (I := fun st : @State IM => options_ (self st) = o) in Eg;
      [exact Eg | | reflexivity | apply le_n].
    intros group Hin s0 s0' c0 O0 E0. cbv beta in E0.
    run_lift_as E0 Q group_entities. unfold SUGroupGetEntities in Q.
    apply on_ref_Returned in Q. destruct Q as (g & -> & _ & Q).
    rewrite bind_update in E0. run_call E0.
    apply bind_Returned_inv in E0.
    destruct E0 as ([] & s3 & inside & ? & Einner & E0 & ->).
    destruct group_entities as [group_ents|]; [|discriminate Einner].
    pose proof (IH g group_ents Hin Q _ _ _ Einner) as W. cbn in W.
    rewrite O0 in W.
    assert (O3 : options_ (self s3) = o).
    { match type of Einner with
      | _ ?st = _ =>
          destruct (WriteEntities_keeps (k := polls st) _ (frame_intro st) Einner)
            as [(O3 & _) _]
      end.
      rewrite O3. cbn. exact O0. }
    run_lift_as E0 Et transform. unfold SUGroupGetTransform in Et.
    apply on_ref_Returned in Et. destruct Et as (g' & Qg & _ & <-).
    inversion Qg; subst g'. clear Qg.
    run_call E0. run_call E0. inversion E0; subst. split; [exact O3|].
    exists g, group_ents, inside. repeat split; [exact Q | exact W]. }
  destruct G as (O2 & blocks & -> & Fg).
  apply WriteEntities_faces_Returned in Ef. rewrite O2 in Ef. subst cf.
  cbn [items_of]. constructor; assumption.
Qed.

(** X20.  When [WriteEntities] returns on some entities, what it has
    written is determined by the entities alone: the record of every
    component instance, in order; then the node of every group, in order,
    holding what is written for the group's own entities in the same way,
    followed by the group's own transformation; then, under [export_faces],
    the records of every loop of every valid face, in order.  Nothing is
    left out and nothing else is written. *)
Theorem WriteEntities_writes_everything (ents : Entities) (s s' : @State IM) cs :
  WriteEntities (Some ents) s = (Returned tt, s', cs) ->
  entities_written (export_faces (options_ (self s))) ents cs.
Proof. apply WriteEntities_written. Qed.

End Traversal.

(* ================================================================== *)
(** ** The exporter after a successful run *)
(* ================================================================== *)

Section Reuse.

Context {IM : Type} `{CInheritanceManager IM}.
Variable on_cancel : CancelPolicy.
Variable host : Host.
Local Open Scope exporter_scope.

Ltac restores_steps :=
  repeat (cbv zeta; first
    [ assumption
    | apply restores_ret | apply restores_lift | apply restores_this
    | apply restores_call
    | apply restores_update; intros ?; reflexivity
    | apply restores_bind; [| intros ?]
    | apply restores_for_upto; intros ? _
    | match goal with
      | |- restores_manager (if ?b then _ else _) => destruct b
      | |- restores_manager (match ?x with _ => _ end) => destruct x
      end ]).

Lemma WriteEntities_restores entities :
  StackLike IM -> restores_manager (@WriteEntities IM _ entities).
Proof.
  intros Stack. destruct entities as [ents|]; [|apply restores_lift].
  induction ents as [ents IH] using Entities_nested_ind.
  eapply restores_ext; [intros s; apply WriteEntities_unfold|].
  unfold WriteEntities_body.
  apply restores_bind; [apply WriteEntities_instances_restores|]. intros _.
  apply restores_bind; [|intros _; apply WriteEntities_faces_restores; exact Stack].
  unfold WriteEntities_groups.
  apply restores_bind; [apply restores_lift|]. intros n.
  destruct (0 <? n); [|apply restores_ret].
  apply restores_bind; [apply restores_lift|]. intros n'.
  apply restores_for_upto. intros group Hin.
  destruct (SU_CALL (SUGroupGetEntities group None)) as [group_entities|] eqn:Q.
  2:{ eapply restores_ext; [intros s; apply bind_lift_Thrown|].
      intros s a s' cs E. discriminate E. }
  eapply restores_ext; [intros s; apply bind_lift_Returned|].
  unfold SUGroupGetEntities in Q.
  apply on_ref_Returned in Q. destruct Q as (g & -> & _ & Q).
  assert (R : restores_manager (@WriteEntities IM _ group_entities)).
  { destruct group_entities as [group_ents|]; [|apply restores_lift].
    exact (IH g group_ents Hin Q). }
  intros s a s' cs E. rewrite bind_update in E. run_call E.
  apply bind_Returned_inv in E. destruct E as ([] & s1 & c1 & c2 & E1 & E & ->).
  apply R in E1. cbn in E1.
  run_lift E ET. run_call E. run_call E. inversion E; subst.
  cbn. rewrite E1. apply Stack.
Qed.

Lemma Convert_try_restores src dst cb :
  StackLike IM ->
  restores_manager (@Convert_try IM _ on_cancel host src dst cb).
Proof.
  intros Stack.
  assert (P : forall percent message,
             restores_manager (@HandleProgress IM on_cancel cb percent message)).
  { intros percent message s a s' cs E. apply HandleProgress_run in E.
    destruct E as (-> & _). reflexivity. }
  assert (C : restores_manager (@IsCancelled IM cb)).
  { intros s a s' cs E. rewrite IsCancelled_run in E.
    destruct cb; inversion E; reflexivity. }
  assert (R : restores_manager (@ReleaseModelObjects IM)).
  { intros s a s' cs E. rewrite ReleaseModelObjects_run in E.
    inversion E. reflexivity. }
  assert (W : forall entities, restores_manager (@WriteEntities IM _ entities))
    by (intros; apply WriteEntities_restores; exact Stack).
  unfold Convert_try, WriteTextureFiles, WriteLayers, WriteLayer, WriteMaterials,
    WriteMaterial, WriteGeometry.
  restores_steps; try apply P; try apply W.
Qed.

(** X21.  With an inheritance manager that is a scope stack, a run of
    [Convert] that returns [true] leaves the exporter ready for another
    run: it holds no model and no texture writer, and its options and its
    inheritance manager are as they were before the run. *)
Theorem a_successful_Convert_restores_the_exporter src dst cb
  (s s' : @State IM) calls :
  StackLike IM ->
  Convert on_cancel host src dst cb s = (Returned true, s', calls) ->
  options_ (self s') = options_ (self s) /\
  inheritance_manager_ (self s') = inheritance_manager_ (self s) /\
  model_ (self s') = None /\
  texture_writer_ (self s') = None.
Proof.
  intros Stack E. apply Convert_true_inv in E.
  destruct E as (s1 & calls1 & T & _ & ->).
  split; [|split; [|split; reflexivity]].
  - apply Convert_try_end in T. destruct T as (_ & x & X & _ & S1).
    cbn [released self options_ set_model_ set_texture_writer_]. rewrite S1.
    unfold exports in X. cbv zeta in X.
    destruct X as (_ & _ & _ & _ & _ & _ & _ & _ & _ & _ &
                   _ & _ & _ & _ & (O & _) & _).
    exact O.
  - cbn [released self inheritance_manager_ set_model_ set_texture_writer_].
    exact (@Convert_try_restores src dst cb Stack s _ _ _ T).
Qed.

End Reuse.

(* ================================================================== *)
(** ** What a successful run writes *)
(* ================================================================== *)

Section WholeModel.

Context {IM : Type} `{CInheritanceManager IM}.
Variable on_cancel : CancelPolicy.
Variable host : Host.
Local Open Scope exporter_scope.

Lemma WriteGeometry_run (s s' : @State IM) cs :
  WriteGeometry s = (Returned tt, s', cs) ->
  let o := options_ (self s) in
  if export_faces o || export_edges o then
    exists ents inside,
      SUModelGetEntities (model_ (self s)) None = (SU_ERROR_NONE, Some ents) /\
      cs = StartGeometry :: inside ++ [PopParentNode] /\
      entities_written (export_faces o) ents inside
  else cs = [].
Proof.
  intros E o. unfold WriteGeometry in E. rewrite bind_this in E. fold o in E.
  destruct (export_faces o || export_edges o); [|inversion E; reflexivity].
  run_lift_as E Ee model_entities. apply SU_CALL_Returned in Ee.
  run_call E.
  apply bind_Returned_inv in E. destruct E as ([] & s1 & inside & ? & Ei & E & ->).
  inversion E; subst. clear E.
  destruct model_entities as [ents|]; [|discriminate Ei].
  exists ents, inside. split; [exact Ee|]. split; [reflexivity|].
  apply WriteEntities_written in Ei. exact Ei.
Qed.

(** X22.  When [WriteGeometry] returns under [export_faces] or
    [export_edges], the geometry section holds exactly what is written for
    the entities of the model: every component instance, every group with
    its own entities and transformation, and under [export_faces] every
    loop of every valid face.  Under [export_edges] alone the section is
    written without any face, and with neither toggle nothing is written. *)
Theorem WriteGeometry_writes_the_model_entities (s s' : @State IM) cs :
  WriteGeometry s = (Returned tt, s', cs) ->
  let o := options_ (self s) in
  if export_faces o || export_edges o then
    exists ents inside,
      SUModelGetEntities (model_ (self s)) None = (SU_ERROR_NONE, Some ents) /\
      cs = StartGeometry :: inside ++ [PopParentNode] /\
      entities_written (export_faces o) ents inside
  else cs = [].
Proof. apply WriteGeometry_run. Qed.

(** X23.  What a run of [Convert] that returns [true] has written is
    determined by the model read from the source file and by the options:
    the header carries the version of the model; under [export_layers], the
    layers section holds one record for each valid layer of the model, in
    order; the materials section, when there is one, holds one record for
    each valid material it draws from, in order; and the geometry section,
    when there is one, holds what is written for the entities of the
    model. *)
Theorem Convert_writes_the_whole_model src dst cb (s s' : @State IM) calls :
  Convert on_cancel host src dst cb s = (Returned true, s', calls) ->
  let o := options_ (self s) in
  exists (x : Export IM) (m : Model),
    calls = export_calls src dst x ++ release_calls (self (at_close x)) /\
    SUModelCreateFromFile_ host src = mkQuery SU_ERROR_NONE (Some m) /\
    SUModelGetVersion_ m = mkQuery SU_ERROR_NONE (ex_version x) /\
    (if export_layers o then
       exists infos,
         ex_layers x = StartLayers :: map WriteLayerInfo infos ++ [PopParentNode] /\
         Forall2 layer_recorded (valid_refs (arr_items (model_layers m))) infos
     else ex_layers x = []) /\
    (if export_materials o && materials_section_present o (Some m) then
       exists infos,
         ex_materials x =
           StartMaterials :: map WriteMaterialInfo infos ++ [PopParentNode] /\
         Forall2 (fun material info => GetMaterialInfo material = Returned info)
           (valid_refs (material_sources o (Some m))) infos
     else ex_materials x = []) /\
    (if export_faces o || export_edges o then
       exists ents inside,
         SUModelGetEntities_ m = mkQuery SU_ERROR_NONE (Some ents) /\
         ex_geometry x = StartGeometry :: inside ++ [PopParentNode] /\
         entities_written (export_faces o) ents inside
     else ex_geometry x = []).
Proof.
  intros E o. apply Convert_true_export in E.
  destruct E as (x & X & -> & _ & Sl & _ & _).
  unfold exports in X. cbv zeta in X. fold o in X, Sl.
  destruct X as (Qm & _ & _ & Qv & _ & _ & _ & _ & _ & _ &
                 _ & Fl & Fm & Fg & _ & _ & (sl & El) & (sm & Em) & Eg).
  destruct (ex_model x) as [m|] eqn:M; [|discriminate Qv].
  exists x, m. split; [reflexivity|]. split; [exact Qm|].
  split; [|split; [|split]].
  - unfold SUModelGetVersion in Qv. cbn [on_ref] in Qv. unfold answer in Qv.
    destruct (SUModelGetVersion_ m) as [st v]. cbn [q_status q_value] in Qv.
    destruct st; inversion Qv; reflexivity.
  - destruct Fl as (O & Ml & _).
    destruct (export_layers o) eqn:L.
    + apply WriteLayers_run in El; [|rewrite O; exact L].
      destruct El as (infos & C & F). rewrite Ml in F. exists infos. auto.
    + unfold layers_shape in Sl. rewrite L in Sl. exact Sl.
  - destruct Fm as (O & Mm & _).
    apply WriteMaterials_run in Em. cbv zeta in Em. rewrite O, Mm in Em.
    apply Em.
  - destruct Fg as (O & Mg & _).
    apply WriteGeometry_run in Eg. cbv zeta in Eg. rewrite O, Mg in Eg.
    destruct (export_faces o || export_edges o); [|exact Eg].
    destruct Eg as (ents & inside & Qe & C & W).
    exists ents, inside. split; [|auto].
    unfold SUModelGetEntities in Qe. cbn [on_ref] in Qe. unfold answer in Qe.
    destruct (SUModelGetEntities_ m) as [st v]. cbn [q_status q_value] in Qe.
    destruct st; inversion Qe; reflexivity.
Qed.

End WholeModel.

(* ================================================================== *)
(** ** The theorems at work on the sample objects *)
(* ================================================================== *)

(** An unreadable source file: [SUModelCreateFromFile] fails, the [try]
    block throws after two calls, and [Convert] closes the file as
    cancelled, terminates the SDK and returns [false]. *)
Lemma Convert_catches_every_failure_witness :
  exists s',
    Convert CancelThrows unreadable_host "a.skp" "a.xml" None (fresh all_options) =
      (Returned false, s',
       [SUInitialize; SUModelCreateFromFile "a.skp"] ++
       Close true :: release_calls (self (fresh all_options))) /\
    model_ (self s') = None /\
    texture_writer_ (self s') = None /\
    Forall (fun c => is_release c = false)
      [SUInitialize; SUModelCreateFromFile "a.skp"].
Proof.
  apply (@Convert_catches_every_failure ScopeStack _ CancelThrows
           unreadable_host "a.skp" "a.xml" None (fresh all_options)
           (fresh all_options) [SUInitialize; SUModelCreateFromFile "a.skp"]).
  reflexivity.
Defined.

(** The sample face has an outer loop and one inner loop: two records. *)
Lemma WriteFace_one_record_per_loop_witness :
  WriteFace (Some sample_face) (fresh all_options) =
    (Returned tt, with_faces_added 2 (fresh all_options),
     [WriteFaceInfo (loop_record sample_outer_loop);
      WriteFaceInfo (loop_record sample_inner_loop)]) /\
  n_faces (stats_ (self (with_faces_added 2 (fresh all_options)))) = 0 + 1 + 1 /\
  Forall (fun loop => has_single_loop_ (loop_record loop) = true)
    [sample_outer_loop; sample_inner_loop].
Proof.
  apply (@WriteFace_one_record_per_loop ScopeStack sample_face (fresh all_options)).
  reflexivity.
Defined.

(** The scope stack is stack-like, the traversal of the sample entities
    returns, and the stack is empty again afterwards. *)
Lemma WriteEntities_balances_the_manager_witness :
  inheritance_manager_ (self (snd (fst sample_traversal))) =
  inheritance_manager_ (self (fresh all_options)).
Proof.
  apply (@WriteEntities_balances_the_manager ScopeStack _ (Some sample_entities)
           (fresh all_options) (snd (fst sample_traversal)) (snd sample_traversal)).
  - intros e im. reflexivity.
  - vm_compute. reflexivity.
Defined.

(** The export of the sample model succeeds; its calls split as stated. *)
Lemma records_in_fixed_order_witness :
  exists x : Export ScopeStack,
    snd sample_run =
      export_calls "a.skp" "a.xml" x ++ release_calls (self (at_close x)) /\
    Forall (only is_callback_call)
      (ex_progress_0 x ++ ex_progress_10 x ++ ex_progress_20 x ++
       ex_progress_60 x ++ ex_is_cancelled x ++ ex_progress_100 x) /\
    Forall (only is_texture_call) (ex_textures x) /\
    section_of StartLayers (Forall (only is_WriteLayerInfo)) (ex_layers x) /\
    section_of StartMaterials (Forall (only is_WriteMaterialInfo))
      (ex_materials x) /\
    section_of StartGeometry entities_records (ex_geometry x).
Proof.
  apply (@records_in_fixed_order ScopeStack _ CancelThrows sample_host
           "a.skp" "a.xml" (Some patient_callback) (fresh all_options)
           (snd (fst sample_run)) (snd sample_run)).
  vm_compute. reflexivity.
Defined.


(** The five percentages of the export of the sample model. *)
Lemma progress_is_increasing_witness :
  StronglySorted (fun a b => PrimFloat.ltb a b = true) (percents (snd sample_run)) /\
  Forall (fun p => PrimFloat.leb 0 p = true /\ PrimFloat.leb p 100 = true)
    (percents (snd sample_run)) /\
  labelled (snd sample_run) = true.
Proof.
  apply (@progress_is_increasing ScopeStack _ CancelThrows sample_host
           "a.skp" "a.xml" (Some patient_callback) (fresh all_options)
           (snd (fst sample_run)) (snd sample_run)).
  vm_compute. reflexivity.
Defined.

(** The six reads of the flag in the export of the sample model. *)
Lemma cancellation_checked_between_phases_witness :
  exists x : Export ScopeStack,
    snd sample_run =
      export_calls "a.skp" "a.xml" x ++ release_calls (self (at_close x)) /\
    Forall (only is_writing_call)
      (ex_textures x ++ header_call (ex_version x) :: ex_layers x ++
       ex_materials x ++ ex_geometry x) /\
    flag_reads (Some patient_callback) 0 x.
Proof.
  apply (@cancellation_checked_between_phases ScopeStack _ CancelThrows
           sample_host "a.skp" "a.xml" (Some patient_callback)
           (fresh all_options) (snd (fst sample_run)) (snd sample_run)).
  vm_compute. reflexivity.
Defined.

(** The red edge in a fresh exporter: no current layer, so no layer name;
    the color is the manager's. *)
Lemma GetEdgeInfo_layer_and_color_witness :
  ei_has_layer_ red_edge_info = true /\
  (true = true -> ei_layer_name_ red_edge_info = EmptyString) /\
  (true = false -> ei_layer_name_ red_edge_info = EmptyString) /\
  ei_has_color_ red_edge_info = true /\
  (true = true -> ei_color_ red_edge_info = default_SUColor) /\
  (true = false -> ei_color_ red_edge_info = default_SUColor).
Proof.
  exact (@GetEdgeInfo_layer_and_color ScopeStack _ (fresh_exporter all_options)
           (Some red_edge_on_walls) red_edge_info eq_refl).
Defined.


(* ================================================================== *)
(** ** More of the exporter at work on the sample objects *)
(* ================================================================== *)

(** The brick material: a color, an opacity and a texture are recorded. *)
Lemma GetMaterialInfo_record_witness :
  mi_name_ brick_info = utf8 "Brick" /\
  mi_has_color_ brick_info = true /\
  (mi_has_color_ brick_info = true -> mi_color_ brick_info = pure_red) /\
  mi_has_alpha_ brick_info = true /\
  (mi_has_alpha_ brick_info = true -> mi_alpha_ brick_info = 0.5%float) /\
  mi_has_texture_ brick_info = true /\
  (mi_has_texture_ brick_info = true ->
   exists texture width height,
     Some brick_texture = Some texture /\
     mi_texture_path_ brick_info = utf8 (q_value (SUTextureGetFileName_ texture)) /\
     q_value (SUTextureGetDimensions_ texture) =
       (width, height, mi_texture_sscale_ brick_info,
        mi_texture_tscale_ brick_info)).
Proof.
  exact (@GetMaterialInfo_record brick brick_info eq_refl).
Defined.

(** The walls layer has no material: one record without material info, one
    layer counted. *)
Lemma WriteLayer_writes_and_counts_together_witness :
  exists info,
    WriteLayer (Some walls_layer) (fresh all_options) =
      (Returned tt, with_layer_added (fresh all_options), [WriteLayerInfo info]) /\
    layer_recorded (Some walls_layer) info /\
    li_has_material_info_ info = false /\
    n_layers (stats_ (self (with_layer_added (fresh all_options)))) = 1.
Proof.
  destruct (@WriteLayer_writes_and_counts_together ScopeStack
              (Some walls_layer) (fresh all_options) (Returned tt)
              (with_layer_added (fresh all_options))
              [WriteLayerInfo
                 (mkXmlLayerInfo (utf8 "Walls") false default_XmlMaterialInfo true)]
              eq_refl)
    as [(V & _) | [(_ & R & _) | (info & _ & _ & C & L & _ & N)]].
  - discriminate V.
  - discriminate R.
  - exists info. inversion C; subst info. repeat split.
Defined.

(** The painted model has four valid layer references and an invalid one:
    four records. *)
Lemma WriteLayers_one_record_per_valid_layer_witness :
  exists infos,
    snd painted_layers_run =
      StartLayers :: map WriteLayerInfo infos ++ [PopParentNode] /\
    Forall2 layer_recorded
      [Some walls_layer; Some red_layer; Some hidden_red_layer; Some brick_layer]
      infos /\
    n_layers (stats_ (self (snd (fst painted_layers_run)))) =
      0 + List.length infos.
Proof.
  apply (@WriteLayers_one_record_per_valid_layer ScopeStack
           (painted all_options) (snd (fst painted_layers_run))
           (snd painted_layers_run)).
  - vm_compute. reflexivity.
  - reflexivity.
Defined.

(** The statistics after the export of the sample model. *)
Lemma statistics_count_the_records_witness :
  tallies (fresh all_options) (snd (fst sample_run)) (snd sample_run).
Proof.
  apply (@statistics_count_the_records ScopeStack _ CancelThrows sample_host
           "a.skp" "a.xml" (Some patient_callback) (fresh all_options)
           (snd (fst sample_run)) (fst (fst sample_run)) (snd sample_run)).
  vm_compute. reflexivity.
Defined.

(** By layer, the painted model gives three records: the red paint twice,
    for the two layers that share it, and the brick. *)
Lemma WriteMaterials_one_record_per_source_witness :
  snd (fst painted_materials_run) = painted by_layer_options /\
  exists infos,
    snd painted_materials_run =
      StartMaterials :: map WriteMaterialInfo infos ++ [PopParentNode] /\
    Forall2 (fun material info => GetMaterialInfo material = Returned info)
      [Some red_paint; Some red_paint; Some brick] infos.
Proof.
  apply (@WriteMaterials_one_record_per_source ScopeStack
           (painted by_layer_options) (snd (fst painted_materials_run))
           (snd painted_materials_run)).
  vm_compute. reflexivity.
Defined.

(** The chair: an instance without layer or material. *)
Lemma WriteEntities_instances_one_record_each_witness :
  fresh all_options = fresh all_options /\
  exists infos,
    [WriteComponentInstanceInfo chair_info] =
      map WriteComponentInstanceInfo infos /\
    Forall2 instance_recorded [Some chair_instance] infos /\
    List.length infos = 1.
Proof.
  apply (@WriteEntities_instances_one_record_each ScopeStack
           (Some furnished_entities) (fresh all_options) (fresh all_options)
           [WriteComponentInstanceInfo chair_info]).
  reflexivity.
Defined.

(** The export of the sample model leaves no node open. *)
Lemma nodes_are_well_nested_witness :
  exists d, depth_after 0 (snd sample_run) = Some d /\
            (fst (fst sample_run) = Returned true -> d = 0).
Proof.
  apply (@nodes_are_well_nested ScopeStack _ CancelThrows sample_host
           "a.skp" "a.xml" (Some patient_callback) (fresh all_options)
           (snd (fst sample_run)) (fst (fst sample_run)) (snd sample_run)).
  vm_compute. reflexivity.
Defined.

(** The export of the sample model creates a model and a texture writer and
    releases each once. *)
Lemma created_objects_are_released_once_witness :
  count_calls is_SUModelRelease (snd sample_run) = 1 /\
  count_calls is_SUTextureWriterRelease (snd sample_run) = 1 /\
  model_ (self (snd (fst sample_run))) = None /\
  texture_writer_ (self (snd (fst sample_run))) = None.
Proof.
  apply (@created_objects_are_released_once ScopeStack _ CancelThrows sample_host
           "a.skp" "a.xml" (Some patient_callback) (fresh all_options)
           (snd (fst sample_run)) (fst (fst sample_run)) (snd sample_run)).
  - reflexivity.
  - vm_compute. reflexivity.
Defined.

(** An unreadable source file. *)
Lemma Convert_when_the_model_cannot_be_loaded_witness :
  Convert CancelThrows unreadable_host "a.skp" "a.xml" (Some patient_callback)
    (fresh all_options) =
    (Returned false, released (fresh all_options),
     [SUInitialize; SUModelCreateFromFile "a.skp"; Close true; SUTerminate]).
Proof.
  apply (@Convert_when_the_model_cannot_be_loaded ScopeStack _ CancelThrows
           unreadable_host "a.skp" "a.xml" (Some patient_callback)
           (fresh all_options)).
  reflexivity.
Defined.

(** A destination that cannot be written. *)
Lemma Convert_when_the_file_cannot_be_opened_witness :
  Convert CancelThrows read_only_host "a.skp" "a.xml" (Some patient_callback)
    (fresh all_options) =
    (Returned false, released (fresh all_options),
     [SUInitialize; SUModelCreateFromFile "a.skp"; SUTextureWriterCreate;
      Open "a.xml"; SUTextureWriterRelease; SUModelRelease; SUTerminate]).
Proof.
  apply (@Convert_when_the_file_cannot_be_opened ScopeStack _ CancelThrows
           read_only_host "a.skp" "a.xml" (Some patient_callback)
           (fresh all_options)); reflexivity.
Defined.

(** The painted model has one texture: the texture writer is asked to write
    it, and does. *)
Lemma WriteTextureFiles_writes_only_when_there_are_textures_witness :
  snd (fst painted_textures_run) =
    mkState (on_stats_ (set_textures 1) (self (painted all_options))) 0 /\
  snd painted_textures_run =
    [LoadAllTextures false; SUTextureWriterWriteAllTextures "out_textures"] /\
  (fst (fst painted_textures_run) = Thrown <->
   0 < 1 /\ SU_ERROR_NONE <> SU_ERROR_NONE).
Proof.
  apply (@WriteTextureFiles_writes_only_when_there_are_textures ScopeStack
           sample_host (painted all_options) (snd (fst painted_textures_run))
           (fst (fst painted_textures_run)) (snd painted_textures_run)).
  vm_compute. reflexivity.
Defined.

(** The torn face: the outer loop and the first inner loop are written and
    counted, then the second inner loop fails. *)
Lemma WriteFace_writes_the_loops_up_to_a_failure_witness :
  exists k,
    k <= 4 /\
    snd torn_face_run =
      map (fun loop => WriteFaceInfo (loop_record loop))
        (firstn k [sample_outer_loop; sample_inner_loop; broken_loop;
                   sample_inner_loop]) /\
    snd (fst torn_face_run) = with_faces_added k (fresh all_options) /\
    n_faces (stats_ (self (snd (fst torn_face_run)))) = 0 + k /\
    (fst (fst torn_face_run) = Returned tt -> k = 4).
Proof.
  apply (@WriteFace_writes_the_loops_up_to_a_failure ScopeStack torn_face
           (fresh all_options) (snd (fst torn_face_run))
           (fst (fst torn_face_run)) (snd torn_face_run)).
  vm_compute. reflexivity.
Defined.

(** The sample edge, from (0,0,0) to (4,0,0). *)
Lemma GetEdgeInfo_endpoints_witness :
  exists ed,
    Some sample_edge = Some ed /\
    q_status (SUEdgeGetStartVertex_ ed) = SU_ERROR_NONE /\
    q_status (SUEdgeGetEndVertex_ ed) = SU_ERROR_NONE /\
    vertex_ok (q_value (SUEdgeGetStartVertex_ ed)) = true /\
    vertex_ok (q_value (SUEdgeGetEndVertex_ ed)) = true /\
    ei_start_ sample_edge_info = vertex_position (q_value (SUEdgeGetStartVertex_ ed)) /\
    ei_end_ sample_edge_info = vertex_position (q_value (SUEdgeGetEndVertex_ ed)).
Proof.
  exact (@GetEdgeInfo_endpoints ScopeStack ScopeStack_manager
           (fresh_exporter all_options)
           (Some sample_edge) sample_edge_info eq_refl).
Defined.

(** The sample edge is written, then counted. *)
Lemma WriteEdge_writes_and_counts_together_witness :
  exists info,
    GetEdgeInfo (fresh_exporter all_options) (Some sample_edge) = Returned info /\
    WriteEdge (Some sample_edge) (fresh all_options) =
      (Returned tt, with_edge_added (fresh all_options), [WriteEdgeInfo info]) /\
    n_edges (stats_ (self (with_edge_added (fresh all_options)))) = 1.
Proof.
  destruct (@WriteEdge_writes_and_counts_together ScopeStack ScopeStack_manager
              (Some sample_edge) (fresh all_options) (Returned tt)
              (with_edge_added (fresh all_options))
              [WriteEdgeInfo sample_edge_info] eq_refl)
    as [(V & _) | [(_ & R & _) | (info & _ & _ & G & C & _ & N)]].
  - discriminate V.
  - discriminate R.
  - exists info. inversion C; subst info. repeat split.
Defined.

(** The sample curve: one record with the infos of its two edges, and the
    exporter as it was. *)
Lemma WriteCurve_one_record_for_its_edges_witness :
  fresh all_options = fresh all_options /\
  exists infos,
    [WriteCurveInfo (mkXmlCurveInfo [sample_edge_info; red_edge_info])] =
      [WriteCurveInfo (mkXmlCurveInfo infos)] /\
    ([Some sample_edge; Some red_edge_on_walls] <> [] ->
     Forall2 (fun edge info =>
                GetEdgeInfo (fresh_exporter all_options) edge = Returned info)
       [Some sample_edge; Some red_edge_on_walls] infos).
Proof.
  exact (@WriteCurve_one_record_for_its_edges ScopeStack ScopeStack_manager
           (Some sample_curve)
           (fresh all_options) (Returned tt) (fresh all_options)
           [WriteCurveInfo (mkXmlCurveInfo [sample_edge_info; red_edge_info])]
           eq_refl).
Defined.



(** The furnished entities: the chair, the group with its face, the face. *)
Lemma WriteEntities_writes_everything_witness :
  entities_written true furnished_entities (snd furnished_traversal).
Proof.
  apply (@WriteEntities_writes_everything ScopeStack _ furnished_entities
           (fresh all_options) (snd (fst furnished_traversal))
           (snd furnished_traversal)).
  vm_compute. reflexivity.
Defined.

(** After the export of the sample model. *)
Lemma a_successful_Convert_restores_the_exporter_witness :
  options_ (self (snd (fst sample_run))) = all_options /\
  inheritance_manager_ (self (snd (fst sample_run))) = [] /\
  model_ (self (snd (fst sample_run))) = None /\
  texture_writer_ (self (snd (fst sample_run))) = None.
Proof.
  apply (@a_successful_Convert_restores_the_exporter ScopeStack _ CancelThrows
           sample_host "a.skp" "a.xml" (Some patient_callback) (fresh all_options)
           (snd (fst sample_run)) (snd sample_run)).
  - intros e im. reflexivity.
  - vm_compute. reflexivity.
Defined.

(** The geometry of the painted model. *)
Lemma WriteGeometry_writes_the_model_entities_witness :
  exists ents inside,
    SUModelGetEntities (Some painted_model) None = (SU_ERROR_NONE, Some ents) /\
    snd painted_geometry_run = StartGeometry :: inside ++ [PopParentNode] /\
    entities_written true ents inside.
Proof.
  apply (@WriteGeometry_writes_the_model_entities ScopeStack _
           (painted all_options) (snd (fst painted_geometry_run))
           (snd painted_geometry_run)).
  vm_compute. reflexivity.
Defined.

(** The export of the sample model, section by section. *)
Lemma Convert_writes_the_whole_model_witness :
  exists (x : Export ScopeStack) (m : Model),
    snd sample_run =
      export_calls "a.skp" "a.xml" x ++ release_calls (self (at_close x)) /\
    SUModelCreateFromFile_ sample_host "a.skp" = mkQuery SU_ERROR_NONE (Some m) /\
    SUModelGetVersion_ m = mkQuery SU_ERROR_NONE (ex_version x) /\
    (exists infos,
        ex_layers x = StartLayers :: map WriteLayerInfo infos ++ [PopParentNode] /\
        Forall2 layer_recorded (valid_refs (arr_items (model_layers m))) infos) /\
    (if materials_section_present all_options (Some m) then
       exists infos,
         ex_materials x =
           StartMaterials :: map WriteMaterialInfo infos ++ [PopParentNode] /\
         Forall2 (fun material info => GetMaterialInfo material = Returned info)
           (valid_refs (material_sources all_options (Some m))) infos
     else ex_materials x = []) /\
    (exists ents inside,
        SUModelGetEntities_ m = mkQuery SU_ERROR_NONE (Some ents) /\
        ex_geometry x = StartGeometry :: inside ++ [PopParentNode] /\
        entities_written true ents inside).
Proof.
  apply (@Convert_writes_the_whole_model ScopeStack _ CancelThrows sample_host
           "a.skp" "a.xml" (Some patient_callback) (fresh all_options)
           (snd (fst sample_run)) (snd sample_run)).
  vm_compute. reflexivity.
Defined.

(* ================================================================== *)
(** ** Where the spec and the code part ways, on the sample objects *)
(* ================================================================== *)




(** C7 fails as stated.  The red edge on the Walls layer has a layer and a
    color of its own.  A fresh exporter, whose inheritance manager has no
    current layer, records for it no layer name and the manager's current
    edge color: neither is the edge's own. *)
Lemma edge_own_layer_counterexample :
  GetEdgeInfo (fresh_exporter all_options) (Some red_edge_on_walls) =
    Returned red_edge_info /\
  edge_own_layer (Some red_edge_on_walls) = Some walls_layer /\
  edge_own_color (Some red_edge_on_walls) = Some pure_red /\
  ~ context_is_default (fresh_exporter all_options) (Some red_edge_on_walls)
      red_edge_info.
Proof.
  split; [reflexivity|]. split; [reflexivity|]. split; [reflexivity|].
  intros [Layer _]. specialize (Layer eq_refl). discriminate Layer.
Qed.
